(** * Web Texture Tool: WebGPU texture loader

    A shallow embedding of the loader bundle
    ([build/webgpu-texture-loader.js]), of the transcoding workers (the
    KTX worker [src/workers/ktx/ktx-worker.js] and the Basis worker) and
    of the earlier client ([src/webgpu-texture-tool.js]), with the
    properties of format negotiation, the worker pool, the texture data
    model and the mipmap generator stated over it.

    JavaScript numbers that hold sizes, indices and counters are
    modelled as [Z]; colour channels are IEEE 754 doubles ([float]).
    A JavaScript value that may be [undefined] is an [option]. Where
    the code takes a logarithm the result is a [Js.number], which is an
    integer, [-Infinity] or [NaN]. *)

From Stdlib Require Import ZArith Lia Floats.
From stdpp Require Import gmap strings list.

Open Scope string_scope.
Open Scope list_scope.
Open Scope Z_scope.

(** ** JavaScript helpers *)

Module Js.

(** [Array.prototype.indexOf] on an array of strings: the first index
    holding the element, or [-1]. *)
Fixpoint indexOf_from (i : Z) (l : list string) (x : string) : Z :=
  match l with
  | [] => -1
  | y :: l' => if decide (y = x) then i else indexOf_from (i + 1) l' x
  end.

Definition indexOf (l : list string) (x : string) : Z := indexOf_from 0 l x.

(** [indexOf] with an argument that may be [undefined]: strict
    equality never identifies [undefined] with a string. *)
Definition indexOf_opt (l : list string) (x : option string) : Z :=
  match x with
  | Some s => indexOf l s
  | None => -1
  end.

(** [a || b] on a number that may be [undefined]: [undefined] and [0]
    are falsy. *)
Definition or_num (a : option Z) (b : Z) : Z :=
  match a with
  | Some v => if decide (v = 0) then b else v
  | None => b
  end.

(** [Math.ceil(a / b)] for integers [a] and [b > 0]. *)
Definition ceil_div (a b : Z) : Z := - ((- a) / b).

(** Conversion of a double to an integer by truncation, the first step
    of [ToUint8]; NaN and the infinities go to 0. *)
Definition trunc (f : float) : Z :=
  match Prim2SF f with
  | S754_finite s m e =>
      let v := if 0 <=? e then Z.pos m * 2 ^ e else Z.pos m / 2 ^ (- e) in
      if s then - v else v
  | _ => 0
  end.

(** [ToUint8]: the value stored in a [Uint8Array] element. *)
Definition ToUint8 (f : float) : Z := trunc f mod 256.

(** [new Uint8Array(n)] for an integer [n]: the engine throws a
    RangeError for a negative length and for a length above
    [maxByteLength], the longest array it allocates at that time: its
    own limit, or less when memory is short, and at most [2^53 - 1]. *)
Definition allocates (maxByteLength n : Z) : bool :=
  (0 <=? n) && (n <=? maxByteLength).

(** What arithmetic on integers that takes a logarithm gives. *)
Inductive number : Type :=
| Int (z : Z)
| NegInfinity
| NaN.

(** The fixed point numbers of [log2_rounds_up]: [a] stands for
    [a / scale]. A square is rounded down or up to 256 binary places
    and cut off at 4, which is all that a comparison with 2 needs. *)
Definition scale : Z := 2 ^ 256.

Definition square_down (a : Z) : Z := Z.min (a * a / scale) (4 * scale).

Definition square_up (a : Z) : Z := Z.min (ceil_div (a * a) scale) (4 * scale).

(** Whether [Math.log2(x)], for an integer [x >= 1], is the next
    integer [v] above the floor [v - 1] of the logarithm. [Math.log2]
    returns a double, taken here to be the double nearest to the
    logarithm. Both [v - 1] and [v] are doubles, so that double lies
    between them, and it is [v] when the logarithm is within half a step
    of the doubles below [v]. For [2^e < v <= 2^(e+1)] the step is
    [2^(e-52)], so with [m = 53 - e] the test is
    [v - 2^(-m) <= log2 x], that is [(2^v / x)^(2^m) <= 2], or in
    integers [2^(2^m v - 1) <= x^(2^m)]. The quotient [2^v / x] is
    squared [m] times in fixed point, rounded down in [lo] and up in
    [hi]; should the two bounds not settle the comparison, the powers
    themselves are compared. *)
Definition log2_rounds_up (x : Z) : bool :=
  let v := Z.log2 x + 1 in
  let m := 53 - Z.log2 (v - 1) in
  let lo := Nat.iter (Z.to_nat m) square_down (2 ^ v * scale / x) in
  let hi := Nat.iter (Z.to_nat m) square_up (ceil_div (2 ^ v * scale) x) in
  if hi <=? 2 * scale then true
  else if 2 * scale <? lo then false
  else 2 ^ (2 ^ m * v - 1) <=? x ^ 2 ^ m.

(** [Math.floor(Math.log2(x))] for an integer [x >= 1]. *)
Definition floor_log2 (x : Z) : Z :=
  if log2_rounds_up x then Z.log2 x + 1 else Z.log2 x.

End Js.

(** ** Full mip chain length *)

(** [function A(a, e) { return Math.floor(Math.log2(Math.max(a, e))) + 1 }]
    ([calculateMipLevels]) on integer sizes. [Math.log2] gives
    [-Infinity] for 0 and [NaN] for a negative number, and neither
    [Math.floor] nor the addition changes that. *)
Definition calculateMipLevels (width height : Z) : Js.number :=
  let m := Z.max width height in
  if 0 <? m then Js.Int (Js.floor_log2 m + 1)
  else if m =? 0 then Js.NegInfinity
  else Js.NaN.

(** ** ImageLoader: loads through the browser's image decoder *)

Module ImageLoader.

(** The table [k] from MIME type to the format the image is stored
    as. *)
Definition IMAGE_TEXTURE_FORMAT (mimeType : string) : option string :=
  if decide (mimeType = "image/jpeg") then Some "rgb8unorm"
  else if decide (mimeType = "image/png") then Some "rgba8unorm"
  else if decide (mimeType = "image/apng") then Some "rgba8unorm"
  else if decide (mimeType = "image/gif") then Some "rgba8unorm"
  else if decide (mimeType = "image/bmp") then Some "rgb8unorm"
  else if decide (mimeType = "image/webp") then Some "rgba8unorm"
  else if decide (mimeType = "image/x-icon") then Some "rgba8unorm"
  else if decide (mimeType = "image/svg+xml") then Some "rgba8unorm"
  else None.

(** The negotiation step shared by [fromUrl] and [fromBlob]:
    [if (e.supportedFormatList.indexOf(o) == -1) o = "rgba8unorm"]. *)
Definition negotiate (supportedFormatList : list string) (o : option string)
  : option string :=
  if decide (Js.indexOf_opt supportedFormatList o = -1)
  then Some "rgba8unorm" else o.

(** The format [fromUrl] hands to the client for a MIME type. *)
Definition fromUrl_format (supportedFormatList : list string) (mimeType : string)
  : option string :=
  negotiate supportedFormatList (IMAGE_TEXTURE_FORMAT mimeType).

End ImageLoader.


(** ** WorkerLoader: the pool of transcoding workers *)

Module WorkerLoader.

(** [V], the largest number of workers a pool creates. *)
Definition MAX_WORKER_POOL_SIZE : Z := 4.

(** A worker is identified by its position of creation in the pool. *)
Definition Worker : Type := nat.

Inductive Source : Type :=
| SrcUrl (url : string)
| SrcBuffer (buffer : list Z).

(** The part of the options the loader reads. *)
Record Options : Type := {
  mipmaps : bool;
  extension : option string;
}.

(** The message [postMessage] sends to a worker. *)
Record Request : Type := {
  id : Z;
  source : Source;
  supportedFormats : list string;
  req_mipmaps : bool;
  req_extension : option string;
}.

(** [class L] ([PendingTextureRequest]); the two continuations of the
    promise are identified by the id the request is stored under. *)
Record PendingTextureRequest : Type := {
  client : nat;
  options : Options;
}.

(** The [data] of a message from a worker. [materialized] is what
    [e.client.fromTextureData(a.data, e.options)] does with the payload:
    [false] when it throws. *)
Record Response : Type := {
  resp_id : Z;
  error : option string;
  materialized : bool;
}.

(** What the loader does to the outside, and its writes to the table of
    pending requests, in the order they happen. [InvalidPendingId] is
    the line [console.error] prints for a response without a pending
    request. *)
Inductive Effect : Type :=
| NewWorker (w : Worker)
| PostMessage (w : Worker) (m : Request)
| SetPending (i : Z)
| DeletePending (i : Z)
| Terminate (w : Worker)
| Resolve (i : Z)
| Reject (i : Z) (err : string)
| ConsoleError (msg : string)
| InvalidPendingId (i : Z)
| TypeError (msg : string).

(** The module-level table [d] and counter [C], and the fields of one
    loader [p]. No method assigns [this.worker]; it is kept as a field
    because [destroy] reads it. *)
Record State : Type := {
  pendingTextures : gmap Z PendingTextureRequest;
  nextPendingTextureId : Z;
  workerPool : list Worker;
  nextWorker : Z;
  outstandingRequests : Z;
  worker : option Worker;
  trace : list Effect;
}.

Definition emit (es : list Effect) (st : State) : State :=
  {| pendingTextures := pendingTextures st;
     nextPendingTextureId := nextPendingTextureId st;
     workerPool := workerPool st;
     nextWorker := nextWorker st;
     outstandingRequests := outstandingRequests st;
     worker := worker st;
     trace := trace st ++ es |}.

(** [addWorker()]: [new Worker(path)], install the handler, push. *)
Definition addWorker (st : State) : Worker * State :=
  let w := length (workerPool st) in
  (w, {| pendingTextures := pendingTextures st;
         nextPendingTextureId := nextPendingTextureId st;
         workerPool := workerPool st ++ [w];
         nextWorker := nextWorker st;
         outstandingRequests := outstandingRequests st;
         worker := worker st;
         trace := trace st ++ [NewWorker w] |}).

(** The state right after module evaluation and [new p(path)]: the
    constructor clears the fields and calls [addWorker]. *)
Definition initial : State :=
  {| pendingTextures := ∅;
     nextPendingTextureId := 1;
     workerPool := [];
     nextWorker := 0;
     outstandingRequests := 0;
     worker := None;
     trace := [] |}.

Definition constructor : State := snd (addWorker initial).

(** [a[i]] for a number [i]: [undefined] outside the array. *)
Definition array_get {A : Type} (l : list A) (i : Z) : option A :=
  if decide (0 <= i) then l !! Z.to_nat i else None.

(** [selectWorker()]:
    [this.outstandingRequests++;
     return this.outstandingRequests >= this.workerPool.length
            && this.workerPool.length < V
       ? this.addWorker()
       : this.workerPool[this.nextWorker++ % this.workerPool.length]]. *)
Definition selectWorker (st : State) : option Worker * State :=
  let st1 :=
    {| pendingTextures := pendingTextures st;
       nextPendingTextureId := nextPendingTextureId st;
       workerPool := workerPool st;
       nextWorker := nextWorker st;
       outstandingRequests := outstandingRequests st + 1;
       worker := worker st;
       trace := trace st |} in
  let size := Z.of_nat (length (workerPool st1)) in
  if bool_decide (size <= outstandingRequests st1) && bool_decide (size < MAX_WORKER_POOL_SIZE)
  then let '(w, st2) := addWorker st1 in (Some w, st2)
  else
    (array_get (workerPool st1) (Z.rem (nextWorker st1) size),
     {| pendingTextures := pendingTextures st1;
        nextPendingTextureId := nextPendingTextureId st1;
        workerPool := workerPool st1;
        nextWorker := nextWorker st1 + 1;
        outstandingRequests := outstandingRequests st1;
        worker := worker st1;
        trace := trace st1 |}).

(** The body shared by [fromUrl] and [fromBuffer]:
    [let o = C++;
     return this.selectWorker().postMessage({id: o, ...}),
            new Promise((s, i) => { d[o] = new L(e, r, s, i) })].
    The two operands of the comma run in this order, and the executor of
    the promise runs inside [new Promise]. *)
Definition dispatch (cl : nat) (formats : list string) (src : Source) (r : Options)
    (st : State) : State :=
  let o := nextPendingTextureId st in
  let st1 :=
    {| pendingTextures := pendingTextures st;
       nextPendingTextureId := o + 1;
       workerPool := workerPool st;
       nextWorker := nextWorker st;
       outstandingRequests := outstandingRequests st;
       worker := worker st;
       trace := trace st |} in
  let '(w, st2) := selectWorker st1 in
  match w with
  | None => emit [TypeError "Cannot read properties of undefined"] st2
  | Some w =>
      let m := {| id := o; source := src; supportedFormats := formats;
                  req_mipmaps := mipmaps r; req_extension := extension r |} in
      let st3 := emit [PostMessage w m] st2 in
      {| pendingTextures := <[o := {| client := cl; options := r |}]> (pendingTextures st3);
         nextPendingTextureId := nextPendingTextureId st3;
         workerPool := workerPool st3;
         nextWorker := nextWorker st3;
         outstandingRequests := outstandingRequests st3;
         worker := worker st3;
         trace := trace st3 ++ [SetPending o] |}
  end.

Definition fromUrl (cl : nat) (formats : list string) (url : string) (r : Options)
  : State -> State := dispatch cl formats (SrcUrl url) r.

Definition fromBuffer (cl : nat) (formats : list string) (buffer : list Z) (r : Options)
  : State -> State := dispatch cl formats (SrcBuffer buffer) r.

(** A string used as a condition: [undefined] and the empty string are
    falsy. *)
Definition truthy (s : option string) : option string :=
  match s with
  | Some e => if decide (e = "") then None else Some e
  | None => None
  end.

Definition load_failed (s : option string) : list Effect :=
  match truthy s with
  | Some e => [ConsoleError ("Texture load failed: " ++ e)%string]
  | None => []
  end.

(** The handler [X] of a worker's message. The result tells whether it
    returned ([true]) or threw out of [fromTextureData] ([false]). *)
Definition onWorkerMessage (a : Response) (st : State) : bool * State :=
  match pendingTextures st !! resp_id a with
  | None =>
      (true, emit (load_failed (error a) ++ [InvalidPendingId (resp_id a)]) st)
  | Some e =>
      let st1 :=
        {| pendingTextures := delete (resp_id a) (pendingTextures st);
           nextPendingTextureId := nextPendingTextureId st;
           workerPool := workerPool st;
           nextWorker := nextWorker st;
           outstandingRequests := outstandingRequests st;
           worker := worker st;
           trace := trace st ++ [DeletePending (resp_id a)] |} in
      match truthy (error a) with
      | Some err => (true, emit (load_failed (error a) ++ [Reject (resp_id a) err]) st1)
      | None =>
          if materialized a then (true, emit [Resolve (resp_id a)] st1)
          else (false, st1)
      end
  end.

(** [e.onmessage = t => { X(t), this.outstandingRequests-- }]: the
    decrement is skipped when [X] throws. *)
Definition onmessage (a : Response) (st : State) : State :=
  let '(returned, st1) := onWorkerMessage a st in
  if returned then
    {| pendingTextures := pendingTextures st1;
       nextPendingTextureId := nextPendingTextureId st1;
       workerPool := workerPool st1;
       nextWorker := nextWorker st1;
       outstandingRequests := outstandingRequests st1 - 1;
       worker := worker st1;
       trace := trace st1 |}
  else st1.

(** [destroy()]:
    [if (this.worker) {
       this.worker.terminate();
       let e = new Error("Texture loader was destroyed.");
       for (let t of d) t.reject(e) }].
    [d] is a plain object, so the loop throws before its first
    iteration. *)
Definition destroy (st : State) : State :=
  match worker st with
  | None => st
  | Some w => emit [Terminate w; TypeError "d is not iterable"] st
  end.

(** What can happen to a loader, one turn of the event loop each. *)
Inductive Event : Type :=
| CallFromUrl (cl : nat) (formats : list string) (url : string) (r : Options)
| CallFromBuffer (cl : nat) (formats : list string) (buffer : list Z) (r : Options)
| CallSelectWorker
| WorkerMessage (a : Response)
| CallDestroy.

Definition step (st : State) (ev : Event) : State :=
  match ev with
  | CallFromUrl cl formats url r => fromUrl cl formats url r st
  | CallFromBuffer cl formats buffer r => fromBuffer cl formats buffer r st
  | CallSelectWorker => snd (selectWorker st)
  | WorkerMessage a => onmessage a st
  | CallDestroy => destroy st
  end.

Definition run (evs : list Event) (st : State) : State := foldl step st evs.

(** The claim that the request is in the table before its message is
    posted, read on a trace. *)
Definition recorded_before_posted (tr : list Effect) (i : Z) : Prop :=
  exists (a b : nat) (w : Worker) (m : Request),
    tr !! a = Some (SetPending i) /\
    tr !! b = Some (PostMessage w m) /\ id m = i /\ (a < b)%nat.

(** A response to request [i]. *)
Definition responds_to (i : Z) (ev : Event) : Prop :=
  match ev with
  | WorkerMessage a => resp_id a = i
  | _ => False
  end.

(** A request for a Basis file with the default options, and the state
    of a new loader after one such call of [fromUrl]. *)
Definition sample_options : Options := {| mipmaps := true; extension := None |}.

Definition sample_request (i : Z) : Request :=
  {| id := i; source := SrcUrl "a.basis"; supportedFormats := ["rgba8unorm"];
     req_mipmaps := true; req_extension := None |}.

Definition after_one_dispatch : State :=
  fromUrl 0 ["rgba8unorm"] "a.basis" sample_options constructor.

(** What holds of a loader in every state it can reach. *)
Definition invariant (st : State) : Prop :=
  (1 <= length (workerPool st) <= 4)%nat /\
  0 <= nextWorker st /\
  worker st = None /\
  (forall i, is_Some (pendingTextures st !! i) -> i < nextPendingTextureId st).

End WorkerLoader.

(** ** Transcoding workers: the choice of the target format *)

Module BasisWorker.

(** The members of [BASIS_FORMAT] (the counter
    [cTFTotalTextureFormats] left out). *)
Inductive BasisFormat : Type :=
| cTFETC1_RGB | cTFETC2_RGBA | cTFBC1_RGB | cTFBC3_RGBA | cTFBC4_R
| cTFBC5_RG | cTFBC7_RGBA | cTFPVRTC1_4_RGB | cTFPVRTC1_4_RGBA
| cTFASTC_4x4_RGBA | cTFRGBA32 | cTFRGB565 | cTFBGR565 | cTFRGBA4444.

Record WttFormat : Type := {
  format : string;
  uncompressed : bool;
}.

(** [WTT_FORMAT_MAP]; three Basis formats have no entry. *)
Definition WTT_FORMAT_MAP (f : BasisFormat) : option WttFormat :=
  match f with
  | cTFBC1_RGB => Some {| format := "bc1-rgb-unorm"; uncompressed := false |}
  | cTFBC3_RGBA => Some {| format := "bc3-rgba-unorm"; uncompressed := false |}
  | cTFBC7_RGBA => Some {| format := "bc7-rgba-unorm"; uncompressed := false |}
  | cTFETC1_RGB => Some {| format := "etc1-rgb-unorm"; uncompressed := false |}
  | cTFETC2_RGBA => Some {| format := "etc2-rgba8unorm"; uncompressed := false |}
  | cTFASTC_4x4_RGBA => Some {| format := "astc-4x4-rgba-unorm"; uncompressed := false |}
  | cTFPVRTC1_4_RGB => Some {| format := "pvrtc1-4bpp-rgb-unorm"; uncompressed := false |}
  | cTFPVRTC1_4_RGBA => Some {| format := "pvrtc1-4bpp-rgba-unorm"; uncompressed := false |}
  | cTFRGBA32 => Some {| format := "rgba8unorm"; uncompressed := true |}
  | cTFRGB565 => Some {| format := "rgb565unorm"; uncompressed := true |}
  | cTFRGBA4444 => Some {| format := "rgba4unorm"; uncompressed := true |}
  | cTFBC4_R | cTFBC5_RG | cTFBGR565 => None
  end.

(** The object [supportedFormats] that [onmessage] builds from the list
    in the message: [supportedFormats[f] = list.indexOf(format) > -1]
    for the keys of [WTT_FORMAT_MAP], [undefined] (falsy) elsewhere. *)
Definition supportedFormats (list : list string) (f : BasisFormat) : bool :=
  match WTT_FORMAT_MAP f with
  | Some wtt => bool_decide (-1 < Js.indexOf list (format wtt))
  | None => false
  end.

(** The chain of conditionals in [transcode] that sets [basisFormat]. *)
Definition select (hasAlpha : bool) (supported : BasisFormat -> bool) : BasisFormat :=
  if hasAlpha then
    if supported cTFETC2_RGBA then cTFETC2_RGBA
    else if supported cTFBC7_RGBA then cTFBC7_RGBA
    else if supported cTFBC3_RGBA then cTFBC3_RGBA
    else if supported cTFASTC_4x4_RGBA then cTFASTC_4x4_RGBA
    else if supported cTFPVRTC1_4_RGBA then cTFPVRTC1_4_RGBA
    else cTFRGBA32
  else
    if supported cTFETC1_RGB then cTFETC1_RGB
    else if supported cTFBC7_RGBA then cTFBC7_RGBA
    else if supported cTFBC1_RGB then cTFBC1_RGB
    else if supported cTFETC2_RGBA then cTFETC2_RGBA
    else if supported cTFASTC_4x4_RGBA then cTFASTC_4x4_RGBA
    else if supported cTFPVRTC1_4_RGB then cTFPVRTC1_4_RGB
    else if supported cTFRGB565 then cTFRGB565
    else cTFRGBA32.

(** The two orders the chain checks, as lists. *)
Definition alphaOrder : list BasisFormat :=
  [cTFETC2_RGBA; cTFBC7_RGBA; cTFBC3_RGBA; cTFASTC_4x4_RGBA; cTFPVRTC1_4_RGBA].

Definition opaqueOrder : list BasisFormat :=
  [cTFETC1_RGB; cTFBC7_RGBA; cTFBC1_RGB; cTFETC2_RGBA; cTFASTC_4x4_RGBA;
   cTFPVRTC1_4_RGB; cTFRGB565].

Definition is_uncompressed (f : BasisFormat) : bool :=
  match WTT_FORMAT_MAP f with
  | Some wtt => uncompressed wtt
  | None => false
  end.

End BasisWorker.

Module KtxWorker.

(** The keys of [WTT_FORMAT_MAP]. *)
Inductive Target : Type :=
| BC1_RGB | BC3_RGBA | BC7_M5_RGBA | ETC1_RGB | ETC2_RGBA | ASTC_4x4_RGBA
| PVRTC1_4_RGB | PVRTC1_4_RGBA | RGBA32 | RGB565 | RGBA4444.

Record WttFormat : Type := {
  format : string;
  uncompressed : bool;
}.

Definition WTT_FORMAT_MAP (t : Target) : WttFormat :=
  match t with
  | BC1_RGB => {| format := "bc1-rgb-unorm"; uncompressed := false |}
  | BC3_RGBA => {| format := "bc3-rgba-unorm"; uncompressed := false |}
  | BC7_M5_RGBA => {| format := "bc7-rgba-unorm"; uncompressed := false |}
  | ETC1_RGB => {| format := "etc1-rgb-unorm"; uncompressed := false |}
  | ETC2_RGBA => {| format := "etc2-rgba8unorm"; uncompressed := false |}
  | ASTC_4x4_RGBA => {| format := "astc-4x4-rgba-unorm"; uncompressed := false |}
  | PVRTC1_4_RGB => {| format := "pvrtc1-4bpp-rgb-unorm"; uncompressed := false |}
  | PVRTC1_4_RGBA => {| format := "pvrtc1-4bpp-rgba-unorm"; uncompressed := false |}
  | RGBA32 => {| format := "rgba8unorm"; uncompressed := true |}
  | RGB565 => {| format := "rgb565unorm"; uncompressed := true |}
  | RGBA4444 => {| format := "rgba4unorm"; uncompressed := true |}
  end.

Definition alphaFormatPreference : list Target :=
  [ETC2_RGBA; BC7_M5_RGBA; BC3_RGBA; ASTC_4x4_RGBA; PVRTC1_4_RGBA; RGBA32].

Definition opaqueFormatPreference : list Target :=
  [ETC1_RGB; BC7_M5_RGBA; BC1_RGB; ETC2_RGBA; ASTC_4x4_RGBA; PVRTC1_4_RGB;
   RGB565; RGBA32].

(** [for (const targetFormat of preference) { if
    (supportedFormats.indexOf(wttFormat.format) > -1) { ...; break } }]:
    the first target of the list whose format the device supports. *)
Fixpoint first_supported (preference : list Target) (supportedFormats : list string)
  : option Target :=
  match preference with
  | [] => None
  | t :: rest =>
      if bool_decide (-1 < Js.indexOf supportedFormats (format (WTT_FORMAT_MAP t)))
      then Some t
      else first_supported rest supportedFormats
  end.

(** What [parseFile] reads of the [ktxTexture] before it transcodes. The
    function consults no alpha flag of the file. *)
Record KtxTexture : Type := {
  needsTranscoding : bool;
}.

Inductive Choice : Type :=
| Transcode (target : Target) (fmt : string)
| Fail (msg : string).

(** The choice of the transcode target in [parseFile]. The loop runs
    over [alphaFormatPreference]; [opaqueFormatPreference] is declared
    and not used. The values of [ktx.TranscodeTarget] are objects, so
    [!transcodeFormat] holds only when the loop found nothing. *)
Definition parseFile_choice (ktxTexture : KtxTexture) (supportedFormats : list string)
  : Choice :=
  if needsTranscoding ktxTexture then
    match first_supported alphaFormatPreference supportedFormats with
    | Some t => Transcode t (format (WTT_FORMAT_MAP t))
    | None => Fail "No appropriate transcode format found."
    end
  else Fail "Uncompressed formats not yet supported.".

End KtxWorker.

(** ** The GPU device, seen through the calls made on it *)

Module Gpu.

(** The flags of [GPUTextureUsage] (WebGPU). *)
Definition COPY_SRC : Z := 1.
Definition COPY_DST : Z := 2.
Definition TEXTURE_BINDING : Z := 4.
Definition STORAGE_BINDING : Z := 8.
Definition RENDER_ATTACHMENT : Z := 16.

Record Extent : Type := {
  width : Z;
  height : Z;
  depthOrArrayLayers : option Z;
}.

Record TextureDescriptor : Type := {
  size : Extent;
  format : string;
  usage : Z;
  mipLevelCount : Z;
  dimension : option string;
}.

(** A view of one mip level of one array layer
    ([mipLevelCount: 1, dimension: "2d", arrayLayerCount: 1]). *)
Record TextureView : Type := {
  texture : nat;
  baseMipLevel : Z;
  baseArrayLayer : Z;
}.

(** The calls on the device, its queue and its command encoder. A
    [RenderPass] stands for one pass from [beginRenderPass] to
    [endPass]: its colour attachment, the pipeline set on it and the
    view bound at binding 1 of its bind group, drawn with 3 vertices. *)
Inductive Call : Type :=
| CreateShaderModule
| CreateRenderPipeline (p : nat) (fmt : string)
| CreateTexture (t : nat) (desc : TextureDescriptor)
| CreateCommandEncoder
| CreateView (v : TextureView)
| RenderPass (pipeline : nat) (attachment source : TextureView)
| CopyTextureToTexture (src : nat) (srcLevel : Z) (dst : nat) (dstLevel : Z)
    (copySize : Extent)
| WriteTexture (t : nat) (mipLevel : Z) (originZ : option Z) (data : list Z)
    (offset bytesPerRow : Z) (writeSize : Extent)
| Submit
| DestroyTexture (t : nat).

(** The device and the mipmap generator [G] built on it: the next
    handle the device gives out, the calls made so far (oldest first)
    and the generator's cache [pipelines]. *)
Record World : Type := {
  nextHandle : nat;
  calls : list Call;
  pipelines : gmap string nat;
}.

(** A computation on the device that returns or throws. *)
Inductive Result (A : Type) : Type :=
| Ok (a : A)
| Throw (msg : string).

Arguments Ok {A} a.
Arguments Throw {A} msg.

Definition M (A : Type) : Type := World -> Result A * World.

Definition ret {A : Type} (a : A) : M A := fun w => (Ok a, w).

Definition throw {A : Type} (msg : string) : M A := fun w => (Throw msg, w).

Definition bind {A B : Type} (c : M A) (k : A -> M B) : M B :=
  fun w =>
    match c w with
    | (Ok a, w') => k a w'
    | (Throw msg, w') => (Throw msg, w')
    end.

Definition call (c : Call) : M unit :=
  fun w => (Ok tt, {| nextHandle := nextHandle w;
                      calls := calls w ++ [c];
                      pipelines := pipelines w |}).

Definition fresh : M nat :=
  fun w => (Ok (nextHandle w), {| nextHandle := S (nextHandle w);
                                  calls := calls w;
                                  pipelines := pipelines w |}).

(** The world after the device gave out a handle. *)
Definition bump (w : World) : World :=
  {| nextHandle := S (nextHandle w); calls := calls w; pipelines := pipelines w |}.

(** The world after further calls. *)
Definition add (l : list Call) (w : World) : World :=
  {| nextHandle := nextHandle w; calls := calls w ++ l; pipelines := pipelines w |}.

End Gpu.

Notation "'let*' x ':=' c 'in' k" := (Gpu.bind c (fun x => k))
  (at level 10, x pattern, c at level 100, k at level 200).
Notation "c ';;' k" := (Gpu.bind c (fun _ => k))
  (at level 100, k at level 200, right associativity).

Module Loop.

(** [for (let i = from; i < to; ++i) body], the body threading a state
    of type [S]. *)
Fixpoint for_range {S : Type} (n : nat) (i : Z) (body : Z -> S -> Gpu.M S) (s : S)
  : Gpu.M S :=
  match n with
  | O => Gpu.ret s
  | Datatypes.S n' => let* s' := body i s in for_range n' (i + 1) body s'
  end.

Definition for_lt {S : Type} (from to : Z) (body : Z -> S -> Gpu.M S) (s : S) : Gpu.M S :=
  for_range (Z.to_nat (to - from)) from body s.

(** [for (const x of a) body] over an array that may have holes: the
    body receives [undefined] as [None]. *)
Fixpoint for_of {A : Type} (a : list A) (body : A -> Gpu.M unit) : Gpu.M unit :=
  match a with
  | [] => Gpu.ret tt
  | x :: rest => (body x ;; for_of rest body)
  end.

End Loop.

(** ** WebGPUMipmapGenerator *)

Module MipmapGenerator.

Import Gpu.

(** [getMipmapPipeline(format)]: the cached pipeline of the format, or a
    new one. Neither [mipmapVertexShaderModule] nor
    [mipmapFragmentShaderModule] is ever assigned, so the shader module
    is created with every new pipeline. *)
Definition getMipmapPipeline (fmt : string) : M nat :=
  fun w =>
    match pipelines w !! fmt with
    | Some p => (Ok p, w)
    | None =>
        let p := nextHandle w in
        (Ok p, {| nextHandle := S p;
                  calls := calls w ++ [CreateShaderModule; CreateRenderPipeline p fmt];
                  pipelines := <[fmt := p]> (pipelines w) |})
    end.

Definition non2d (d : option string) : bool :=
  bool_decide (d = Some "3d") || bool_decide (d = Some "1d").

Definition view (t : nat) (level layer : Z) : TextureView :=
  {| texture := t; baseMipLevel := level; baseArrayLayer := layer |}.

(** The descriptor [c] of the temporary texture. *)
Definition temporary (t : TextureDescriptor) (s : Z) : TextureDescriptor :=
  {| size := {| width := Js.ceil_div (width (size t)) 2;
                height := Js.ceil_div (height (size t)) 2;
                depthOrArrayLayers := Some s |};
     format := format t;
     usage := Z.lor (Z.lor TEXTURE_BINDING COPY_SRC) RENDER_ATTACHMENT;
     mipLevelCount := mipLevelCount t - 1;
     dimension := None |}.

(** The body of the inner loop: one pass into level [M] of [o], sampling
    the view [g] of the previous pass; the state is the pair of [M] and
    [g]. *)
Definition blit (r o : nat) (c : Z) (st : Z * TextureView) : M (Z * TextureView) :=
  let v := view o (fst st) c in
  call (CreateView v) ;;
  call (RenderPass r v (snd st)) ;;
  ret (fst st + 1, v).

(** The body of the loop over the array layers. *)
Definition blitLayer (r e o : nat) (i : Z) (count : Z) (c : Z) : M unit :=
  let g := view e 0 c in
  call (CreateView g) ;;
  let M0 := if decide (i = 0) then 0 else 1 in
  Loop.for_lt 1 count (fun _ st => blit r o c st) (M0, g) ;;
  ret tt.

(** [c.width = Math.ceil(c.width / 2), c.height = Math.ceil(c.height / 2)]. *)
Definition halve (c : Extent) : Extent :=
  {| width := Js.ceil_div (width c) 2;
     height := Js.ceil_div (height c) 2;
     depthOrArrayLayers := depthOrArrayLayers c |}.

(** The body of the copy loop; the state is the size [c] of the copy. *)
Definition copyLevel (e o : nat) (g : Z) (c : Extent) : M Extent :=
  call (CopyTextureToTexture o (g - 1) e g c) ;;
  ret (halve c).

(** [generateMipmap(e, t)] for the texture [e] created with the
    descriptor [t]. *)
Definition generateMipmap (e : nat) (t : TextureDescriptor) : M nat :=
  let* r := getMipmapPipeline (format t) in
  if non2d (dimension t)
  then throw "Generating mipmaps for non-2d textures is currently unsupported!"
  else
    let s := Js.or_num (depthOrArrayLayers (size t)) 1 in
    let i := Z.land (usage t) RENDER_ATTACHMENT in
    let* o :=
      (if decide (i = 0)
       then let* h := fresh in call (CreateTexture h (temporary t s)) ;; ret h
       else ret e) in
    call CreateCommandEncoder ;;
    Loop.for_lt 0 s (fun c _ => blitLayer r e o i (mipLevelCount t) c) tt ;;
    (if decide (i = 0)
     then
       Loop.for_lt 1 (mipLevelCount t) (copyLevel e o)
         {| width := Js.ceil_div (width (size t)) 2;
            height := Js.ceil_div (height (size t)) 2;
            depthOrArrayLayers := Some s |} ;;
       ret tt
     else ret tt) ;;
    call Submit ;;
    (if decide (i = 0) then call (DestroyTexture o) else ret tt) ;;
    ret e.

(** The calls of the loops, as lists: [chain] for [n] turns of the inner
    loop from level [M] and source [g], [layerCalls] for one array
    layer, [copyCalls] for [n] turns of the copy loop from level [g]. *)
Fixpoint chain (r o : nat) (c : Z) (n : nat) (M : Z) (g : TextureView) : list Call :=
  match n with
  | O => []
  | S n' =>
      CreateView (view o M c) :: RenderPass r (view o M c) g
        :: chain r o c n' (M + 1) (view o M c)
  end.

Definition layerCalls (r e o : nat) (i count : Z) (c : Z) : list Call :=
  CreateView (view e 0 c)
    :: chain r o c (Z.to_nat (count - 1)) (if decide (i = 0) then 0 else 1) (view e 0 c).

Fixpoint copyCalls (e o : nat) (n : nat) (g : Z) (c : Extent) : list Call :=
  match n with
  | O => []
  | S n' => CopyTextureToTexture o (g - 1) e g c :: copyCalls e o n' (g + 1) (halve c)
  end.

(** The source level, the target and the target level of a copy out of
    the texture [o]. *)
Definition copy_route (o : nat) (x : Call) : option (Z * nat * Z) :=
  match x with
  | CopyTextureToTexture src srcLevel dst dstLevel _ =>
      if decide (src = o) then Some (srcLevel, dst, dstLevel) else None
  | _ => None
  end.

(** The calls a computation [c] adds to the world [w]. *)
Definition added {A : Type} (c : M A) (w : World) : list Call :=
  drop (length (calls w)) (calls (snd (c w))).

Definition is_render_pass (c : Call) : bool :=
  match c with RenderPass _ _ _ => true | _ => false end.

Definition is_copy (c : Call) : bool :=
  match c with CopyTextureToTexture _ _ _ _ _ => true | _ => false end.

Definition is_create_texture (c : Call) : bool :=
  match c with CreateTexture _ _ => true | _ => false end.

(** Whether the call puts a command into the encoder or sends it. *)
Definition is_command (c : Call) : bool :=
  match c with
  | RenderPass _ _ _ | CopyTextureToTexture _ _ _ _ _ | Submit => true
  | _ => false
  end.

(** The number of calls of a kind among some calls. *)
Fixpoint count (p : Call -> bool) (l : list Call) : nat :=
  match l with
  | [] => 0
  | x :: l' => (if p x then 1 else 0) + count p l'
  end.

(** A pass of array layer [c]. *)
Definition pass_of_layer (c : Z) (x : Call) : bool :=
  match x with
  | RenderPass _ a _ => bool_decide (baseArrayLayer a = c)
  | _ => false
  end.

(** A pass that reads the layer it writes. *)
Definition same_layer (x : Call) : Prop :=
  match x with
  | RenderPass _ a s => baseArrayLayer a = baseArrayLayer s
  | _ => True
  end.

(** A pass that renders into the texture [o]. *)
Definition renders_into (o : nat) (x : Call) : Prop :=
  match x with
  | RenderPass _ a _ => texture a = o
  | _ => True
  end.

(** A volume texture created for sampling only, and a device on which
    nothing was called yet. *)
Definition volume_descriptor : TextureDescriptor :=
  {| size := {| width := 8; height := 8; depthOrArrayLayers := Some 8 |};
     format := "rgba8unorm";
     usage := Z.lor TEXTURE_BINDING COPY_DST;
     mipLevelCount := 4;
     dimension := Some "3d" |}.

Definition new_world : World :=
  {| nextHandle := 1; calls := []; pipelines := ∅ |}.

End MipmapGenerator.

(** ** The earlier client of [src/webgpu-texture-tool.js] *)

Module EarlierClient.

Import Gpu MipmapGenerator.

(** [generateMipmap(texture, textureDescriptor)] of
    [WebGPUTextureClient], once [mipmapReady] has resolved and with the
    one pipeline [r] the constructor built: every level is rendered into
    the texture itself from the level before, whatever its usage. The
    views name no array layer. *)
Definition generateMipmap (device : option nat) (r : nat) (texture : nat)
    (textureDescriptor : TextureDescriptor) : M nat :=
  match device with
  | None => throw "Cannot generate mipmaps after object has been destroyed."
  | Some _ =>
      call CreateCommandEncoder ;;
      let srcView := view texture 0 0 in
      call (CreateView srcView) ;;
      Loop.for_lt 1 (mipLevelCount textureDescriptor)
        (fun i st => blit r texture 0 (i, snd st)) (1, srcView) ;;
      call Submit ;;
      ret texture
  end.

End EarlierClient.

(** ** WebTextureData: levels and slices of a decoded texture *)

Module TextureData.

Import Gpu.

(** An image slice: a range of bytes of a buffer. *)
Record Slice : Type := {
  buffer : list Z;
  byteOffset : Z;
  byteLength : Z;
}.

(** The data handed to [setSlice]: an [ArrayBuffer], or a typed array
    over a buffer. *)
Inductive BufferSource : Type :=
| ArrayBuffer (bytes : list Z)
| ArrayBufferView (bytes : list Z) (viewOffset viewLength : Z).

Record SliceOptions : Type := {
  opt_byteOffset : option Z;
  opt_byteLength : option Z;
}.

Record LevelOptions : Type := {
  opt_width : option Z;
  opt_height : option Z;
}.

Definition no_slice_options : SliceOptions :=
  {| opt_byteOffset := None; opt_byteLength := None |}.

Definition no_level_options : LevelOptions :=
  {| opt_width := None; opt_height := None |}.

(** [class F] ([WebTextureLevelData]). The array [slices] may have
    holes. The back reference [textureData] is read by the constructor
    only and is not kept. *)
Record WebTextureLevelData : Type := {
  levelIndex : Z;
  level_width : Z;
  level_height : Z;
  slices : list (option Slice);
}.

(** [class I] ([WebTextureData]). *)
Record WebTextureData : Type := {
  data_format : string;
  data_width : Z;
  data_height : Z;
  levels : list (option WebTextureLevelData);
}.

(** [a[i]] when the array may have holes. *)
Definition element {A : Type} (a : list (option A)) (i : nat) : option A :=
  match a !! i with
  | Some x => x
  | None => None
  end.

(** [a[i] = x]: past the end the array grows, leaving holes. *)
Definition assign {A : Type} (a : list (option A)) (i : nat) (x : A) : list (option A) :=
  if (i <? length a)%nat then <[i := Some x]> a
  else a ++ replicate (i - length a) None ++ [Some x].

(** [a >> b] on numbers: the left operand as a signed 32 bit integer,
    the shift count modulo 32. *)
Definition sar (a b : Z) : Z :=
  Z.shiftr ((a + 2 ^ 31) mod 2 ^ 32 - 2 ^ 31) (b mod 32).

(** [setSlice(e, t, r = {})] on the level [this]; the level after the
    call comes with the outcome. *)
Definition setSlice (e : nat) (t : BufferSource) (r : SliceOptions)
    (this : WebTextureLevelData) : Result unit * WebTextureLevelData :=
  match element (slices this) e with
  | Some _ => (Throw "Cannot define an image slice twice.", this)
  | None =>
      let o := Js.or_num (opt_byteOffset r) 0 in
      let s := Js.or_num (opt_byteLength r) 0 in
      let slice :=
        match t with
        | ArrayBuffer bytes =>
            {| buffer := bytes;
               byteOffset := o;
               byteLength := if decide (s = 0) then Z.of_nat (length bytes) - o else s |}
        | ArrayBufferView bytes viewOffset viewLength =>
            {| buffer := bytes;
               byteOffset := o + viewOffset;
               byteLength := if decide (s = 0) then viewLength - o else s |}
        end in
      (Ok tt, {| levelIndex := levelIndex this;
                 level_width := level_width this;
                 level_height := level_height this;
                 slices := assign (slices this) e slice |})
  end.

(** [new F(textureData, t, r)]. *)
Definition newLevel (textureData : WebTextureData) (t : nat) (r : LevelOptions)
  : WebTextureLevelData :=
  {| levelIndex := Z.of_nat t;
     level_width :=
       Z.max 1 (Js.or_num (opt_width r) (sar (data_width textureData) (Z.of_nat t)));
     level_height :=
       Z.max 1 (Js.or_num (opt_height r) (sar (data_height textureData) (Z.of_nat t)));
     slices := [] |}.

(** [getLevel(e, t = {})]: the level, created and stored on first
    access. *)
Definition getLevel (e : nat) (t : LevelOptions) (this : WebTextureData)
  : WebTextureLevelData * WebTextureData :=
  match element (levels this) e with
  | Some r => (r, this)
  | None =>
      let r := newLevel this e t in
      (r, {| data_format := data_format this;
             data_width := data_width this;
             data_height := data_height this;
             levels := assign (levels this) e r |})
  end.

(** [new I(e, t, r, o = null, s = {})]. The level that [getLevel]
    returns is the object stored in [levels]; the update by [setSlice]
    is written back to it. *)
Definition newTextureData (e : string) (t r : Z) (o : option BufferSource)
    (s : SliceOptions) : Result WebTextureData :=
  let this := {| data_format := e;
                 data_width := Z.max 1 t;
                 data_height := Z.max 1 r;
                 levels := [] |} in
  match o with
  | None => Ok this
  | Some data =>
      let '(lvl, this1) := getLevel 0 no_level_options this in
      match setSlice 0 data s lvl with
      | (Ok _, lvl') =>
          Ok {| data_format := data_format this1;
                data_width := data_width this1;
                data_height := data_height this1;
                levels := assign (levels this1) 0 lvl' |}
      | (Throw msg, _) => Throw msg
      end
  end.

(** A result of [setSlice] as a step of a computation on the device. *)
Definition lift {A : Type} (r : Result A) : M A :=
  fun w => (r, w).

End TextureData.

(** ** The WebGPU client and the public tool *)

Module Client.

Import Gpu TextureData.

Record BlockInfo : Type := {
  blockBytes : Z;
  blockWidth : Z;
  blockHeight : Z;
}.

Record FormatInfo : Type := {
  canGenerateMipmaps : bool;
  compressed : option BlockInfo;
}.

Definition plain : FormatInfo :=
  {| canGenerateMipmaps := true; compressed := None |}.

Definition block (bytes : Z) : FormatInfo :=
  {| canGenerateMipmaps := false;
     compressed := Some {| blockBytes := bytes; blockWidth := 4; blockHeight := 4 |} |}.

(** The table [b] ([WebTextureFormat]), without its WebGL columns. *)
Definition WebTextureFormat (name : string) : option FormatInfo :=
  if decide (name = "rgb8unorm") then Some plain
  else if decide (name = "rgba8unorm") then Some plain
  else if decide (name = "rgb8unorm-srgb") then Some plain
  else if decide (name = "rgba8unorm-srgb") then Some plain
  else if decide (name = "rgb565unorm") then Some plain
  else if decide (name = "rgba4unorm") then Some plain
  else if decide (name = "rgba5551unorm") then Some plain
  else if decide (name = "bgra8unorm") then Some plain
  else if decide (name = "bgra8unorm-srgb") then Some plain
  else if decide (name = "bc1-rgb-unorm") then Some (block 8)
  else if decide (name = "bc2-rgba-unorm") then Some (block 16)
  else if decide (name = "bc3-rgba-unorm") then Some (block 16)
  else if decide (name = "bc7-rgba-unorm") then Some (block 16)
  else if decide (name = "etc1-rgb-unorm") then Some (block 8)
  else if decide (name = "etc2-rgba8unorm") then Some (block 16)
  else if decide (name = "astc-4x4-rgba-unorm") then Some (block 16)
  else if decide (name = "pvrtc1-4bpp-rgb-unorm") then Some (block 8)
  else if decide (name = "pvrtc1-4bpp-rgba-unorm") then Some (block 8)
  else None.

(** The tables [q] and [D] between a format and its sRGB variant. *)
Definition SRGB_FORMAT (name : string) : option string :=
  if decide (name = "rgb8unorm") then Some "rgb8unorm-srgb"
  else if decide (name = "rgba8unorm") then Some "rgba8unorm-srgb"
  else if decide (name = "bgra8unorm") then Some "bgra8unorm-srgb"
  else if decide (name = "bc1-rgba-unorm") then Some "bc1-rgba-unorm-srgb"
  else if decide (name = "bc2-rgba-unorm") then Some "bc2-rgba-unorm-srgb"
  else if decide (name = "bc3-rgba-unorm") then Some "bc3-rgba-unorm-srgb"
  else if decide (name = "bc7-rgba-unorm") then Some "bc7-rgba-unorm-srgb"
  else None.

Definition LINEAR_FORMAT (name : string) : option string :=
  if decide (name = "rgb8unorm-srgb") then Some "rgb8unorm"
  else if decide (name = "rgba8unorm-srgb") then Some "rgba8unorm"
  else if decide (name = "bgra8unorm-srgb") then Some "bgra8unorm"
  else if decide (name = "bc1-rgba-unorm-srgb") then Some "bc1-rgba-unorm"
  else if decide (name = "bc2-rgba-unorm-srgb") then Some "bc2-rgba-unorm"
  else if decide (name = "bc3-rgba-unorm-srgb") then Some "bc3-rgba-unorm"
  else if decide (name = "bc7-rgba-unorm-srgb") then Some "bc7-rgba-unorm"
  else None.

(** [function N(a, e)] ([resolveFormat]). *)
Definition resolveFormat (a : string) (e : option string) : string :=
  if decide (e = Some "sRGB") then default a (SRGB_FORMAT a)
  else if decide (e = Some "linear") then default a (LINEAR_FORMAT a)
  else a.

Record TextureOptions : Type := {
  mipmaps : bool;
  colorSpace : option string;
}.

(** The second argument of [fromTextureData]: an options object, or the
    value [false] that [fromColor] and [fromNoise] pass. *)
Inductive OptionsArg : Type :=
| NoOptions
| WithOptions (o : TextureOptions).

Definition arg_mipmaps (t : OptionsArg) : bool :=
  match t with
  | NoOptions => false
  | WithOptions o => mipmaps o
  end.

Definition arg_colorSpace (t : OptionsArg) : option string :=
  match t with
  | NoOptions => None
  | WithOptions o => colorSpace o
  end.

(** [class E] ([WebTextureResult]), after the defaults of its
    constructor. *)
Record WebTextureResult : Type := {
  texture : nat;
  width : Z;
  height : Z;
  depth : Z;
  mipLevels : Z;
  format : string;
  type : string;
}.

(** The client [j]; [device] is [null] once destroyed. *)
Record WebGPUTextureClient : Type := {
  device : option nat;
}.

Definition quote : string := String (Ascii.ascii_of_nat 34) "".

Definition undefined_read : string := "TypeError: cannot read properties of undefined".

(** The upload of one level: a [writeTexture] for each slice. No slice
    carries a [sliceIndex], so the origin has no [z]. *)
Definition writeLevel (c : nat) (o : BlockInfo) (g : option WebTextureLevelData) : M unit :=
  match g with
  | None => throw undefined_read
  | Some g =>
      let bytesPerRow := Js.ceil_div (level_width g) (blockWidth o) * blockBytes o in
      Loop.for_of (slices g) (fun h =>
        match h with
        | None => throw undefined_read
        | Some h =>
            call (WriteTexture c (levelIndex g) None (buffer h) (byteOffset h) bytesPerRow
                    {| Gpu.width := Js.ceil_div (level_width g) (blockWidth o) * blockWidth o;
                       Gpu.height := Js.ceil_div (level_height g) (blockHeight o) * blockHeight o;
                       depthOrArrayLayers := None |})
        end)
  end.

(** [createTexture] reads [mipLevelCount] as an [unsigned long] with
    [EnforceRange]: for [NaN] and [-Infinity] the conversion throws a
    TypeError and no texture is created. *)
Definition mipLevelCount_TypeError : string :=
  "TypeError: mipLevelCount is not a finite number".

(** [fromTextureData(e, t)]. [class I] has no [depth] and no [type], so
    the descriptor has no [depthOrArrayLayers] and the result takes the
    defaults 1 and ["2d"]. *)
Definition fromTextureData (this : WebGPUTextureClient) (e : WebTextureData)
    (t : OptionsArg) : M WebTextureResult :=
  match device this with
  | None => throw "Cannot create new textures after object has been destroyed."
  | Some _ =>
      match WebTextureFormat (data_format e) with
      | None => throw ("Unknown format " ++ quote ++ data_format e ++ quote)%string
      | Some r =>
          let o := default {| blockBytes := 4; blockWidth := 1; blockHeight := 1 |}
                     (compressed r) in
          let s := arg_mipmaps t && canGenerateMipmaps r in
          let n := Z.of_nat (length (levels e)) in
          let i := if decide (1 < n) then Js.Int n
                   else if s then calculateMipLevels (data_width e) (data_height e)
                   else Js.Int 1 in
          match i with
          | Js.Int i =>
              let l := {| size := {| Gpu.width :=
                                       Js.ceil_div (data_width e) (blockWidth o)
                                       * blockWidth o;
                                     Gpu.height :=
                                       Js.ceil_div (data_height e) (blockHeight o)
                                       * blockHeight o;
                                     depthOrArrayLayers := None |};
                          Gpu.format := resolveFormat (data_format e) (arg_colorSpace t);
                          usage := Z.lor TEXTURE_BINDING COPY_DST;
                          mipLevelCount := i;
                          dimension := None |} in
              let* c := fresh in
              call (CreateTexture c l) ;;
              Loop.for_of (levels e) (writeLevel c o) ;;
              (if s then (MipmapGenerator.generateMipmap c l ;; ret tt) else ret tt) ;;
              ret {| texture := c;
                     width := Js.or_num (Some (data_width e)) 1;
                     height := Js.or_num (Some (data_height e)) 1;
                     depth := 1;
                     mipLevels := Js.or_num (Some i) 1;
                     format := if decide (data_format e = "") then "rgba8unorm"
                               else data_format e;
                     type := "2d" |}
          | _ => throw mipLevelCount_TypeError
          end
      end
  end.

(** [destroy()] of the client. *)
Definition destroy (this : WebGPUTextureClient) : WebGPUTextureClient :=
  {| device := None |}.

End Client.

Module WebTextureTool.

Import Gpu TextureData Client.

(** The tool [S]; the field [this[n]] holds the client, [null] once
    destroyed. *)
Record WebTextureTool : Type := {
  client : option WebGPUTextureClient;
}.

Definition unsupported_color_format : string :=
  ("fromColor only supports " ++ quote ++ "rgba8unorm" ++ quote ++ " and "
     ++ quote ++ "rgba8unorm-srgb" ++ quote ++ " formats")%string.

(** [new Uint8Array([e * 255, t * 255, r * 255, o * 255])]. *)
Definition colorBytes (e t r o : float) : list Z :=
  [Js.ToUint8 (e * 255)%float; Js.ToUint8 (t * 255)%float;
   Js.ToUint8 (r * 255)%float; Js.ToUint8 (o * 255)%float].

(** [fromColor(e, t, r, o = 1, s = "rgba8unorm")]; an argument left out
    is [None]. *)
Definition fromColor (this : WebTextureTool) (e t r : float) (o : option float)
    (s : option string) : M WebTextureResult :=
  let o := default 1%float o in
  let s := default "rgba8unorm" s in
  match client this with
  | None => throw "Cannot create new textures after object has been destroyed."
  | Some cl =>
      if bool_decide (s <> "rgba8unorm") && bool_decide (s <> "rgba8unorm-srgb")
      then throw unsupported_color_format
      else
        let i := colorBytes e t r o in
        let* data := lift (newTextureData s 1 1 (Some (ArrayBufferView i 0 4))
                             no_slice_options) in
        fromTextureData cl data NoOptions
  end.

(** [destroy()] of the tool. *)
Definition destroy (this : WebTextureTool) : WebTextureTool :=
  {| client := None |}.

End WebTextureTool.


(** ** The calls of mipmap generation through a temporary texture *)

Module MipmapChain.

Import Gpu MipmapGenerator.

(** The descriptor of the temporary texture for a texture created with
    [t] that has [s] array layers: half the size, one level less, and a
    usage that allows rendering to it and copying from it. *)
Definition temporaryDescriptor (t : TextureDescriptor) (s : Z) : TextureDescriptor :=
  {| size := {| width := Js.ceil_div (width (size t)) 2;
                height := Js.ceil_div (height (size t)) 2;
                depthOrArrayLayers := Some s |};
     format := format t;
     usage := Z.lor (Z.lor TEXTURE_BINDING COPY_SRC) RENDER_ATTACHMENT;
     mipLevelCount := mipLevelCount t - 1;
     dimension := None |}.

(** The down-sample chain of the array layer [c] of the texture [e]
    with [n] levels, through the texture [o]: after the view of level 0
    of [e], for each [j] from 0 to [n - 2] the view of level [j] of [o]
    and a pass into it, from level 0 of [e] for [j = 0] and from level
    [j - 1] of [o] after that. *)
Definition downsample (r e o : nat) (n c : Z) : list Call :=
  CreateView (view e 0 c)
    :: flat_map (fun j => [CreateView (view o j c);
                           RenderPass r (view o j c)
                             (if decide (j = 0) then view e 0 c else view o (j - 1) c)])
         (seqZ 0 (n - 1)).

(** The copies back: level [g - 1] of [o] to level [g] of [e], in the
    size of level [g], for [g] from 1 to the last level. *)
Definition copiesBack (e o : nat) (t : TextureDescriptor) (s : Z) : list Call :=
  map (fun g => CopyTextureToTexture o (g - 1) e g
                  {| width := Js.ceil_div (width (size t)) (2 ^ g);
                     height := Js.ceil_div (height (size t)) (2 ^ g);
                     depthOrArrayLayers := Some s |})
    (seqZ 1 (mipLevelCount t - 1)).


End MipmapChain.

(** ** Runs of a loader: what its trace shows *)

Module PoolRun.

Import WorkerLoader.

(** The id of the message an effect posts. *)
Definition posted (e : Effect) : option Z :=
  match e with
  | PostMessage _ m => Some (id m)
  | _ => None
  end.

(** The ids of the messages posted, oldest first. *)
Definition posted_ids (tr : list Effect) : list Z := omap posted tr.

(** The id of the promise an effect resolves or rejects. *)
Definition settled (e : Effect) : option Z :=
  match e with
  | Resolve i => Some i
  | Reject i _ => Some i
  | _ => None
  end.

(** The ids of the promises settled, oldest first. *)
Definition settled_ids (tr : list Effect) : list Z := omap settled tr.

(** A call that asks the pool for a worker. *)
Definition is_request (ev : Event) : Prop :=
  match ev with
  | CallFromUrl _ _ _ _ | CallFromBuffer _ _ _ _ | CallSelectWorker => True
  | WorkerMessage _ | CallDestroy => False
  end.

(** What the trace and the table of a loader have in common in every
    state it can reach. *)
Definition run_invariant (st : State) : Prop :=
  invariant st /\
  1 <= nextPendingTextureId st /\
  posted_ids (trace st) = seqZ 1 (nextPendingTextureId st - 1) /\
  NoDup (settled_ids (trace st)) /\
  (forall i : Z, i ∈ settled_ids (trace st) ->
     pendingTextures st !! i = None /\ 1 <= i < nextPendingTextureId st) /\
  (forall i : Z, is_Some (pendingTextures st !! i) -> 1 <= i).

End PoolRun.

(** ** Reading a slice *)

Module SliceView.

Import TextureData.

(** The bytes a slice stands for: [byteLength] bytes of its buffer from
    [byteOffset] on, as [new Uint8Array(buffer, byteOffset, byteLength)]
    shows them. *)
Definition slice_bytes (s : Slice) : list Z :=
  take (Z.to_nat (byteLength s)) (drop (Z.to_nat (byteOffset s)) (buffer s)).

(** The bytes of the data handed to [setSlice]. *)
Definition source_bytes (t : BufferSource) : list Z :=
  match t with
  | ArrayBuffer bytes => bytes
  | ArrayBufferView bytes viewOffset viewLength =>
      take (Z.to_nat viewLength) (drop (Z.to_nat viewOffset) bytes)
  end.

(** A typed array lies inside its buffer. *)
Definition well_formed (t : BufferSource) : Prop :=
  match t with
  | ArrayBuffer _ => True
  | ArrayBufferView bytes viewOffset viewLength =>
      0 <= viewOffset /\ 0 <= viewLength /\
      viewOffset + viewLength <= Z.of_nat (length bytes)
  end.

End SliceView.

(** ** The formats a client supports *)

Module ClientFormats.

(** The list [uncompressedFormatList] of the client [j]. *)
Definition uncompressedFormatList : list string :=
  ["rgba8unorm"; "rgba8unorm-srgb"; "bgra8unorm"; "bgra8unorm-srgb"].

(** The one entry of the table [O] ([EXTENSION_FORMATS]), under the key
    ["texture-compression-bc"]. *)
Definition BC_FORMATS : list string :=
  ["bc1-rgba-unorm"; "bc1-rgba-unorm-srgb"; "bc2-rgba-unorm"; "bc2-rgba-unorm-srgb";
   "bc3-rgba-unorm"; "bc3-rgba-unorm-srgb"; "bc7-rgba-unorm"; "bc7-rgba-unorm-srgb"].

(** The list [supportedFormatList] the constructor builds from
    [device.features], a set of feature names or [undefined]:
    [if (t) for (let r in O) if (t.has(r)) this.supportedFormatList.push(...O[r])]. *)
Definition supportedFormatList (features : option (gset string)) : list string :=
  uncompressedFormatList ++
  match features with
  | Some t => if decide ("texture-compression-bc" ∈ t) then BC_FORMATS else []
  | None => []
  end.

(** [supportedFormats()]. *)
Definition supportedFormats (allowCompressedFormats : bool)
    (features : option (gset string)) : list string :=
  if allowCompressedFormats then supportedFormatList features
  else uncompressedFormatList.

(** Whether the device has the BC feature and the client may use
    it. *)
Definition uses_bc (allowCompressedFormats : bool) (features : option (gset string))
  : bool :=
  allowCompressedFormats &&
  match features with
  | Some t => bool_decide ("texture-compression-bc" ∈ t)
  | None => false
  end.

End ClientFormats.

(** ** The Basis worker: transcoding a file *)

Module BasisTranscode.

Import BasisWorker.

(** What [transcode] reads of the [BasisFile] of the transcoder, for the
    image [IMAGE_INDEX = 0]: counts and sizes are unsigned. *)
Record BasisFile : Type := {
  getNumImages : N;
  getHasAlpha : bool;
  getNumLevels : N;
  startTranscoding : bool;
  getImageTranscodedSizeInBytes : Z -> BasisFormat -> N;
  getImageWidth : Z -> N;
  getImageHeight : Z -> N;
  transcodeImage : Z -> BasisFormat -> bool;
}.

(** An entry of [mipLevels]. *)
Record MipLevel : Type := {
  level : Z;
  offset : Z;
  size : Z;
  width : Z;
  height : Z;
}.

(** What the worker posts, or [Uncaught] when it throws before it
    posts: nothing is posted then, and the file stays open. *)
Inductive Posted : Type :=
| Failed (id : Z) (error : string)
| Transcoded (id : Z) (byteLength : Z) (fmt : string) (mipLevels : list MipLevel)
| Uncaught.

(** The loop that gathers the levels:
    [for (let mipLevel = 0; mipLevel < levels; ++mipLevel) { ...;
       mipLevels.push({level: mipLevel, offset: totalTranscodeSize, ...});
       totalTranscodeSize += transcodeSize }]. *)
Fixpoint gather (file : BasisFile) (basisFormat : BasisFormat) (n : nat) (mipLevel : Z)
    (mipLevels : list MipLevel) (totalTranscodeSize : Z) : list MipLevel * Z :=
  match n with
  | O => (mipLevels, totalTranscodeSize)
  | S n' =>
      let transcodeSize :=
        Z.of_N (getImageTranscodedSizeInBytes file mipLevel basisFormat) in
      gather file basisFormat n' (mipLevel + 1)
        (mipLevels ++
         [{| level := mipLevel;
             offset := totalTranscodeSize;
             size := transcodeSize;
             width := Z.of_N (getImageWidth file mipLevel);
             height := Z.of_N (getImageHeight file mipLevel) |}])
        (totalTranscodeSize + transcodeSize)
  end.

(** The number of levels that [transcode] gathers. *)
Definition levelCount (basisFile : BasisFile) (wttFormat : WttFormat) (mipmaps : bool) : nat :=
  if uncompressed wttFormat || negb mipmaps then 1%nat
  else N.to_nat (getNumLevels basisFile).

(** [transcode(id, arrayBuffer, supportedFormats, mipmaps)] on the file
    the buffer holds, in an engine whose longest array has
    [maxByteLength] bytes: [new Uint8Array(totalTranscodeSize)] throws
    a RangeError for a longer one, and no handler catches it. *)
Definition transcode (maxByteLength : Z) (id : Z) (basisFile : BasisFile)
    (supportedFormats : BasisFormat -> bool) (mipmaps : bool) : Posted :=
  if N.eqb (getNumImages basisFile) 0 || N.eqb (getNumLevels basisFile) 0
  then Failed id "Invalid Basis data"
  else if negb (startTranscoding basisFile)
  then Failed id "startTranscoding failed"
  else
    let basisFormat := select (getHasAlpha basisFile) supportedFormats in
    match WTT_FORMAT_MAP basisFormat with
    | None => Uncaught
    | Some wttFormat =>
        let levels := levelCount basisFile wttFormat mipmaps in
        let '(mipLevels, totalTranscodeSize) :=
          gather basisFile basisFormat levels 0 [] 0 in
        if Js.allocates maxByteLength totalTranscodeSize
        then
          if forallb (fun l => transcodeImage basisFile (level l) basisFormat) mipLevels
          then Transcoded id totalTranscodeSize (format wttFormat) mipLevels
          else Failed id "transcodeImage failed"
        else Uncaught
    end.

(** The bytes that the levels [mipLevel], ..., [mipLevel + n - 1] of
    the file take in the format. *)
Fixpoint needed (file : BasisFile) (basisFormat : BasisFormat) (n : nat) (mipLevel : Z)
  : Z :=
  match n with
  | O => 0
  | S n' =>
      Z.of_N (getImageTranscodedSizeInBytes file mipLevel basisFormat)
      + needed file basisFormat n' (mipLevel + 1)
  end.

(** The bytes that a list of levels takes. *)
Definition total_size (l : list MipLevel) : Z :=
  foldr (fun lv acc => size lv + acc) 0 l.

(** The levels are numbered from 0 and packed one after the other. *)
Definition packed (l : list MipLevel) : Prop :=
  forall (k : nat) (lv : MipLevel),
    l !! k = Some lv ->
    level lv = Z.of_nat k /\ offset lv = total_size (take k l) /\ 0 <= size lv.

End BasisTranscode.

(** ** Uploading texture data: the calls of [fromTextureData] *)

Module Upload.

Import Gpu TextureData Client.

(** The elements of an array that may have holes. *)
Definition present {A : Type} (a : list (option A)) : list A := omap id a.

(** The block layout [o] that [fromTextureData] uses for a format. *)
Definition blockInfo (r : FormatInfo) : BlockInfo :=
  default {| blockBytes := 4; blockWidth := 1; blockHeight := 1 |} (compressed r).

(** Whether [fromTextureData] generates mipmaps: [s]. *)
Definition generates (t : OptionsArg) (r : FormatInfo) : bool :=
  arg_mipmaps t && canGenerateMipmaps r.

(** The number of mip levels: [i]. *)
Definition levelNumber (e : WebTextureData) (t : OptionsArg) (r : FormatInfo) : Js.number :=
  if decide (1 < Z.of_nat (length (levels e))) then Js.Int (Z.of_nat (length (levels e)))
  else if generates t r then calculateMipLevels (data_width e) (data_height e)
  else Js.Int 1.

(** [i] as the integer it is when a texture is created; when [i] is no
    integer [fromTextureData] throws before it uses it. *)
Definition levelCount (e : WebTextureData) (t : OptionsArg) (r : FormatInfo) : Z :=
  match levelNumber e t r with
  | Js.Int i => i
  | _ => 1
  end.

(** The descriptor [l] of the texture. *)
Definition descriptor (e : WebTextureData) (t : OptionsArg) (r : FormatInfo)
  : TextureDescriptor :=
  {| size := {| Gpu.width :=
                  Js.ceil_div (data_width e) (blockWidth (blockInfo r))
                  * blockWidth (blockInfo r);
                Gpu.height :=
                  Js.ceil_div (data_height e) (blockHeight (blockInfo r))
                  * blockHeight (blockInfo r);
                depthOrArrayLayers := None |};
     Gpu.format := resolveFormat (data_format e) (arg_colorSpace t);
     usage := Z.lor TEXTURE_BINDING COPY_DST;
     mipLevelCount := levelCount e t r;
     dimension := None |}.

(** The call that writes the slice [h] of the level [g]. *)
Definition sliceWrite (c : nat) (o : BlockInfo) (g : WebTextureLevelData) (h : Slice)
  : Call :=
  WriteTexture c (levelIndex g) None (buffer h) (byteOffset h)
    (Js.ceil_div (level_width g) (blockWidth o) * blockBytes o)
    {| Gpu.width := Js.ceil_div (level_width g) (blockWidth o) * blockWidth o;
       Gpu.height := Js.ceil_div (level_height g) (blockHeight o) * blockHeight o;
       depthOrArrayLayers := None |}.

Definition levelWrites (c : nat) (o : BlockInfo) (g : WebTextureLevelData) : list Call :=
  map (sliceWrite c o g) (present (slices g)).

Definition levelsWrites (c : nat) (o : BlockInfo) (gs : list WebTextureLevelData)
  : list Call :=
  flat_map (levelWrites c o) gs.

(** A level without holes among its slices, and data without holes
    among its levels and their slices. *)
Definition full (g : WebTextureLevelData) : Prop := Forall is_Some (slices g).

Definition complete (e : WebTextureData) : Prop :=
  Forall is_Some (levels e) /\ Forall full (present (levels e)).

(** The result [fromTextureData] returns for the texture [c]. *)
Definition result (c : nat) (e : WebTextureData) (t : OptionsArg) (r : FormatInfo)
  : WebTextureResult :=
  {| texture := c;
     Client.width := Js.or_num (Some (data_width e)) 1;
     Client.height := Js.or_num (Some (data_height e)) 1;
     depth := 1;
     mipLevels := Js.or_num (Some (levelCount e t r)) 1;
     Client.format := if decide (data_format e = "") then "rgba8unorm" else data_format e;
     type := "2d" |}.

Definition is_write (x : Call) : bool :=
  match x with
  | WriteTexture _ _ _ _ _ _ _ => true
  | _ => false
  end.

Definition is_destroy (x : Call) : bool :=
  match x with
  | DestroyTexture _ => true
  | _ => false
  end.

End Upload.

(** ** The pipeline cache of the mipmap generator *)

Module PipelineCache.

Import Gpu MipmapGenerator.

(** The calls that build a pipeline. *)
Definition is_setup (x : Call) : bool :=
  match x with
  | CreateShaderModule | CreateRenderPipeline _ _ => true
  | _ => false
  end.

(** A call that names no pipeline but [r]. *)
Definition uses (r : nat) (x : Call) : Prop :=
  match x with
  | RenderPass p _ _ | CreateRenderPipeline p _ => p = r
  | _ => True
  end.

(** The render passes among some calls, in order. *)
Definition passes (l : list Call) : list Call := List.filter is_render_pass l.

(** The passes that fill the levels 1 to [n - 1] of the layer [c] of
    the texture [e], each from the level before it. *)
Definition levelPasses (r e : nat) (n : Z) (c : Z) : list Call :=
  map (fun k => RenderPass r (view e k c) (view e (k - 1) c)) (seqZ 1 (n - 1)).

End PipelineCache.

(** ** Noise textures *)

Module Noise.

Import Gpu TextureData Client WebTextureTool.

(** The array [new Uint8Array(e * t * 4)] once every element is set to
    [Math.random() * 255]; [random o] is what the call of
    [Math.random] for the element [o] returns. *)
Definition noiseBytes (random : nat -> float) (e t : Z) : list Z :=
  map (fun o => Js.ToUint8 (random o * 255)%float) (seq 0 (Z.to_nat (e * t * 4))).

Definition noise_RangeError : string := "RangeError: Invalid typed array length".

(** [fromNoise(e, t)] for integers [e] and [t], in an engine whose
    longest array has [maxByteLength] bytes: the array is allocated
    first, and a length the engine refuses makes the call throw before
    anything else happens. *)
Definition fromNoise (maxByteLength : Z) (this : WebTextureTool) (e t : Z)
    (random : nat -> float) : M WebTextureResult :=
  match client this with
  | None => throw "Cannot create new textures after object has been destroyed."
  | Some cl =>
      if Js.allocates maxByteLength (e * t * 4)
      then
        let r := noiseBytes random e t in
        let* data := lift (newTextureData "rgba8unorm" e t
                             (Some (ArrayBufferView r 0 (Z.of_nat (length r))))
                             no_slice_options) in
        fromTextureData cl data NoOptions
      else throw noise_RangeError
  end.

(** The texture of [fromNoise] and the region it writes. *)
Definition noiseDescriptor (e t : Z) : TextureDescriptor :=
  {| size := {| Gpu.width := Z.max 1 e; Gpu.height := Z.max 1 t;
                depthOrArrayLayers := None |};
     Gpu.format := "rgba8unorm";
     usage := Z.lor TEXTURE_BINDING COPY_DST;
     mipLevelCount := 1;
     dimension := None |}.

End Noise.
(** * Properties *)

(** ** JavaScript helpers *)

Lemma indexOf_from_lower (l : list string) (x : string) (i : Z) :
  Js.indexOf_from i l x = -1 \/ i <= Js.indexOf_from i l x.
Proof.
  revert i. induction l as [|y l IH]; intros i; simpl.
  - now left.
  - destruct (decide (y = x)).
    + right. lia.
    + destruct (IH (i + 1)) as [H|H]; [now left | right; lia].
Qed.

Lemma indexOf_from_absent (l : list string) (x : string) (i : Z) :
  0 <= i -> (Js.indexOf_from i l x = -1 <-> x ∉ l).
Proof.
  revert i. induction l as [|y l IH]; intros i Hi; simpl.
  - split; [intros _; apply not_elem_of_nil | reflexivity].
  - destruct (decide (y = x)) as [->|Hne].
    + split; [lia | intros H; exfalso; apply H; constructor].
    + rewrite IH by lia. rewrite not_elem_of_cons. split; [intros H; split; [congruence | exact H] | intros [_ H]; exact H].
Qed.

Lemma indexOf_absent (l : list string) (x : string) :
  Js.indexOf l x = -1 <-> x ∉ l.
Proof. apply indexOf_from_absent. lia. Qed.

(** C1: format negotiation of browser-image loads returns the requested
    format [F] unchanged when the device's supported list contains it,
    and the baseline ["rgba8unorm"] when it does not. *)
Theorem negotiate_supported_or_baseline (S : list string) (F : string) :
  (F ∈ S -> ImageLoader.negotiate S (Some F) = Some F) /\
  (F ∉ S -> ImageLoader.negotiate S (Some F) = Some "rgba8unorm").
Proof.
  unfold ImageLoader.negotiate; simpl. split; intros HF.
  - destruct (decide (Js.indexOf S F = -1)) as [Hi|Hi]; [|reflexivity].
    apply indexOf_absent in Hi. contradiction.
  - destruct (decide (Js.indexOf S F = -1)) as [Hi|Hi]; [reflexivity|].
    exfalso. apply Hi. now apply indexOf_absent.
Qed.

Lemma negotiate_supported_or_baseline_witness :
  ImageLoader.negotiate ["rgba8unorm"; "bgra8unorm"] (Some "bgra8unorm") = Some "bgra8unorm" /\
  ImageLoader.negotiate ["rgba8unorm"; "bgra8unorm"] (Some "rgb8unorm") = Some "rgba8unorm".
Proof.
  destruct (negotiate_supported_or_baseline ["rgba8unorm"; "bgra8unorm"] "bgra8unorm") as [H1 _].
  destruct (negotiate_supported_or_baseline ["rgba8unorm"; "bgra8unorm"] "rgb8unorm") as [_ H2].
  split.
  - apply H1. apply (bool_decide_unpack _). reflexivity.
  - apply H2. apply (bool_decide_unpack _). reflexivity.
Defined.

(** A JPEG is asked for as ["rgb8unorm"], which the WebGPU client does
    not list: it is loaded as ["rgba8unorm"]. *)
Example fromUrl_jpeg_baseline :
  ImageLoader.fromUrl_format
    ["rgba8unorm"; "rgba8unorm-srgb"; "bgra8unorm"; "bgra8unorm-srgb"] "image/jpeg"
  = Some "rgba8unorm".
Proof. reflexivity. Qed.

(** ** Full mip chain length *)

Section MipLevels.

Import Js.

Lemma ceil_div_multiple (a b : Z) :
  0 < b ->
  a <= Js.ceil_div a b * b < a + b /\ (Js.ceil_div a b * b) mod b = 0.
Proof.
  intros Hb. unfold Js.ceil_div.
  pose proof (Z.div_mod (- a) b ltac:(lia)) as Hdm.
  pose proof (Z.mod_pos_bound (- a) b Hb) as Hr.
  split; [nia|]. apply Z.mod_mul. lia.
Qed.

Lemma pow_double (a K : Z) : 0 <= K -> a ^ (2 * K) = (a * a) ^ K.
Proof.
  intros HK. replace (2 * K) with (K + K) by lia.
  now rewrite Z.pow_add_r, Z.pow_mul_l by lia.
Qed.

(** One squaring keeps a lower bound a lower bound: with [a / P] below
    the [2K]-th root of [Y / X], the square rounded down is below the
    [K]-th root. *)
Lemma square_down_bound (P X Y a K : Z) :
  0 < P -> 0 <= X -> 0 <= a -> 0 <= K ->
  a ^ (2 * K) * X <= P ^ (2 * K) * Y ->
  forall b : Z, 0 <= b -> b * P <= a * a -> b ^ K * X <= P ^ K * Y.
Proof.
  intros HP HX Ha HK Hinv b Hb Hle.
  rewrite !pow_double in Hinv by lia.
  assert ((b * P) ^ K <= (a * a) ^ K) as Hpow by (apply Z.pow_le_mono_l; nia).
  rewrite !Z.pow_mul_l in Hpow, Hinv.
  assert (0 < P ^ K) as HPK by (apply Z.pow_pos_nonneg; lia).
  assert (0 <= b ^ K) by (apply Z.pow_nonneg; lia).
  assert (0 <= a ^ K) by (apply Z.pow_nonneg; lia).
  apply (Z.mul_le_mono_pos_l _ _ (P ^ K) HPK). nia.
Qed.

Lemma square_up_bound (P X Y a K : Z) :
  0 < P -> 0 <= X -> 0 <= a -> 0 <= K ->
  P ^ (2 * K) * Y <= a ^ (2 * K) * X ->
  forall b : Z, 0 <= b -> a * a <= b * P -> P ^ K * Y <= b ^ K * X.
Proof.
  intros HP HX Ha HK Hinv b Hb Hle.
  rewrite !pow_double in Hinv by lia.
  assert ((a * a) ^ K <= (b * P) ^ K) as Hpow by (apply Z.pow_le_mono_l; nia).
  rewrite !Z.pow_mul_l in Hpow, Hinv.
  assert (0 < P ^ K) as HPK by (apply Z.pow_pos_nonneg; lia).
  assert (0 <= b ^ K) by (apply Z.pow_nonneg; lia).
  assert (0 <= a ^ K) by (apply Z.pow_nonneg; lia).
  apply (Z.mul_le_mono_pos_l _ _ (P ^ K) HPK). nia.
Qed.


Lemma scale_pos : 0 < scale.
Proof. reflexivity. Qed.

Lemma square_down_facts (a : Z) :
  0 <= a -> 0 <= square_down a /\ square_down a * scale <= a * a.
Proof.
  intros Ha. unfold square_down. pose proof scale_pos as HP.
  assert (0 <= a * a / scale) by (apply Z.div_pos; nia).
  assert (scale * (a * a / scale) <= a * a) by (apply Z.mul_div_le; lia).
  split; [lia | nia].
Qed.

Lemma square_up_facts (a : Z) :
  0 <= a ->
  0 <= square_up a /\
  (4 * scale <= a -> 4 * scale <= square_up a) /\
  (4 * scale <= square_up a \/ a * a <= square_up a * scale).
Proof.
  intros Ha. unfold square_up. pose proof scale_pos as HP.
  destruct (ceil_div_multiple (a * a) scale HP) as [[Hlo _] _].
  assert (0 <= ceil_div (a * a) scale) by nia.
  split; [lia|]. split; [intros Hbig; nia|].
  destruct (Z.min_spec (ceil_div (a * a) scale) (4 * scale)) as [[_ ->] | [_ ->]];
    [right; exact Hlo | left; lia].
Qed.

Lemma iter_down_bound (X Y : Z) (n : nat) :
  0 <= X ->
  forall a : Z,
    0 <= a ->
    a ^ 2 ^ Z.of_nat n * X <= scale ^ 2 ^ Z.of_nat n * Y ->
    0 <= Nat.iter n square_down a /\ Nat.iter n square_down a * X <= scale * Y.
Proof.
  intros HX. induction n as [|n IH]; intros a Ha Hinv.
  - cbn [Nat.iter]. change (2 ^ Z.of_nat 0) with 1 in Hinv.
    rewrite !Z.pow_1_r in Hinv. auto.
  - rewrite Nat.iter_succ_r.
    destruct (square_down_facts a Ha) as [Hb Hle].
    apply IH; [exact Hb|].
    rewrite Nat2Z.inj_succ, Z.pow_succ_r in Hinv by lia.
    apply (square_down_bound scale X Y a); try assumption;
      [apply scale_pos | apply Z.pow_nonneg; lia].
Qed.

Lemma iter_up_bound (X Y : Z) (n : nat) :
  0 <= X ->
  forall a : Z,
    0 <= a ->
    4 * scale <= a \/ scale ^ 2 ^ Z.of_nat n * Y <= a ^ 2 ^ Z.of_nat n * X ->
    0 <= Nat.iter n square_up a /\
    (4 * scale <= Nat.iter n square_up a \/ scale * Y <= Nat.iter n square_up a * X).
Proof.
  intros HX. induction n as [|n IH]; intros a Ha Hinv.
  - cbn [Nat.iter]. change (2 ^ Z.of_nat 0) with 1 in Hinv.
    rewrite !Z.pow_1_r in Hinv. auto.
  - rewrite Nat.iter_succ_r.
    destruct (square_up_facts a Ha) as (Hb & Hbig & Hle).
    apply IH; [exact Hb|].
    destruct Hinv as [Hinv|Hinv]; [left; auto|].
    destruct Hle as [Hle|Hle]; [left; exact Hle|right].
    rewrite Nat2Z.inj_succ, Z.pow_succ_r in Hinv by lia.
    apply (square_up_bound scale X Y a); try assumption;
      [apply scale_pos | apply Z.pow_nonneg; lia].
Qed.

(** [log2_rounds_up] decides whether the logarithm of [x] is within
    half a step of the doubles of the next integer [v]:
    [v - 2^(-m) <= log2 x], that is [2^(2^m v - 1) <= x^(2^m)]. *)
Lemma log2_rounds_up_spec (x : Z) :
  1 <= x ->
  0 <= 53 - Z.log2 (Z.log2 x + 1 - 1) ->
  log2_rounds_up x = true
  <-> 2 ^ (2 ^ (53 - Z.log2 (Z.log2 x + 1 - 1)) * (Z.log2 x + 1) - 1)
      <= x ^ 2 ^ (53 - Z.log2 (Z.log2 x + 1 - 1)).
Proof.
  intros Hx Hm. unfold log2_rounds_up. cbv zeta.
  set (v := Z.log2 x + 1) in *. set (m := 53 - Z.log2 (v - 1)) in *.
  assert (1 <= v) as Hv by (pose proof (Z.log2_nonneg x); lia).
  assert (0 < 2 ^ m) as HN by (apply Z.pow_pos_nonneg; lia).
  assert (0 < 2 ^ v) as HR by (apply Z.pow_pos_nonneg; lia).
  pose proof scale_pos as HP.
  assert (0 < x ^ 2 ^ m) as HX by (apply Z.pow_pos_nonneg; lia).
  assert (2 ^ (2 ^ m * v) = (2 ^ v) ^ 2 ^ m) as HY
    by (rewrite (Z.mul_comm (2 ^ m) v); apply Z.pow_mul_r; lia).
  assert (2 ^ (2 ^ m * v) = 2 * 2 ^ (2 ^ m * v - 1)) as Hhalf.
  { rewrite <- Z.pow_succ_r by nia. f_equal. lia. }
  generalize dependent (2 ^ (2 ^ m * v - 1)). intros half Hhalf.
  generalize dependent (2 ^ (2 ^ m * v)). intros Y HY Hhalf.
  destruct (iter_down_bound (x ^ 2 ^ m) Y (Z.to_nat m) ltac:(lia)
              (2 ^ v * scale / x)) as [Hlo0 Hlo].
  { apply Z.div_pos; nia. }
  { rewrite Z2Nat.id by lia. subst Y. rewrite <- !Z.pow_mul_l.
    apply Z.pow_le_mono_l. split.
    - assert (0 <= 2 ^ v * scale / x) by (apply Z.div_pos; nia). nia.
    - rewrite (Z.mul_comm scale). rewrite (Z.mul_comm _ x). apply Z.mul_div_le. lia. }
  destruct (iter_up_bound (x ^ 2 ^ m) Y (Z.to_nat m) ltac:(lia)
              (ceil_div (2 ^ v * scale) x)) as [Hhi0 Hhi].
  { destruct (ceil_div_multiple (2 ^ v * scale) x ltac:(lia)) as [[H1 _] _]. nia. }
  { right. rewrite Z2Nat.id by lia. subst Y. rewrite <- !Z.pow_mul_l.
    apply Z.pow_le_mono_l. split; [nia|].
    destruct (ceil_div_multiple (2 ^ v * scale) x ltac:(lia)) as [[H1 _] _]. lia. }
  generalize dependent (Nat.iter (Z.to_nat m) square_down (2 ^ v * scale / x)).
  intros lo Hlo0 Hlo.
  generalize dependent (Nat.iter (Z.to_nat m) square_up (ceil_div (2 ^ v * scale) x)).
  intros hi Hhi0 Hhi.
  generalize dependent (x ^ 2 ^ m). intros X HX Hlo Hhi.
  destruct (Z.leb_spec hi (2 * scale)) as [Hle|Hgt].
  - split; [intros _ | reflexivity].
    destruct Hhi as [Hbig|Hhi]; [lia | nia].
  - destruct (Z.ltb_spec (2 * scale) lo) as [Hlt|Hge].
    + split; [discriminate | intros Hc; exfalso; nia].
    + apply Z.leb_le.
Qed.

Lemma bernoulli_up (a N : Z) :
  0 <= a -> 0 <= N -> a ^ N * (a + N) <= a * (a + 1) ^ N.
Proof.
  intros Ha HN. revert N HN. apply natlike_ind.
  - rewrite !Z.pow_0_r. lia.
  - intros N HN IH. rewrite !Z.pow_succ_r by lia.
    assert (0 <= a ^ N) by (apply Z.pow_nonneg; lia). nia.
Qed.

Lemma bernoulli_down (a N : Z) :
  1 <= a -> 0 <= N -> a ^ N * (a - N) <= a * (a - 1) ^ N.
Proof.
  intros Ha HN. revert N HN. apply natlike_ind.
  - rewrite !Z.pow_0_r. lia.
  - intros N HN IH. rewrite !Z.pow_succ_r by lia.
    assert (0 <= a ^ N) by (apply Z.pow_nonneg; lia). nia.
Qed.

(** [(1 - 1/b)^N < 1/2] once [b <= N]. *)
Lemma below_half (b N : Z) :
  1 <= b <= N -> 2 * (b - 1) ^ N < b ^ N.
Proof.
  intros [Hb HN].
  assert (0 < b ^ N) as HbN by (apply Z.pow_pos_nonneg; lia).
  destruct (decide (b = 1)) as [->|Hne].
  { rewrite Z.sub_diag, Z.pow_0_l by lia. lia. }
  assert (0 < (b - 1) ^ N) as Hdown by (apply Z.pow_pos_nonneg; lia).
  pose proof (bernoulli_up b N ltac:(lia) ltac:(lia)) as Hup.
  assert (((b - 1) * (b + 1)) ^ N < (b * b) ^ N) as Hsq
    by (apply Z.pow_lt_mono_l; nia).
  rewrite !Z.pow_mul_l in Hsq.
  generalize dependent ((b + 1) ^ N). intros U Hup Hsq.
  generalize dependent ((b - 1) ^ N). intros D Hdown Hsq.
  generalize dependent (b ^ N). intros B HbN Hup Hsq.
  assert (D * (B * (b + N)) < b * (B * B)) by nia.
  assert (D * (b + N) < b * B) by nia.
  nia.
Qed.


(** Below half a step of the next integer the logarithm rounds down:
    this is so for [x < 2^v] with [2^v <= 2^m], and for
    [x <= 2^v - 2] with [2^v = 2 * 2^m]. *)
Lemma criterion_fails (x v m : Z) :
  1 <= x -> 1 <= v -> 0 <= m -> x < 2 ^ v ->
  v <= m \/ (v = m + 1 /\ x <= 2 ^ v - 2) ->
  x ^ 2 ^ m < 2 ^ (2 ^ m * v - 1).
Proof.
  intros Hx Hv Hm Hlt Hcase.
  assert (0 < 2 ^ m) as HN by (apply Z.pow_pos_nonneg; lia).
  assert (2 ^ (2 ^ m * v) = (2 ^ v) ^ 2 ^ m) as HY
    by (rewrite (Z.mul_comm (2 ^ m) v); apply Z.pow_mul_r; lia).
  assert (2 ^ (2 ^ m * v) = 2 * 2 ^ (2 ^ m * v - 1)) as Hhalf.
  { rewrite <- Z.pow_succ_r by nia. f_equal. lia. }
  destruct Hcase as [Hle | [-> Hx2]].
  - assert (2 ^ v <= 2 ^ m) as Hb by (apply Z.pow_le_mono_r; lia).
    pose proof (below_half (2 ^ v) (2 ^ m) ltac:(lia)) as Hbelow.
    assert (x ^ 2 ^ m <= (2 ^ v - 1) ^ 2 ^ m) by (apply Z.pow_le_mono_l; lia).
    lia.
  - replace (m + 1) with (Z.succ m) in * by lia.
    rewrite Z.pow_succ_r in Hx2, HY by lia.
    pose proof (below_half (2 ^ m) (2 ^ m) ltac:(lia)) as Hbelow.
    assert (x ^ 2 ^ m <= (2 * (2 ^ m - 1)) ^ 2 ^ m) by (apply Z.pow_le_mono_l; lia).
    rewrite !Z.pow_mul_l in *.
    assert (0 < 2 ^ 2 ^ m) by (apply Z.pow_pos_nonneg; lia).
    nia.
Qed.

(** Up to [2^49 - 2] the floor of the double is the floor of the
    logarithm. *)
Lemma floor_log2_exact (x : Z) :
  1 <= x <= 2 ^ 49 - 2 -> floor_log2 x = Z.log2 x.
Proof.
  intros Hx. unfold floor_log2.
  destruct (Z.log2_spec x ltac:(lia)) as [Hlo Hhi].
  pose proof (Z.log2_nonneg x) as Hk.
  assert (Z.log2 x < 49) as Hk49 by (apply Z.log2_lt_pow2; lia).
  set (v := Z.log2 x + 1) in *.
  assert (0 <= Z.log2 (v - 1) <= 5) as He.
  { split; [apply Z.log2_nonneg|].
    change 5 with (Z.log2 48). apply Z.log2_le_mono. lia. }
  assert (v <= 32 -> Z.log2 (v - 1) <= 4) as He32.
  { intros Hv. change 4 with (Z.log2 31). apply Z.log2_le_mono. lia. }
  assert (v = 49 -> Z.log2 (v - 1) = 5) as He49.
  { intros Hv. replace (v - 1) with 48 by lia. reflexivity. }
  destruct (log2_rounds_up x) eqn:Hup; [|reflexivity].
  apply log2_rounds_up_spec in Hup; [|lia|fold v; lia].
  fold v in Hup. replace (Z.succ (Z.log2 x)) with v in Hhi by (subst v; lia).
  assert (v = 49 -> 2 ^ v = 2 ^ 49) as Hv49 by (intros ->; reflexivity).
  assert (v <= 53 - Z.log2 (v - 1)
          \/ (v = 53 - Z.log2 (v - 1) + 1 /\ x <= 2 ^ v - 2)) as Hcase.
  { destruct (decide (v <= 32)) as [Hsmall|Hbig]; [left; specialize (He32 Hsmall); lia|].
    destruct (decide (v = 49)) as [Hv|Hv]; [|left; lia].
    right. rewrite (He49 Hv). split; [lia|]. rewrite (Hv49 Hv). lia. }
  pose proof (criterion_fails x v (53 - Z.log2 (v - 1)) ltac:(lia) ltac:(lia)
                ltac:(lia) Hhi Hcase) as Hfails.
  lia.
Qed.

(** C7: for sizes whose larger one is at least 1 and at most
    [2^49 - 2], the chain length [n] is the floor of the binary
    logarithm of the larger side plus one, that is the [n] with
    [2^(n-1) <= max width height < 2^n]; a 257 by 100 texture has 9
    levels. *)
Theorem calculateMipLevels_floor_log2 (width height : Z) :
  1 <= Z.max width height <= 2 ^ 49 - 2 ->
  calculateMipLevels width height = Js.Int (Z.log2 (Z.max width height) + 1) /\
  (exists n : Z,
      calculateMipLevels width height = Js.Int n /\
      2 ^ (n - 1) <= Z.max width height < 2 ^ n) /\
  calculateMipLevels 257 100 = Js.Int 9.
Proof.
  intros Hm.
  assert (calculateMipLevels width height = Js.Int (Z.log2 (Z.max width height) + 1))
    as Heq.
  { unfold calculateMipLevels. cbv zeta.
    destruct (Z.ltb_spec 0 (Z.max width height)) as [_|Hle]; [|lia].
    now rewrite (floor_log2_exact _ Hm). }
  split; [exact Heq|]. split; [|vm_compute; reflexivity].
  exists (Z.log2 (Z.max width height) + 1). split; [exact Heq|].
  replace (Z.log2 (Z.max width height) + 1 - 1) with (Z.log2 (Z.max width height)) by lia.
  replace (Z.log2 (Z.max width height) + 1) with (Z.succ (Z.log2 (Z.max width height))) by lia.
  apply Z.log2_spec. lia.
Qed.

Lemma calculateMipLevels_floor_log2_witness :
  calculateMipLevels 64 48 = Js.Int (Z.log2 (Z.max 64 48) + 1) /\
  (exists n : Z,
      calculateMipLevels 64 48 = Js.Int n /\ 2 ^ (n - 1) <= Z.max 64 48 < 2 ^ n) /\
  calculateMipLevels 257 100 = Js.Int 9.
Proof.
  apply (calculateMipLevels_floor_log2 64 48).
  vm_compute. split; discriminate.
Defined.

(** C7 as stated fails: the logarithm of [2^49 - 1] is nearer to the
    double 49 than to the double below it, so for a width of
    [2^49 - 1] the code counts 50 levels where the floor of the
    logarithm plus one is 49. *)
Lemma calculateMipLevels_rounds_up :
  0 < 2 ^ 49 - 1 /\ 0 < 1 /\
  calculateMipLevels (2 ^ 49 - 1) 1 = Js.Int 50 /\
  Z.log2 (Z.max (2 ^ 49 - 1) 1) + 1 = 49 /\
  calculateMipLevels (2 ^ 49 - 1) 1 <> Js.Int (Z.log2 (Z.max (2 ^ 49 - 1) 1) + 1).
Proof.
  split; [reflexivity|]. split; [reflexivity|].
  split; [vm_compute; reflexivity|]. split; [reflexivity|].
  vm_compute. discriminate.
Qed.

End MipLevels.

(** ** The worker pool *)

Section WorkerPool.

Import WorkerLoader.

Lemma selectWorker_cases (st : State) :
  let size := Z.of_nat (length (workerPool st)) in
  (size <= outstandingRequests st + 1 /\ size < MAX_WORKER_POOL_SIZE /\
   selectWorker st =
     (Some (length (workerPool st)),
      {| pendingTextures := pendingTextures st;
         nextPendingTextureId := nextPendingTextureId st;
         workerPool := workerPool st ++ [length (workerPool st)];
         nextWorker := nextWorker st;
         outstandingRequests := outstandingRequests st + 1;
         worker := worker st;
         trace := trace st ++ [NewWorker (length (workerPool st))] |})) \/
  (~ (size <= outstandingRequests st + 1 /\ size < MAX_WORKER_POOL_SIZE) /\
   selectWorker st =
     (array_get (workerPool st) (Z.rem (nextWorker st) size),
      {| pendingTextures := pendingTextures st;
         nextPendingTextureId := nextPendingTextureId st;
         workerPool := workerPool st;
         nextWorker := nextWorker st + 1;
         outstandingRequests := outstandingRequests st + 1;
         worker := worker st;
         trace := trace st |})).
Proof.
  intros size. unfold selectWorker. cbn [workerPool outstandingRequests].
  fold size.
  destruct (bool_decide (size <= outstandingRequests st + 1)) eqn:H1;
    destruct (bool_decide (size < MAX_WORKER_POOL_SIZE)) eqn:H2; cbn [andb].
  - left. apply bool_decide_eq_true in H1, H2. auto.
  - right. apply bool_decide_eq_false in H2. split; [tauto | reflexivity].
  - right. apply bool_decide_eq_false in H1. split; [tauto | reflexivity].
  - right. apply bool_decide_eq_false in H1. split; [tauto | reflexivity].
Qed.

Lemma array_get_in_range {A : Type} (l : list A) (n : Z) :
  0 <= n -> (1 <= length l)%nat ->
  array_get l (Z.rem n (Z.of_nat (length l)))
    = l !! Z.to_nat (n mod Z.of_nat (length l)) /\
  is_Some (array_get l (Z.rem n (Z.of_nat (length l)))).
Proof.
  intros Hn Hl. unfold array_get.
  rewrite Z.rem_mod_nonneg by lia.
  assert (0 <= n mod Z.of_nat (length l) < Z.of_nat (length l)) as Hm
    by (apply Z.mod_pos_bound; lia).
  destruct (decide (0 <= n mod Z.of_nat (length l))) as [_|Hneg]; [|lia].
  split; [reflexivity|]. apply lookup_lt_is_Some. lia.
Qed.

Lemma invariant_constructor : invariant constructor.
Proof.
  unfold invariant, constructor; cbn. repeat split; try lia.
  intros i [x Hx]. rewrite lookup_empty in Hx. discriminate.
Qed.

Lemma invariant_selectWorker (st : State) :
  invariant st -> invariant (snd (selectWorker st)).
Proof.
  intros (Hlen & Hnext & Hw & Hfresh).
  unfold MAX_WORKER_POOL_SIZE in *.
  destruct (selectWorker_cases st) as [(H1 & H2 & ->)|(Hn & ->)];
    unfold invariant; cbn; try rewrite length_app; cbn.
  - unfold MAX_WORKER_POOL_SIZE in H2. repeat split; try lia; assumption.
  - repeat split; try lia; assumption.
Qed.

Lemma selectWorker_returns (st : State) :
  invariant st -> is_Some (fst (selectWorker st)).
Proof.
  intros (Hlen & Hnext & _).
  destruct (selectWorker_cases st) as [(_ & _ & ->)|(_ & ->)]; cbn.
  - eauto.
  - apply array_get_in_range; lia.
Qed.

Lemma selectWorker_keeps_table (st : State) :
  pendingTextures (snd (selectWorker st)) = pendingTextures st /\
  nextPendingTextureId (snd (selectWorker st)) = nextPendingTextureId st.
Proof.
  destruct (selectWorker_cases st) as [(_ & _ & ->)|(_ & ->)]; cbn; auto.
Qed.

Lemma dispatch_facts (cl : nat) (formats : list string) (src : Source) (r : Options)
    (st : State) :
  invariant st ->
  let o := nextPendingTextureId st in
  let st' := dispatch cl formats src r st in
  invariant st' /\
  pendingTextures st' = <[o := {| client := cl; options := r |}]> (pendingTextures st) /\
  nextPendingTextureId st' = o + 1 /\
  (length (workerPool st) <= length (workerPool st'))%nat /\
  exists (w : Worker) (pre : list Effect),
    (pre = [] \/ pre = [NewWorker w]) /\
    trace st' = trace st ++ pre ++
      [PostMessage w {| id := o; source := src; supportedFormats := formats;
                        req_mipmaps := mipmaps r; req_extension := extension r |};
       SetPending o].
Proof.
  intros (Hlen & Hnext & Hw & Hfresh) o st'. subst st'. unfold dispatch. fold o.
  match goal with |- context [selectWorker ?s] =>
    destruct (selectWorker_cases s) as [(H1 & H2 & Heq)|(Hn & Heq)];
    cbn [workerPool outstandingRequests nextWorker pendingTextures
         nextPendingTextureId worker trace] in Heq; rewrite Heq; clear Heq
  end.
  - cbn. unfold invariant; cbn. rewrite length_app; cbn.
    cbn in H2. unfold MAX_WORKER_POOL_SIZE in H2.
    repeat split; try lia; try assumption.
    + intros i Hi. destruct (decide (i = o)) as [->|Hne]; [lia|].
      rewrite lookup_insert_ne in Hi by congruence.
      specialize (Hfresh i Hi). fold o in Hfresh. lia.
    + exists (length (workerPool st)), [NewWorker (length (workerPool st))].
      split; [now right|]. now rewrite <- !app_assoc.
  - destruct (array_get_in_range (workerPool st) (nextWorker st)) as [_ [w Hget]];
      [lia | lia |].
    rewrite Hget. cbn. unfold invariant; cbn.
    repeat split; try lia; try assumption.
    + intros i Hi. destruct (decide (i = o)) as [->|Hne]; [lia|].
      rewrite lookup_insert_ne in Hi by congruence.
      specialize (Hfresh i Hi). fold o in Hfresh. lia.
    + exists w, []. split; [now left|]. now rewrite <- !app_assoc.
Qed.

Lemma onmessage_facts (a : Response) (st : State) :
  let st' := onmessage a st in
  workerPool st' = workerPool st /\
  nextWorker st' = nextWorker st /\
  worker st' = worker st /\
  nextPendingTextureId st' = nextPendingTextureId st /\
  (pendingTextures st' = pendingTextures st \/
   pendingTextures st' = delete (resp_id a) (pendingTextures st)).
Proof.
  unfold onmessage, onWorkerMessage.
  destruct (pendingTextures st !! resp_id a); [|cbn; tauto].
  destruct (truthy (error a)); [cbn; tauto|].
  destruct (materialized a); cbn; tauto.
Qed.

Lemma invariant_onmessage (a : Response) (st : State) :
  invariant st -> invariant (onmessage a st).
Proof.
  intros (Hlen & Hnext & Hw & Hfresh).
  destruct (onmessage_facts a st) as (Hp & Hn & Hwk & Hid & Htab).
  unfold invariant. rewrite Hp, Hn, Hwk, Hid.
  repeat split; try lia; try assumption.
  intros i Hi. apply Hfresh. destruct Htab as [Htab|Htab]; rewrite Htab in Hi.
  - exact Hi.
  - destruct (decide (resp_id a = i)) as [Heq|Hne].
    + rewrite Heq, lookup_delete_eq in Hi. destruct Hi as [x Hx]. discriminate.
    + now rewrite lookup_delete_ne in Hi.
Qed.

Lemma destroy_without_worker (st : State) :
  worker st = None -> destroy st = st.
Proof. intros Hw. unfold destroy. now rewrite Hw. Qed.

Lemma invariant_step (st : State) (ev : Event) :
  invariant st -> invariant (step st ev).
Proof.
  intros Hinv. destruct ev; cbn [step].
  - apply dispatch_facts, Hinv.
  - apply dispatch_facts, Hinv.
  - apply invariant_selectWorker, Hinv.
  - apply invariant_onmessage, Hinv.
  - rewrite destroy_without_worker; [exact Hinv | apply Hinv].
Qed.

Lemma invariant_run (evs : list Event) (st : State) :
  invariant st -> invariant (run evs st).
Proof.
  revert st. induction evs as [|ev evs IH]; intros st Hinv; cbn.
  - exact Hinv.
  - apply IH, invariant_step, Hinv.
Qed.

Lemma pool_grows_step (st : State) (ev : Event) :
  invariant st -> (length (workerPool st) <= length (workerPool (step st ev)))%nat.
Proof.
  intros Hinv. destruct ev; cbn [step].
  - apply dispatch_facts, Hinv.
  - apply dispatch_facts, Hinv.
  - destruct (selectWorker_cases st) as [(_ & _ & ->)|(_ & ->)]; cbn;
      [rewrite length_app|]; lia.
  - destruct (onmessage_facts a st) as (-> & _); lia.
  - rewrite destroy_without_worker; [lia | apply Hinv].
Qed.

(** C3: in every state a pool reaches, whatever was called on it
    before, the pool holds between 1 and 4 workers; [selectWorker]
    counts the request, creates a worker exactly when the counter, once
    incremented, has reached the size of the pool and the pool is below
    4, and otherwise returns the worker at the cursor modulo the size of
    the pool and advances the cursor; no step makes the pool smaller. *)
Theorem selectWorker_bounded_growth (evs : list Event) :
  let st := run evs constructor in
  let size := Z.of_nat (length (workerPool st)) in
  let grows := size <= outstandingRequests st + 1 /\ size < MAX_WORKER_POOL_SIZE in
  let w := fst (selectWorker st) in
  let st' := snd (selectWorker st) in
  1 <= size <= 4 /\
  Z.of_nat (length (workerPool st')) <= 4 /\
  outstandingRequests st' = outstandingRequests st + 1 /\
  (grows ->
     workerPool st' = workerPool st ++ [length (workerPool st)] /\
     w = Some (length (workerPool st)) /\
     nextWorker st' = nextWorker st /\
     trace st' = trace st ++ [NewWorker (length (workerPool st))]) /\
  (~ grows ->
     workerPool st' = workerPool st /\
     w = workerPool st !! Z.to_nat (nextWorker st mod size) /\
     is_Some w /\
     nextWorker st' = nextWorker st + 1 /\
     trace st' = trace st) /\
  (forall ev : Event, (length (workerPool st) <= length (workerPool (step st ev)))%nat).
Proof.
  intros st size grows w st'.
  assert (invariant st) as Hinv by apply invariant_run, invariant_constructor.
  assert (invariant st') as Hinv' by apply invariant_selectWorker, Hinv.
  pose proof Hinv as (Hlen & Hnext & _).
  split; [subst size; lia|].
  split; [destruct Hinv' as (Hlen' & _); lia|].
  subst w st' grows size.
  destruct (selectWorker_cases st) as [(H1 & H2 & ->)|(Hn & ->)]; cbn.
  - split; [reflexivity|]. split; [auto|]. split; [tauto|].
    intros ev. now apply pool_grows_step.
  - split; [reflexivity|]. split; [tauto|]. split.
    + intros _. destruct (array_get_in_range (workerPool st) (nextWorker st))
        as [Heq Hsome]; [lia | lia |]. auto.
    + intros ev. now apply pool_grows_step.
Qed.

Lemma selectWorker_bounded_growth_witness :
  fst (selectWorker constructor) = Some 1%nat /\
  fst (selectWorker (run [CallSelectWorker; CallSelectWorker; CallSelectWorker] constructor))
    = Some 0%nat.
Proof.
  split.
  - destruct (selectWorker_bounded_growth []) as (_ & _ & _ & Hgrow & _).
    destruct Hgrow as (_ & Hw & _).
    + split; vm_compute; [discriminate | reflexivity].
    + exact Hw.
  - destruct (selectWorker_bounded_growth
                [CallSelectWorker; CallSelectWorker; CallSelectWorker])
      as (_ & _ & _ & _ & Hkeep & _).
    destruct Hkeep as (_ & Hw & _).
    + intros [_ H]. vm_compute in H. discriminate.
    + exact Hw.
Defined.

Lemma pending_persists (i : Z) (p : PendingTextureRequest) (evs : list Event)
    (st : State) :
  invariant st ->
  pendingTextures st !! i = Some p ->
  Forall (fun ev => ~ responds_to i ev) evs ->
  pendingTextures (run evs st) !! i = Some p.
Proof.
  revert st. induction evs as [|ev evs IH]; intros st Hinv Hp Hall; cbn.
  - exact Hp.
  - apply Forall_cons in Hall as [Hev Hall].
    apply IH; [apply invariant_step, Hinv | | exact Hall].
    assert (i < nextPendingTextureId st) as Hlt by (apply Hinv; eauto).
    destruct ev as [cl formats url r|cl formats buffer r| |a|]; cbn [step].
    + destruct (dispatch_facts cl formats (SrcUrl url) r st Hinv) as (_ & Htab & _).
      unfold fromUrl. rewrite Htab, lookup_insert_ne by lia. exact Hp.
    + destruct (dispatch_facts cl formats (SrcBuffer buffer) r st Hinv) as (_ & Htab & _).
      unfold fromBuffer. rewrite Htab, lookup_insert_ne by lia. exact Hp.
    + destruct (selectWorker_keeps_table st) as [-> _]. exact Hp.
    + destruct (onmessage_facts a st) as (_ & _ & _ & _ & [Htab|Htab]); rewrite Htab.
      * exact Hp.
      * cbn in Hev. rewrite lookup_delete_ne by exact Hev. exact Hp.
    + rewrite destroy_without_worker; [exact Hp | apply Hinv].
Qed.

(** C2 (the code departs from the claim): in every state a pool
    reaches, [destroy] changes nothing, because the field [worker] it
    tests is never assigned: no worker is terminated, no pending request
    is rejected or removed, and a later [fromUrl] is dispatched as
    before. On a new pool with two requests pending the trace after
    [destroy] holds the two dispatches and nothing else. *)
Theorem destroy_does_nothing (evs : list Event) (cl : nat) (formats : list string)
    (url : string) (r : Options) :
  let st := run evs constructor in
  destroy st = st /\
  pendingTextures (destroy st) = pendingTextures st /\
  trace (destroy st) = trace st /\
  pendingTextures (fromUrl cl formats url r (destroy st)) !! nextPendingTextureId st
    = Some {| client := cl; options := r |} /\
  (exists (w : Worker) (m : Request),
      id m = nextPendingTextureId st /\
      PostMessage w m ∈ trace (fromUrl cl formats url r (destroy st))) /\
  size (pendingTextures
          (run [CallFromUrl 0 ["rgba8unorm"] "a.basis" sample_options;
                CallFromUrl 0 ["rgba8unorm"] "a.basis" sample_options;
                CallDestroy] constructor)) = 2%nat /\
  trace (run [CallFromUrl 0 ["rgba8unorm"] "a.basis" sample_options;
              CallFromUrl 0 ["rgba8unorm"] "a.basis" sample_options;
              CallDestroy] constructor)
    = [NewWorker 0%nat; NewWorker 1%nat; PostMessage 1%nat (sample_request 1);
       SetPending 1; NewWorker 2%nat; PostMessage 2%nat (sample_request 2);
       SetPending 2].
Proof.
  intros st.
  assert (invariant st) as Hinv by apply invariant_run, invariant_constructor.
  assert (destroy st = st) as Hd by (apply destroy_without_worker, Hinv).
  rewrite Hd. repeat (split; [reflexivity|]).
  destruct (dispatch_facts cl formats (SrcUrl url) r st Hinv)
    as (_ & Htab & _ & _ & w & pre & _ & Htr).
  unfold fromUrl. split; [|split; [|split]].
  - rewrite Htab. apply lookup_insert_eq.
  - eexists w, _. split; [|rewrite Htr; rewrite !elem_of_app; right; right; left].
    reflexivity.
  - vm_compute. reflexivity.
  - reflexivity.
Qed.

(** C6, as the code has it: a dispatch takes the next id, which is not
    in the table of pending requests, posts the message that carries it
    to the selected worker (created just before, or taken from the
    pool), and then, in the same call, stores the request under the id;
    the entry stays until a response to this id is handled, whatever
    else happens to the loader in between. *)
Theorem dispatch_posts_then_records (evs evs' : list Event) (cl : nat)
    (formats : list string) (src : Source) (r : Options) :
  let st := run evs constructor in
  let i := nextPendingTextureId st in
  let st' := dispatch cl formats src r st in
  pendingTextures st !! i = None /\
  nextPendingTextureId st' = i + 1 /\
  (exists (w : Worker) (pre : list Effect),
      (pre = [] \/ pre = [NewWorker w]) /\
      trace st' = trace st ++ pre ++
        [PostMessage w {| id := i; source := src; supportedFormats := formats;
                          req_mipmaps := mipmaps r; req_extension := extension r |};
         SetPending i]) /\
  pendingTextures st' !! i = Some {| client := cl; options := r |} /\
  (Forall (fun ev => ~ responds_to i ev) evs' ->
   pendingTextures (run evs' st') !! i = Some {| client := cl; options := r |}).
Proof.
  intros st i st'.
  assert (invariant st) as Hinv by apply invariant_run, invariant_constructor.
  destruct (dispatch_facts cl formats src r st Hinv) as (Hinv' & Htab & Hid & _ & Htr).
  fold i st' in Hinv', Htab, Hid, Htr.
  assert (pendingTextures st' !! i = Some {| client := cl; options := r |}) as Hi
    by (rewrite Htab; apply lookup_insert_eq).
  split.
  - destruct (pendingTextures st !! i) eqn:Hold; [|reflexivity].
    destruct Hinv as (_ & _ & _ & Hfresh).
    specialize (Hfresh i). rewrite Hold in Hfresh. fold i in Hfresh.
    assert (i < i) by eauto. lia.
  - repeat split; try assumption.
    intros Hall. now apply pending_persists.
Qed.

Lemma dispatch_posts_then_records_witness :
  pendingTextures
    (run [WorkerMessage {| resp_id := 7; error := None; materialized := true |};
          CallFromUrl 0 [] "b.basis" sample_options; CallDestroy]
       (dispatch 0 ["rgba8unorm"] (SrcUrl "a.basis") sample_options constructor)) !! 1
  = Some {| client := 0%nat; options := sample_options |}.
Proof.
  destruct (dispatch_posts_then_records []
              [WorkerMessage {| resp_id := 7; error := None; materialized := true |};
               CallFromUrl 0 [] "b.basis" sample_options; CallDestroy]
              0 ["rgba8unorm"] (SrcUrl "a.basis") sample_options)
    as (_ & _ & _ & _ & Hkeep).
  apply Hkeep. repeat constructor; cbn; [lia | intros H; exact H | intros H; exact H].
Defined.

(** C6 as stated fails: on a new loader, [fromUrl] posts the message
    with id 1 and then stores the request; the trace holds no write of
    id 1 to the table before the message. *)
Lemma posted_before_recorded :
  trace after_one_dispatch
    = [NewWorker 0%nat; NewWorker 1%nat; PostMessage 1%nat (sample_request 1);
       SetPending 1] /\
  ~ recorded_before_posted (trace after_one_dispatch) 1.
Proof.
  split; [reflexivity|].
  intros (a & b & w & m & Ha & Hb & _ & Hlt).
  change (trace after_one_dispatch)
    with [NewWorker 0%nat; NewWorker 1%nat; PostMessage 1%nat (sample_request 1);
          SetPending 1] in Ha, Hb.
  destruct a as [|[|[|[|a]]]]; cbn in Ha; try discriminate.
  destruct b as [|[|[|[|b]]]]; cbn in Hb; try discriminate; lia.
Qed.

End WorkerPool.

(** ** The choice of the transcode target *)

Section TranscodeTarget.

(** The Basis worker walks the order of its case, alpha or opaque, and
    takes the first supported format, [cTFRGBA32] when there is none. *)
Lemma basis_select_walks_order (hasAlpha : bool)
    (supported : BasisWorker.BasisFormat -> bool) :
  BasisWorker.select hasAlpha supported
  = default BasisWorker.cTFRGBA32
      (List.find supported
         (if hasAlpha then BasisWorker.alphaOrder else BasisWorker.opaqueOrder)).
Proof.
  destruct hasAlpha; unfold BasisWorker.select; cbn;
    repeat match goal with |- context [if supported ?f then _ else _] =>
      destruct (supported f) end; reflexivity.
Qed.

(** The Basis worker reaches a raw format only when no compressed format
    of the order is supported. *)
Lemma basis_select_raw_last_resort (hasAlpha : bool)
    (supported : BasisWorker.BasisFormat -> bool) (f : BasisWorker.BasisFormat) :
  BasisWorker.is_uncompressed (BasisWorker.select hasAlpha supported) = true ->
  In f (if hasAlpha then BasisWorker.alphaOrder else BasisWorker.opaqueOrder) ->
  BasisWorker.is_uncompressed f = false ->
  supported f = false.
Proof.
  intros Hraw Hin Hf. destruct hasAlpha; unfold BasisWorker.select in Hraw; cbn in Hin;
    repeat match type of Hraw with context [if supported ?g then _ else _] =>
      destruct (supported g) eqn:?; [cbn in Hraw; discriminate|] end;
    intuition (subst; try assumption; cbn in Hf; discriminate).
Qed.

(** The KTX worker takes the first supported target of
    [alphaFormatPreference], whatever the file holds. *)
Lemma ktx_choice_walks_alpha (supportedFormats : list string) :
  KtxWorker.parseFile_choice {| KtxWorker.needsTranscoding := true |} supportedFormats
  = match KtxWorker.first_supported KtxWorker.alphaFormatPreference supportedFormats with
    | Some t => KtxWorker.Transcode t (KtxWorker.format (KtxWorker.WTT_FORMAT_MAP t))
    | None => KtxWorker.Fail "No appropriate transcode format found."
    end.
Proof. reflexivity. Qed.

(** C4 (the code departs from the claim): for a device that supports
    ["rgba8unorm"] and ["etc1-rgb-unorm"], the KTX worker transcodes a
    file without alpha to raw [RGBA32], although the first supported
    entry of [opaqueFormatPreference] is the compressed [ETC1_RGB]; the
    Basis worker, given the same list and an opaque file, selects
    [cTFETC1_RGB]. *)
Theorem ktx_opaque_gets_raw_pixels :
  KtxWorker.parseFile_choice {| KtxWorker.needsTranscoding := true |}
    ["rgba8unorm"; "etc1-rgb-unorm"]
  = KtxWorker.Transcode KtxWorker.RGBA32 "rgba8unorm" /\
  KtxWorker.first_supported KtxWorker.opaqueFormatPreference
    ["rgba8unorm"; "etc1-rgb-unorm"]
  = Some KtxWorker.ETC1_RGB /\
  KtxWorker.uncompressed (KtxWorker.WTT_FORMAT_MAP KtxWorker.ETC1_RGB) = false /\
  BasisWorker.select false
    (BasisWorker.supportedFormats ["rgba8unorm"; "etc1-rgb-unorm"])
  = BasisWorker.cTFETC1_RGB.
Proof. repeat split; reflexivity. Qed.

End TranscodeTarget.

(** ** Slices of a level *)

Section Slices.

Import Gpu TextureData.

Lemma element_assign_eq {A : Type} (a : list (option A)) (i : nat) (x : A) :
  element (assign a i x) i = Some x.
Proof.
  unfold element, assign. destruct (Nat.ltb_spec i (length a)) as [Hlt|Hge].
  - now rewrite list_lookup_insert_eq.
  - rewrite lookup_app_r by lia.
    rewrite lookup_app_r by (rewrite length_replicate; lia).
    rewrite length_replicate. now replace (i - length a - (i - length a))%nat with 0%nat by lia.
Qed.

Lemma element_assign_ne {A : Type} (a : list (option A)) (i j : nat) (x : A) :
  j <> i -> element (assign a i x) j = element a j.
Proof.
  intros Hne. unfold element, assign.
  destruct (Nat.ltb_spec i (length a)) as [Hlt|Hge].
  - now rewrite list_lookup_insert_ne.
  - destruct (decide (j < length a)%nat) as [Hj|Hj].
    + now rewrite lookup_app_l.
    + rewrite (lookup_ge_None_2 a j) by lia.
      rewrite lookup_app_r by lia.
      destruct (decide (j - length a < i - length a)%nat) as [Hin|Hout].
      * rewrite lookup_app_l by (rewrite length_replicate; lia).
        rewrite lookup_replicate_2 by lia. reflexivity.
      * rewrite lookup_app_r by (rewrite length_replicate; lia).
        rewrite length_replicate.
        rewrite lookup_ge_None_2; [reflexivity | cbn; lia].
Qed.

Lemma setSlice_taken (e : nat) (t : BufferSource) (r : SliceOptions)
    (this : WebTextureLevelData) :
  is_Some (element (slices this) e) ->
  setSlice e t r this = (Throw "Cannot define an image slice twice.", this).
Proof. intros [x Hx]. unfold setSlice. now rewrite Hx. Qed.

(** C8: on a level whose slice [e] is set, [setSlice e] throws, leaves
    the level as it was, and whatever follows it in a computation on the
    device, an upload say, is not run: the device sees no call. On a
    level whose slice [e] is not set, [setSlice e] succeeds, sets that
    slice and no other, and every later [setSlice e] throws. *)
Theorem setSlice_at_most_once (e : nat) (t : BufferSource) (r : SliceOptions)
    (this : WebTextureLevelData) :
  (is_Some (element (slices this) e) ->
   setSlice e t r this = (Throw "Cannot define an image slice twice.", this) /\
   forall (A : Type) (upload : unit -> M A) (w : World),
     (let* u := lift (fst (setSlice e t r this)) in upload u) w
     = (Throw "Cannot define an image slice twice.", w)) /\
  (element (slices this) e = None ->
   exists this' : WebTextureLevelData,
     setSlice e t r this = (Ok tt, this') /\
     is_Some (element (slices this') e) /\
     (forall j : nat, j <> e -> element (slices this') j = element (slices this) j) /\
     forall (t' : BufferSource) (r' : SliceOptions),
       setSlice e t' r' this' = (Throw "Cannot define an image slice twice.", this')).
Proof.
  split.
  - intros Hset. pose proof (setSlice_taken e t r this Hset) as Heq.
    split; [exact Heq|]. intros A upload w. now rewrite Heq.
  - intros Hfree. unfold setSlice at 1. rewrite Hfree.
    eexists. split; [reflexivity|]. cbn [slices].
    split; [rewrite element_assign_eq; eauto|].
    split; [intros j Hj; now apply element_assign_ne|].
    intros t' r'. apply setSlice_taken. cbn [slices].
    rewrite element_assign_eq. eauto.
Qed.

Lemma setSlice_at_most_once_witness :
  setSlice 0 (ArrayBuffer [7; 8]) no_slice_options
    {| levelIndex := 0; level_width := 1; level_height := 1;
       slices := [Some {| buffer := [1; 2; 3; 4]; byteOffset := 0; byteLength := 4 |}] |}
  = (Throw "Cannot define an image slice twice.",
     {| levelIndex := 0; level_width := 1; level_height := 1;
        slices := [Some {| buffer := [1; 2; 3; 4]; byteOffset := 0; byteLength := 4 |}] |}) /\
  exists this' : WebTextureLevelData,
    setSlice 2 (ArrayBuffer [7; 8]) no_slice_options
      {| levelIndex := 0; level_width := 1; level_height := 1;
         slices := [Some {| buffer := [1; 2; 3; 4]; byteOffset := 0; byteLength := 4 |}] |}
    = (Ok tt, this') /\
    is_Some (element (slices this') 2).
Proof.
  split.
  - apply (setSlice_at_most_once 0 (ArrayBuffer [7; 8]) no_slice_options
             {| levelIndex := 0; level_width := 1; level_height := 1;
                slices := [Some {| buffer := [1; 2; 3; 4]; byteOffset := 0;
                                   byteLength := 4 |}] |}).
    cbn. eauto.
  - destruct (setSlice_at_most_once 2 (ArrayBuffer [7; 8]) no_slice_options
                {| levelIndex := 0; level_width := 1; level_height := 1;
                   slices := [Some {| buffer := [1; 2; 3; 4]; byteOffset := 0;
                                      byteLength := 4 |}] |}) as [_ Hfree].
    destruct Hfree as (this' & Heq & Hset & _); [reflexivity|].
    exists this'. split; assumption.
Defined.

End Slices.

(** ** Textures of one colour *)

Section FromColor.

Import Gpu TextureData Client WebTextureTool.

(** The data [fromColor] builds: one level with one slice of four
    bytes. *)
Lemma newTextureData_color (s : string) (bytes : list Z) :
  newTextureData s 1 1 (Some (ArrayBufferView bytes 0 4)) no_slice_options
  = Ok {| data_format := s; data_width := 1; data_height := 1;
          levels := [Some {| levelIndex := 0; level_width := 1; level_height := 1;
                             slices := [Some {| buffer := bytes; byteOffset := 0;
                                                byteLength := 4 |}] |}] |}.
Proof. reflexivity. Qed.

(** The world after the two calls of a 1 by 1 upload. *)
Lemma fromColor_accepted (cl : WebGPUTextureClient) (e t r o : float) (s : string)
    (w : World) :
  s = "rgba8unorm" \/ s = "rgba8unorm-srgb" ->
  device cl <> None ->
  fromColor {| client := Some cl |} e t r (Some o) (Some s) w
  = (Ok {| texture := nextHandle w; width := 1; height := 1; depth := 1;
           mipLevels := 1; format := s; type := "2d" |},
     {| nextHandle := S (nextHandle w);
        calls := calls w ++
          [CreateTexture (nextHandle w)
             {| size := {| Gpu.width := 1; Gpu.height := 1;
                           depthOrArrayLayers := None |};
                Gpu.format := s;
                usage := Z.lor TEXTURE_BINDING COPY_DST;
                mipLevelCount := 1;
                dimension := None |};
           WriteTexture (nextHandle w) 0 None (colorBytes e t r o) 0 4
             {| Gpu.width := 1; Gpu.height := 1; depthOrArrayLayers := None |}];
        pipelines := pipelines w |}).
Proof.
  intros Hs Hdev. destruct cl as [[dev|]]; [|contradiction].
  unfold fromColor.
  change (default 1%float (Some o)) with o.
  change (default "rgba8unorm" (Some s)) with s.
  generalize (colorBytes e t r o); intros bytes.
  cbn [client]. rewrite newTextureData_color.
  destruct Hs as [-> | ->]; lazy -[app]; rewrite <- app_assoc; reflexivity.
Qed.

(** C9: on a tool that holds a client, [fromColor] with a format other
    than ["rgba8unorm"] and ["rgba8unorm-srgb"] throws and makes no call
    on the device; with one of the two formats, on a client whose device
    is set, it creates a 1 by 1 texture of that format with one level
    and writes to it the four channels, each multiplied by 255 and
    stored as a byte. An alpha left out is 1 and a format left out is
    ["rgba8unorm"]. *)
Theorem fromColor_formats (cl : WebGPUTextureClient) (e t r : float) (o : option float)
    (s : option string) (w : World) :
  let fmt := default "rgba8unorm" s in
  let alpha := default 1%float o in
  (fmt <> "rgba8unorm" -> fmt <> "rgba8unorm-srgb" ->
   fromColor {| client := Some cl |} e t r o s w = (Throw unsupported_color_format, w)) /\
  (fmt = "rgba8unorm" \/ fmt = "rgba8unorm-srgb" ->
   device cl <> None ->
   fromColor {| client := Some cl |} e t r o s w
   = (Ok {| texture := nextHandle w; width := 1; height := 1; depth := 1;
            mipLevels := 1; format := fmt; type := "2d" |},
      {| nextHandle := S (nextHandle w);
         calls := calls w ++
           [CreateTexture (nextHandle w)
              {| size := {| Gpu.width := 1; Gpu.height := 1;
                            depthOrArrayLayers := None |};
                 Gpu.format := fmt;
                 usage := Z.lor TEXTURE_BINDING COPY_DST;
                 mipLevelCount := 1;
                 dimension := None |};
            WriteTexture (nextHandle w) 0 None
              [Js.ToUint8 (e * 255)%float; Js.ToUint8 (t * 255)%float;
               Js.ToUint8 (r * 255)%float; Js.ToUint8 (alpha * 255)%float]
              0 4
              {| Gpu.width := 1; Gpu.height := 1; depthOrArrayLayers := None |}];
         pipelines := pipelines w |})).
Proof.
  intros fmt alpha. split.
  - intros H1 H2. unfold fromColor; cbn [client]. fold fmt.
    rewrite (bool_decide_eq_true_2 _ H1), (bool_decide_eq_true_2 _ H2). reflexivity.
  - intros Hfmt Hdev.
    change (fromColor {| client := Some cl |} e t r o s w)
      with (fromColor {| client := Some cl |} e t r (Some alpha) (Some fmt) w).
    now apply fromColor_accepted.
Qed.

Lemma fromColor_formats_witness :
  fromColor {| client := Some {| device := Some 0%nat |} |} 1 0.5 0.25 None
    (Some "bgra8unorm") {| nextHandle := 0; calls := []; pipelines := ∅ |}
  = (Throw unsupported_color_format, {| nextHandle := 0; calls := []; pipelines := ∅ |}) /\
  fst (fromColor {| client := Some {| device := Some 0%nat |} |} 1 0.5 0.25 None None
         {| nextHandle := 0; calls := []; pipelines := ∅ |})
  = Ok {| texture := 0; width := 1; height := 1; depth := 1; mipLevels := 1;
          format := "rgba8unorm"; type := "2d" |}.
Proof.
  split.
  - apply (fromColor_formats {| device := Some 0%nat |} 1 0.5 0.25 None
             (Some "bgra8unorm")); cbn; discriminate.
  - destruct (fromColor_formats {| device := Some 0%nat |} 1 0.5 0.25 None None
                {| nextHandle := 0; calls := []; pipelines := ∅ |}) as [_ Hok].
    rewrite Hok; [reflexivity | now left | discriminate].
Defined.

(** After [destroy] the tool holds no client and [fromColor] throws,
    whatever the format. *)
Lemma fromColor_after_destroy (this : WebTextureTool) (e t r : float) (o : option float)
    (s : option string) (w : World) :
  fromColor (WebTextureTool.destroy this) e t r o s w
  = (Throw "Cannot create new textures after object has been destroyed.", w).
Proof. reflexivity. Qed.

End FromColor.

(** ** The mipmap generator *)

Section Mipmaps.

Import Gpu MipmapGenerator.

Lemma add_add (l1 l2 : list Call) (w : World) :
  add l2 (add l1 w) = add (l1 ++ l2) w.
Proof. unfold add; cbn. now rewrite app_assoc. Qed.

Lemma add_nil (w : World) : add [] w = w.
Proof. destruct w. unfold add; cbn. now rewrite app_nil_r. Qed.

Lemma call_run (x : Call) (w : World) : call x w = (Ok tt, add [x] w).
Proof. reflexivity. Qed.

Lemma bind_run {A B : Type} (c : M A) (k : A -> M B) (w w' : World) (a : A) :
  c w = (Ok a, w') -> bind c k w = k a w'.
Proof. intros H. unfold bind. now rewrite H. Qed.

Lemma blit_run (r o : nat) (c M : Z) (g : TextureView) (w : World) :
  blit r o c (M, g) w
  = (Ok (M + 1, view o M c), add [CreateView (view o M c); RenderPass r (view o M c) g] w).
Proof.
  unfold blit; cbn [fst snd].
  rewrite (bind_run _ _ _ _ _ (call_run _ _)).
  rewrite (bind_run _ _ _ _ _ (call_run _ _)).
  unfold ret. now rewrite add_add.
Qed.

Lemma chain_run (r o : nat) (c : Z) (n : nat) :
  forall (h M : Z) (g : TextureView) (w : World),
  exists st : Z * TextureView,
    Loop.for_range n h (fun _ st => blit r o c st) (M, g) w
    = (Ok st, add (chain r o c n M g) w).
Proof.
  induction n as [|n IH]; intros h M g w; cbn [Loop.for_range chain].
  - exists (M, g). unfold ret. now rewrite add_nil.
  - destruct (IH (h + 1) (M + 1) (view o M c)
                (add [CreateView (view o M c); RenderPass r (view o M c) g] w))
      as [st Hst].
    exists st. rewrite (bind_run _ _ _ _ _ (blit_run r o c M g w)).
    rewrite Hst, add_add. reflexivity.
Qed.

Lemma blitLayer_run (r e o : nat) (i count c : Z) (w : World) :
  blitLayer r e o i count c w = (Ok tt, add (layerCalls r e o i count c) w).
Proof.
  unfold blitLayer, Loop.for_lt, layerCalls.
  destruct (chain_run r o c (Z.to_nat (count - 1)) 1
              (if decide (i = 0) then 0 else 1) (view e 0 c)
              (add [CreateView (view e 0 c)] w)) as [st Hst].
  rewrite (bind_run _ _ _ _ _ (call_run _ _)).
  rewrite (bind_run _ _ _ _ _ Hst).
  unfold ret. now rewrite add_add.
Qed.

Lemma layers_run (r e o : nat) (i count : Z) (n : nat) :
  forall (c : Z) (w : World),
  Loop.for_range n c (fun c _ => blitLayer r e o i count c) tt w
  = (Ok tt, add (flat_map (layerCalls r e o i count) (seqZ c (Z.of_nat n))) w).
Proof.
  induction n as [|n IH]; intros c w.
  - cbn. unfold ret. now rewrite add_nil.
  - cbn [Loop.for_range].
    rewrite (bind_run _ _ _ _ _ (blitLayer_run r e o i count c w)).
    rewrite IH, add_add.
    rewrite (seqZ_cons c (Z.of_nat (S n))) by lia.
    replace (Z.pred (Z.of_nat (S n))) with (Z.of_nat n) by lia.
    replace (Z.succ c) with (c + 1) by lia. reflexivity.
Qed.

Lemma copyLevel_run (e o : nat) (g : Z) (c : Extent) (w : World) :
  copyLevel e o g c w = (Ok (halve c), add [CopyTextureToTexture o (g - 1) e g c] w).
Proof.
  unfold copyLevel. now rewrite (bind_run _ _ _ _ _ (call_run _ _)).
Qed.

Lemma copies_run (e o : nat) (n : nat) :
  forall (g : Z) (c : Extent) (w : World),
  exists c' : Extent,
    Loop.for_range n g (copyLevel e o) c w = (Ok c', add (copyCalls e o n g c) w).
Proof.
  induction n as [|n IH]; intros g c w; cbn [Loop.for_range copyCalls].
  - exists c. unfold ret. now rewrite add_nil.
  - destruct (IH (g + 1) (halve c) (add [CopyTextureToTexture o (g - 1) e g c] w))
      as [c' Hc'].
    exists c'. rewrite (bind_run _ _ _ _ _ (copyLevel_run e o g c w)).
    rewrite Hc', add_add. reflexivity.
Qed.

Lemma getMipmapPipeline_run (fmt : string) (w : World) :
  exists (r : nat) (P : list Call),
    getMipmapPipeline fmt w = (Ok r, snd (getMipmapPipeline fmt w)) /\
    calls (snd (getMipmapPipeline fmt w)) = calls w ++ P /\
    (P = [] \/ P = [CreateShaderModule; CreateRenderPipeline r fmt]) /\
    (nextHandle w <= nextHandle (snd (getMipmapPipeline fmt w)))%nat.
Proof.
  unfold getMipmapPipeline. destruct (pipelines w !! fmt) as [p|]; cbn.
  - exists p, []. rewrite app_nil_r. auto.
  - exists (nextHandle w), [CreateShaderModule; CreateRenderPipeline (nextHandle w) fmt].
    repeat split; auto.
Qed.

Lemma seqZ_for_lt (s : Z) : seqZ 0 (Z.of_nat (Z.to_nat (s - 0))) = seqZ 0 s.
Proof. unfold seqZ. now rewrite Nat2Z.id, Z.sub_0_r. Qed.

Lemma copyChain_run (e o : nat) (count : Z) (c : Extent) (w : World) :
  (Loop.for_lt 1 count (copyLevel e o) c ;; ret tt) w
  = (Ok tt, add (copyCalls e o (Z.to_nat (count - 1)) 1 c) w).
Proof.
  unfold Loop.for_lt.
  destruct (copies_run e o (Z.to_nat (count - 1)) 1 c w) as [c' Hc'].
  now rewrite (bind_run _ _ _ _ _ Hc').
Qed.

Lemma layerChain_run (r e o : nat) (i count s : Z) (w : World) :
  Loop.for_lt 0 s (fun c _ => blitLayer r e o i count c) tt w
  = (Ok tt, add (flat_map (layerCalls r e o i count) (seqZ 0 s)) w).
Proof. unfold Loop.for_lt. now rewrite layers_run, seqZ_for_lt. Qed.

Lemma allocate_run (d : TextureDescriptor) (w : World) :
  (let* h := fresh in call (CreateTexture h d) ;; ret h) w
  = (Ok (nextHandle w), add [CreateTexture (nextHandle w) d] (bump w)).
Proof. reflexivity. Qed.

(** The calls of [generateMipmap] on a texture that cannot be rendered
    to: after the pipeline, the temporary texture [o], the passes of
    every layer, the copies, the submission and the release of [o]. *)
Lemma generateMipmap_through_temporary (e : nat) (t : TextureDescriptor) (w : World) :
  non2d (dimension t) = false ->
  Z.land (usage t) RENDER_ATTACHMENT = 0 ->
  exists (r : nat) (P : list Call),
    let o := nextHandle (snd (getMipmapPipeline (format t) w)) in
    let s := Js.or_num (depthOrArrayLayers (size t)) 1 in
    (P = [] \/ P = [CreateShaderModule; CreateRenderPipeline r (format t)]) /\
    (nextHandle w <= o)%nat /\
    fst (generateMipmap e t w) = Ok e /\
    calls (snd (generateMipmap e t w))
    = calls w ++ P ++
        [CreateTexture o (temporary t s); CreateCommandEncoder] ++
        flat_map (layerCalls r e o 0 (mipLevelCount t)) (seqZ 0 s) ++
        copyCalls e o (Z.to_nat (mipLevelCount t - 1)) 1
          {| width := Js.ceil_div (width (size t)) 2;
             height := Js.ceil_div (height (size t)) 2;
             depthOrArrayLayers := Some s |} ++
        [Submit; DestroyTexture o].
Proof.
  intros H2d Hi.
  destruct (getMipmapPipeline_run (format t) w) as (r & P & Hrun & Hcalls & HP & Hle).
  exists r, P. intros o s. split; [exact HP|]. split; [exact Hle|].
  set (w1 := snd (getMipmapPipeline (format t) w)) in *.
  assert (generateMipmap e t w
          = (Ok e,
             add ([CreateTexture o (temporary t s); CreateCommandEncoder] ++
                  flat_map (layerCalls r e o 0 (mipLevelCount t)) (seqZ 0 s) ++
                  copyCalls e o (Z.to_nat (mipLevelCount t - 1)) 1
                    {| width := Js.ceil_div (width (size t)) 2;
                       height := Js.ceil_div (height (size t)) 2;
                       depthOrArrayLayers := Some s |} ++
                  [Submit; DestroyTexture o]) (bump w1))) as Heq.
  { unfold generateMipmap.
    rewrite (bind_run _ _ _ _ _ Hrun), H2d, Hi. cbv zeta. fold s.
    destruct (decide (0 = 0)) as [_|Hne]; [|contradiction].
    rewrite (bind_run _ _ _ _ _ (allocate_run _ _)). fold o.
    rewrite (bind_run _ _ _ _ _ (call_run _ _)).
    rewrite (bind_run _ _ _ _ _ (layerChain_run _ _ _ _ _ _ _)).
    rewrite (bind_run _ _ _ _ _ (copyChain_run _ _ _ _ _)).
    rewrite (bind_run _ _ _ _ _ (call_run _ _)).
    rewrite (bind_run _ _ _ _ _ (call_run _ _)).
    unfold ret. rewrite !add_add. reflexivity. }
  rewrite Heq. cbn [fst snd]. split; [reflexivity|].
  unfold add, bump; cbn [calls]. rewrite Hcalls, <- !app_assoc. reflexivity.
Qed.

(** The calls of [generateMipmap] on a texture that can be rendered to:
    the passes go into the texture itself, from level 1 on. *)
Lemma generateMipmap_in_place (e : nat) (t : TextureDescriptor) (w : World) :
  non2d (dimension t) = false ->
  Z.land (usage t) RENDER_ATTACHMENT <> 0 ->
  exists (r : nat) (P : list Call),
    let s := Js.or_num (depthOrArrayLayers (size t)) 1 in
    (P = [] \/ P = [CreateShaderModule; CreateRenderPipeline r (format t)]) /\
    fst (generateMipmap e t w) = Ok e /\
    calls (snd (generateMipmap e t w))
    = calls w ++ P ++ [CreateCommandEncoder] ++
        flat_map (layerCalls r e e (Z.land (usage t) RENDER_ATTACHMENT) (mipLevelCount t))
          (seqZ 0 s) ++
        [Submit].
Proof.
  intros H2d Hi.
  destruct (getMipmapPipeline_run (format t) w) as (r & P & Hrun & Hcalls & HP & Hle).
  exists r, P. intros s. split; [exact HP|].
  set (w1 := snd (getMipmapPipeline (format t) w)) in *.
  assert (generateMipmap e t w
          = (Ok e,
             add ([CreateCommandEncoder] ++
                  flat_map (layerCalls r e e (Z.land (usage t) RENDER_ATTACHMENT)
                              (mipLevelCount t)) (seqZ 0 s) ++
                  [Submit]) w1)) as Heq.
  { unfold generateMipmap.
    rewrite (bind_run _ _ _ _ _ Hrun), H2d. cbv zeta. fold s.
    destruct (decide (Z.land (usage t) RENDER_ATTACHMENT = 0)) as [Hz|_]; [contradiction|].
    unfold ret at 1. rewrite (bind_run _ (fun o => _) w1 w1 e eq_refl).
    rewrite (bind_run _ _ _ _ _ (call_run _ _)).
    rewrite (bind_run _ _ _ _ _ (layerChain_run _ _ _ _ _ _ _)).
    unfold ret at 1. rewrite (bind_run (fun w0 => (Ok tt, w0)) _ _ _ tt eq_refl).
    rewrite (bind_run _ _ _ _ _ (call_run _ _)).
    unfold ret at 1. rewrite (bind_run (fun w0 => (Ok tt, w0)) _ _ _ tt eq_refl).
    unfold ret. rewrite !add_add. reflexivity. }
  rewrite Heq. cbn [fst snd]. split; [reflexivity|].
  unfold add; cbn [calls]. rewrite Hcalls, <- !app_assoc. reflexivity.
Qed.

Lemma generateMipmap_non2d (e : nat) (t : TextureDescriptor) (w : World) :
  non2d (dimension t) = true ->
  exists (r : nat) (P : list Call),
    (P = [] \/ P = [CreateShaderModule; CreateRenderPipeline r (format t)]) /\
    fst (generateMipmap e t w)
    = Throw "Generating mipmaps for non-2d textures is currently unsupported!" /\
    calls (snd (generateMipmap e t w)) = calls w ++ P.
Proof.
  intros H2d.
  destruct (getMipmapPipeline_run (format t) w) as (r & P & Hrun & Hcalls & HP & Hle).
  exists r, P. split; [exact HP|].
  assert (generateMipmap e t w
          = (Throw "Generating mipmaps for non-2d textures is currently unsupported!",
             snd (getMipmapPipeline (format t) w))) as Heq.
  { unfold generateMipmap. now rewrite (bind_run _ _ _ _ _ Hrun), H2d. }
  rewrite Heq. cbn [fst snd]. auto.
Qed.

Lemma count_app (p : Call -> bool) (l1 l2 : list Call) :
  count p (l1 ++ l2) = (count p l1 + count p l2)%nat.
Proof. induction l1 as [|x l1 IH]; cbn; [reflexivity | rewrite IH; lia]. Qed.

Lemma chain_shape (r o : nat) (c : Z) (n : nat) :
  forall (M : Z) (g : TextureView),
  Forall (fun x => is_copy x = false /\ is_create_texture x = false /\ renders_into o x)
    (chain r o c n M g) /\
  (baseArrayLayer g = c -> Forall same_layer (chain r o c n M g)) /\
  count is_render_pass (chain r o c n M g) = n /\
  forall c' : Z,
    count (pass_of_layer c') (chain r o c n M g) = if decide (c' = c) then n else 0%nat.
Proof.
  induction n as [|n IH]; intros M g; cbn [chain].
  - repeat split; try constructor. intros c'. now destruct (decide (c' = c)).
  - destruct (IH (M + 1) (view o M c)) as (H1 & H2 & H3 & H4).
    split; [|split; [|split]].
    + repeat constructor; assumption.
    + intros Hg. repeat constructor; [cbn; congruence | now apply H2].
    + cbn. now rewrite H3.
    + intros c'. cbn. rewrite H4.
      destruct (decide (c' = c)) as [->|Hne].
      * now rewrite bool_decide_eq_true_2.
      * rewrite bool_decide_eq_false_2 by congruence. reflexivity.
Qed.

Lemma layerCalls_shape (r e o : nat) (i count_ c : Z) :
  Forall (fun x => is_copy x = false /\ is_create_texture x = false /\ renders_into o x)
    (layerCalls r e o i count_ c) /\
  Forall same_layer (layerCalls r e o i count_ c) /\
  count is_render_pass (layerCalls r e o i count_ c) = Z.to_nat (count_ - 1) /\
  forall c' : Z,
    count (pass_of_layer c') (layerCalls r e o i count_ c)
    = if decide (c' = c) then Z.to_nat (count_ - 1) else 0%nat.
Proof.
  unfold layerCalls.
  destruct (chain_shape r o c (Z.to_nat (count_ - 1))
              (if decide (i = 0) then 0 else 1) (view e 0 c)) as (H1 & H2 & H3 & H4).
  repeat split; try (constructor; [cbn; auto | auto]); cbn; auto.
Qed.

Lemma layers_shape (r e o : nat) (i count_ : Z) (L : list Z) :
  Forall (fun x => is_copy x = false /\ is_create_texture x = false /\ renders_into o x)
    (flat_map (layerCalls r e o i count_) L) /\
  Forall same_layer (flat_map (layerCalls r e o i count_) L) /\
  count is_render_pass (flat_map (layerCalls r e o i count_) L)
  = (length L * Z.to_nat (count_ - 1))%nat /\
  (NoDup L ->
   forall c' : Z,
     count (pass_of_layer c') (flat_map (layerCalls r e o i count_) L)
     = if decide (c' ∈ L) then Z.to_nat (count_ - 1) else 0%nat).
Proof.
  induction L as [|c L (H1 & H2 & H3 & H4)]; cbn [flat_map].
  - split; [constructor|]. split; [constructor|]. split; [reflexivity|].
    intros _ c'. destruct (decide (c' ∈ [])) as [Hin|_]; [|reflexivity].
    now apply not_elem_of_nil in Hin.
  - destruct (layerCalls_shape r e o i count_ c) as (G1 & G2 & G3 & G4).
    split; [|split; [|split]].
    + now apply Forall_app.
    + now apply Forall_app.
    + rewrite count_app, G3, H3. cbn. lia.
    + intros Hnd c'. apply NoDup_cons in Hnd as [Hc HL].
      rewrite count_app, G4, (H4 HL).
      destruct (decide (c' = c)) as [->|Hne].
      * destruct (decide (c ∈ L)) as [Hin|_]; [contradiction|].
        destruct (decide (c ∈ c :: L)) as [_|Hout]; [lia|].
        exfalso. apply Hout. constructor.
      * destruct (decide (c' ∈ L)) as [Hin|Hout];
          destruct (decide (c' ∈ c :: L)) as [Hin'|Hout']; try reflexivity.
        -- exfalso. apply Hout'. now constructor.
        -- apply elem_of_cons in Hin' as [?|?]; contradiction.
Qed.

Lemma copyCalls_shape (e o : nat) (n : nat) :
  forall (g : Z) (c : Extent),
  map (copy_route o) (copyCalls e o n g c)
  = map (fun k => Some (k - 1, e, k)) (seqZ g (Z.of_nat n)) /\
  Forall same_layer (copyCalls e o n g c) /\
  forall c' : Z, count (pass_of_layer c') (copyCalls e o n g c) = 0%nat.
Proof.
  induction n as [|n IH]; intros g c; cbn [copyCalls].
  - repeat split; constructor.
  - destruct (IH (g + 1) (halve c)) as (H1 & H2 & H3).
    split; [|split].
    + rewrite (seqZ_cons g (Z.of_nat (S n))) by lia.
      replace (Z.pred (Z.of_nat (S n))) with (Z.of_nat n) by lia.
      replace (Z.succ g) with (g + 1) by lia.
      cbn [map copy_route]. rewrite H1.
      destruct (decide (o = o)) as [_|Hne]; [reflexivity | contradiction].
    + constructor; [exact I | exact H2].
    + intros c'. cbn. apply H3.
Qed.

Lemma non2d_false (d : option string) :
  d <> Some "1d" -> d <> Some "3d" -> non2d d = false.
Proof.
  intros H1 H3. unfold non2d.
  now rewrite (bool_decide_eq_false_2 _ H1), (bool_decide_eq_false_2 _ H3).
Qed.

Lemma non2d_true (d : option string) :
  d = Some "1d" \/ d = Some "3d" -> non2d d = true.
Proof. intros [-> | ->]; reflexivity. Qed.

Lemma pipeline_calls_shape (r : nat) (fmt : string) (P : list Call) :
  P = [] \/ P = [CreateShaderModule; CreateRenderPipeline r fmt] ->
  Forall (fun x => is_create_texture x = false /\ is_command x = false) P /\
  Forall same_layer P /\
  forall c : Z, count (pass_of_layer c) P = 0%nat.
Proof. intros [-> | ->]; repeat split; repeat constructor. Qed.

Lemma earlier_chain_run (r o : nat) (n : nat) :
  forall (h M : Z) (g : TextureView) (w : World),
  exists st : Z * TextureView,
    Loop.for_range n h (fun i st => blit r o 0 (i, snd st)) (M, g) w
    = (Ok st, add (chain r o 0 n h g) w).
Proof.
  induction n as [|n IH]; intros h M g w; cbn [Loop.for_range chain].
  - exists (M, g). unfold ret. now rewrite add_nil.
  - destruct (IH (h + 1) (h + 1) (view o h 0)
                (add [CreateView (view o h 0); RenderPass r (view o h 0) g] w))
      as [st Hst].
    exists st. cbn [snd]. rewrite (bind_run _ _ _ _ _ (blit_run r o 0 h g w)).
    rewrite Hst, add_add. reflexivity.
Qed.

Lemma earlier_generateMipmap_run (d r e : nat) (t : TextureDescriptor) (w : World) :
  EarlierClient.generateMipmap (Some d) r e t w
  = (Ok e,
     add ([CreateCommandEncoder; CreateView (view e 0 0)] ++
          chain r e 0 (Z.to_nat (mipLevelCount t - 1)) 1 (view e 0 0) ++ [Submit]) w).
Proof.
  unfold EarlierClient.generateMipmap, Loop.for_lt.
  destruct (earlier_chain_run r e (Z.to_nat (mipLevelCount t - 1)) 1 1 (view e 0 0)
              (add [CreateCommandEncoder; CreateView (view e 0 0)] w)) as [st Hst].
  rewrite (bind_run _ _ _ _ _ (call_run _ _)).
  rewrite (bind_run _ _ _ _ _ (call_run _ _)).
  rewrite add_add. cbn [app].
  rewrite (bind_run _ _ _ _ _ Hst).
  rewrite (bind_run _ _ _ _ _ (call_run _ _)).
  unfold ret. rewrite !add_add. reflexivity.
Qed.

Lemma flat_map_seqZ_ext {A : Type} (f g : Z -> list A) (n : nat) :
  forall m : Z,
  (forall j : Z, m <= j -> f j = g j) ->
  flat_map f (seqZ m (Z.of_nat n)) = flat_map g (seqZ m (Z.of_nat n)).
Proof.
  induction n as [|n IH]; intros m Hfg; [reflexivity|].
  rewrite (seqZ_cons m (Z.of_nat (S n))) by lia.
  replace (Z.pred (Z.of_nat (S n))) with (Z.of_nat n) by lia.
  cbn [flat_map]. rewrite (Hfg m) by lia. f_equal.
  apply IH. intros j Hj. apply Hfg. lia.
Qed.

(** The calls of the inner loop when the source of its first pass is
    the level before its first target. *)
Lemma chain_uniform (r o : nat) (c : Z) (n : nat) :
  forall M : Z,
  chain r o c n M (view o (M - 1) c)
  = flat_map (fun j => [CreateView (view o j c);
                        RenderPass r (view o j c) (view o (j - 1) c)])
      (seqZ M (Z.of_nat n)).
Proof.
  induction n as [|n IH]; intros M; [reflexivity|].
  rewrite (seqZ_cons M (Z.of_nat (S n))) by lia.
  replace (Z.pred (Z.of_nat (S n))) with (Z.of_nat n) by lia.
  replace (Z.succ M) with (M + 1) by lia.
  cbn [chain flat_map app]. do 2 f_equal.
  rewrite <- IH. do 2 f_equal. lia.
Qed.

Lemma layerCalls_downsample (r e o : nat) (n c : Z) :
  layerCalls r e o 0 n c = MipmapChain.downsample r e o n c.
Proof.
  unfold layerCalls, MipmapChain.downsample. f_equal.
  destruct (decide (0 = 0)) as [_|Hne]; [|contradiction].
  replace (seqZ 0 (n - 1)) with (seqZ 0 (Z.of_nat (Z.to_nat (n - 1))))
    by (unfold seqZ; now rewrite Nat2Z.id).
  destruct (Z.to_nat (n - 1)) as [|k]; [reflexivity|].
  rewrite (seqZ_cons 0 (Z.of_nat (S k))) by lia.
  replace (Z.pred (Z.of_nat (S k))) with (Z.of_nat k) by lia.
  cbn [chain flat_map app]. do 2 f_equal.
  change (view o 0 c) with (view o (0 + 1 - 1) c) at 1.
  rewrite chain_uniform. apply flat_map_seqZ_ext.
  intros j Hj. destruct (decide (j = 0)) as [Hz|_]; [lia | reflexivity].
Qed.

Lemma ceil_div_ceil_div (a b c : Z) :
  0 < b -> 0 < c -> Js.ceil_div (Js.ceil_div a b) c = Js.ceil_div a (b * c).
Proof.
  intros Hb Hc. unfold Js.ceil_div. rewrite Z.opp_involutive.
  now rewrite Z.div_div by lia.
Qed.

(** The copies, in closed form: the size of the copy to level [g] is
    the size of the texture divided by [2^g], rounded up. *)
Lemma copyCalls_closed (e o : nat) (W H : Z) (d : option Z) (n : nat) :
  forall g : Z,
  0 <= g ->
  copyCalls e o n g
    {| width := Js.ceil_div W (2 ^ g); height := Js.ceil_div H (2 ^ g);
       depthOrArrayLayers := d |}
  = map (fun g => CopyTextureToTexture o (g - 1) e g
                    {| width := Js.ceil_div W (2 ^ g); height := Js.ceil_div H (2 ^ g);
                       depthOrArrayLayers := d |})
      (seqZ g (Z.of_nat n)).
Proof.
  induction n as [|n IH]; intros g Hg; [reflexivity|].
  rewrite (seqZ_cons g (Z.of_nat (S n))) by lia.
  replace (Z.pred (Z.of_nat (S n))) with (Z.of_nat n) by lia.
  replace (Z.succ g) with (g + 1) by lia.
  cbn [copyCalls map]. f_equal. rewrite <- IH by lia. f_equal.
  unfold halve. cbn [width height depthOrArrayLayers].
  assert (0 < 2 ^ g) by (apply Z.pow_pos_nonneg; lia).
  rewrite !ceil_div_ceil_div by lia.
  now rewrite Z.pow_add_r, Z.pow_1_r by lia.
Qed.




(** C10: for a descriptor of dimension ["1d"] or ["3d"],
    [generateMipmap] throws and puts no render pass and no copy into an
    encoder, nor submits one. For every other descriptor it returns the
    texture; every pass reads the array layer it writes, and every layer
    of the texture gets one pass for each mip level after the first. *)
Theorem generateMipmap_only_2d (e : nat) (t : TextureDescriptor) (w : World) :
  (dimension t = Some "1d" \/ dimension t = Some "3d" ->
   fst (generateMipmap e t w)
   = Throw "Generating mipmaps for non-2d textures is currently unsupported!" /\
   Forall (fun x => is_command x = false) (added (generateMipmap e t) w)) /\
  (dimension t <> Some "1d" -> dimension t <> Some "3d" ->
   fst (generateMipmap e t w) = Ok e /\
   Forall same_layer (added (generateMipmap e t) w) /\
   forall c : Z,
     0 <= c < Js.or_num (depthOrArrayLayers (size t)) 1 ->
     count (pass_of_layer c) (added (generateMipmap e t) w)
     = Z.to_nat (mipLevelCount t - 1)).
Proof.
  split.
  - intros Hd.
    destruct (generateMipmap_non2d e t w (non2d_true _ Hd)) as (r & P & HP & Hthrow & Hcalls).
    split; [exact Hthrow|].
    unfold added. rewrite Hcalls, drop_app_length.
    destruct (pipeline_calls_shape r (format t) P HP) as (HF & _).
    eapply Forall_impl; [exact HF | intros x [_ Hx]; exact Hx].
  - intros H1 H3.
    set (s := Js.or_num (depthOrArrayLayers (size t)) 1).
    assert (forall c : Z, 0 <= c < s ->
              (if decide (c ∈ seqZ 0 s) then Z.to_nat (mipLevelCount t - 1) else 0%nat)
              = Z.to_nat (mipLevelCount t - 1)) as Hin.
    { intros c Hc. destruct (decide (c ∈ seqZ 0 s)) as [_|Hout]; [reflexivity|].
      exfalso. apply Hout. apply elem_of_seqZ. lia. }
    destruct (decide (Z.land (usage t) RENDER_ATTACHMENT = 0)) as [Hi|Hi].
    + destruct (generateMipmap_through_temporary e t w (non2d_false _ H1 H3) Hi)
        as (r & P & HP & _ & Hok & Hcalls).
      cbv zeta in HP, Hok, Hcalls. fold s in Hcalls.
      set (o := nextHandle (snd (getMipmapPipeline (format t) w))) in *.
      destruct (pipeline_calls_shape r (format t) P HP) as (_ & P2 & P3).
      destruct (layers_shape r e o 0 (mipLevelCount t) (seqZ 0 s)) as (_ & L2 & _ & L4).
      match type of Hcalls with context [copyCalls e o ?n 1 ?c] =>
        destruct (copyCalls_shape e o n 1 c) as (_ & C2 & C3) end.
      split; [exact Hok|]. unfold added. rewrite Hcalls, drop_app_length.
      split.
      * repeat (apply Forall_app; split); try assumption; repeat constructor.
      * intros c Hc. rewrite !count_app, P3, C3, (L4 (NoDup_seqZ 0 s)), (Hin c Hc).
        cbn. lia.
    + destruct (generateMipmap_in_place e t w (non2d_false _ H1 H3) Hi)
        as (r & P & HP & Hok & Hcalls).
      cbv zeta in HP, Hok, Hcalls. fold s in Hcalls.
      destruct (pipeline_calls_shape r (format t) P HP) as (_ & P2 & P3).
      destruct (layers_shape r e e (Z.land (usage t) RENDER_ATTACHMENT) (mipLevelCount t)
                  (seqZ 0 s)) as (_ & L2 & _ & L4).
      split; [exact Hok|]. unfold added. rewrite Hcalls, drop_app_length.
      split.
      * repeat (apply Forall_app; split); try assumption; repeat constructor.
      * intros c Hc. rewrite !count_app, P3, (L4 (NoDup_seqZ 0 s)), (Hin c Hc).
        cbn. lia.
Qed.

Lemma generateMipmap_only_2d_witness :
  fst (generateMipmap 0 volume_descriptor new_world)
  = Throw "Generating mipmaps for non-2d textures is currently unsupported!" /\
  count (pass_of_layer 1)
    (added (generateMipmap 0
              {| size := {| width := 8; height := 8; depthOrArrayLayers := Some 2 |};
                 format := "rgba8unorm";
                 usage := Z.lor TEXTURE_BINDING RENDER_ATTACHMENT;
                 mipLevelCount := 4;
                 dimension := Some "2d" |}) new_world)
  = 3%nat.
Proof.
  split.
  - apply (generateMipmap_only_2d 0 volume_descriptor new_world). now right.
  - destruct (generateMipmap_only_2d 0
                {| size := {| width := 8; height := 8; depthOrArrayLayers := Some 2 |};
                   format := "rgba8unorm";
                   usage := Z.lor TEXTURE_BINDING RENDER_ATTACHMENT;
                   mipLevelCount := 4;
                   dimension := Some "2d" |} new_world) as [_ H2d].
    destruct H2d as (_ & _ & Hcount); [discriminate | discriminate |].
    apply (Hcount 1). vm_compute. split; [discriminate | reflexivity].
Defined.

(** The earlier client renders in place: for a texture of three levels
    created for sampling only, it creates no texture and copies
    nothing. *)
Example earlier_generateMipmap_in_place :
  calls (snd (EarlierClient.generateMipmap (Some 0%nat) 1 0
                {| size := {| width := 4; height := 4; depthOrArrayLayers := Some 1 |};
                   format := "rgba8unorm";
                   usage := Z.lor TEXTURE_BINDING COPY_DST;
                   mipLevelCount := 3;
                   dimension := None |} new_world))
  = [CreateCommandEncoder;
     CreateView (view 0 0 0);
     CreateView (view 0 1 0); RenderPass 1 (view 0 1 0) (view 0 0 0);
     CreateView (view 0 2 0); RenderPass 1 (view 0 2 0) (view 0 1 0);
     Submit].
Proof. reflexivity. Qed.

End Mipmaps.

(** ** Runs of the worker pool *)

Section PoolRuns.

Import WorkerLoader PoolRun.

Lemma posted_ids_app (l1 l2 : list Effect) :
  posted_ids (l1 ++ l2) = posted_ids l1 ++ posted_ids l2.
Proof. apply omap_app. Qed.

Lemma settled_ids_app (l1 l2 : list Effect) :
  settled_ids (l1 ++ l2) = settled_ids l1 ++ settled_ids l2.
Proof. apply omap_app. Qed.

Lemma run_snoc (evs : list Event) (ev : Event) (st : State) :
  run (evs ++ [ev]) st = step (run evs st) ev.
Proof. unfold run. now rewrite foldl_app. Qed.

Lemma selectWorker_trace (st : State) :
  posted_ids (trace (snd (selectWorker st))) = posted_ids (trace st) /\
  settled_ids (trace (snd (selectWorker st))) = settled_ids (trace st).
Proof.
  destruct (selectWorker_cases st) as [(_ & _ & ->)|(_ & ->)]; cbn [snd trace].
  - rewrite posted_ids_app, settled_ids_app. cbn. now rewrite !app_nil_r.
  - auto.
Qed.

(** What a worker's message does to the table and to the trace. *)
Lemma onmessage_cases (a : Response) (st : State) :
  let st' := onmessage a st in
  (pendingTextures st !! resp_id a = None /\
   pendingTextures st' = pendingTextures st /\
   outstandingRequests st' = outstandingRequests st - 1 /\
   trace st' = trace st ++ load_failed (error a) ++ [InvalidPendingId (resp_id a)]) \/
  (is_Some (pendingTextures st !! resp_id a) /\
   pendingTextures st' = delete (resp_id a) (pendingTextures st) /\
   ((exists err : string,
        truthy (error a) = Some err /\
        outstandingRequests st' = outstandingRequests st - 1 /\
        trace st' = trace st ++
          [DeletePending (resp_id a); ConsoleError ("Texture load failed: " ++ err)%string;
           Reject (resp_id a) err]) \/
    (truthy (error a) = None /\ materialized a = true /\
     outstandingRequests st' = outstandingRequests st - 1 /\
     trace st' = trace st ++ [DeletePending (resp_id a); Resolve (resp_id a)]) \/
    (truthy (error a) = None /\ materialized a = false /\
     outstandingRequests st' = outstandingRequests st /\
     trace st' = trace st ++ [DeletePending (resp_id a)]))).
Proof.
  unfold onmessage, onWorkerMessage.
  destruct (pendingTextures st !! resp_id a) as [p|] eqn:Hp.
  - right. split; [eauto|].
    unfold load_failed. destruct (truthy (error a)) as [err|] eqn:Herr.
    + cbn. split; [reflexivity|]. left. exists err.
      rewrite <- !app_assoc. repeat split; reflexivity.
    + destruct (materialized a); cbn; (split; [reflexivity|]); right; [left|right];
        rewrite <- ?app_assoc; repeat split; reflexivity.
  - left. cbn. repeat split; reflexivity.
Qed.

Lemma load_failed_quiet (s : option string) :
  posted_ids (load_failed s) = [] /\ settled_ids (load_failed s) = [].
Proof. unfold load_failed. destruct (truthy s); auto. Qed.

Lemma run_invariant_constructor : run_invariant constructor.
Proof.
  split; [apply invariant_constructor|].
  split; [cbn; lia|]. split; [reflexivity|]. split; [constructor|]. split.
  - intros i Hi. cbn in Hi. now apply elem_of_nil in Hi.
  - intros i [x Hx]. cbn in Hx. rewrite lookup_empty in Hx. discriminate.
Qed.

Lemma run_invariant_step (st : State) (ev : Event) :
  run_invariant st -> run_invariant (step st ev).
Proof.
  intros (Hinv & Hone & Hposted & Hnd & Hsettled & Hkeys).
  assert (forall cl formats src r, run_invariant (dispatch cl formats src r st)) as Hdispatch.
  { intros cl formats src r.
    destruct (dispatch_facts cl formats src r st Hinv)
      as (Hinv' & Htab & Hid & _ & w & pre & Hpre & Htr).
    split; [exact Hinv'|]. rewrite Hid, Htab, Htr.
    rewrite !posted_ids_app, !settled_ids_app.
    assert (posted_ids pre = [] /\ settled_ids pre = []) as [-> ->]
      by (destruct Hpre as [-> | ->]; auto).
    cbn [posted_ids settled_ids omap posted settled id app]. rewrite !app_nil_r.
    split; [lia|]. split.
    - rewrite Hposted.
      replace (nextPendingTextureId st + 1 - 1)
        with ((nextPendingTextureId st - 1) + 1) by lia.
      rewrite seqZ_app by lia. cbn.
      replace (1 + (nextPendingTextureId st - 1)) with (nextPendingTextureId st) by lia.
      reflexivity.
    - split; [exact Hnd|]. split.
      + intros i Hi. destruct (Hsettled i Hi) as [Hnone Hrange].
        split; [|lia]. rewrite lookup_insert_ne by lia. exact Hnone.
      + intros i Hi. destruct (decide (i = nextPendingTextureId st)) as [->|Hne]; [lia|].
        rewrite lookup_insert_ne in Hi by congruence. now apply Hkeys. }
  destruct ev as [cl formats url r|cl formats buffer r| |a|]; cbn [step].
  - apply Hdispatch.
  - apply Hdispatch.
  - destruct (selectWorker_trace st) as [Hp Hs].
    destruct (selectWorker_keeps_table st) as [Htab Hid].
    split; [apply invariant_selectWorker, Hinv|].
    rewrite Hp, Hs, Htab, Hid. auto.
  - split; [apply invariant_onmessage, Hinv|].
    destruct (onmessage_facts a st) as (_ & _ & _ & Hid & _).
    destruct (load_failed_quiet (error a)) as [Lp Ls].
    rewrite Hid.
    destruct (onmessage_cases a st)
      as [(Hnone & Htab & _ & Htr)|(Hsome & Htab & Hout)]; rewrite Htab.
    + rewrite Htr, !posted_ids_app, !settled_ids_app, Lp, Ls. cbn. rewrite !app_nil_r.
      auto.
    + assert (resp_id a ∉ settled_ids (trace st)) as Hfresh.
      { intros Hin. destruct (Hsettled _ Hin) as [Hnone _].
        destruct Hsome as [p Hp]. congruence. }
      assert (1 <= resp_id a < nextPendingTextureId st) as Hrange.
      { split; [now apply Hkeys|]. now apply Hinv. }
      assert (forall i, is_Some (delete (resp_id a) (pendingTextures st) !! i) -> 1 <= i)
        as Hkeys'.
      { intros i Hi. destruct (decide (resp_id a = i)) as [Heq|Hne].
        - rewrite Heq, lookup_delete_eq in Hi. destruct Hi as [x Hx]. discriminate.
        - rewrite lookup_delete_ne in Hi by exact Hne. now apply Hkeys. }
      assert (forall i, i ∈ settled_ids (trace st) ++ [resp_id a] ->
                delete (resp_id a) (pendingTextures st) !! i = None /\
                1 <= i < nextPendingTextureId st) as Hsettled'.
      { intros i Hi. apply elem_of_app in Hi as [Hi|Hi].
        - destruct (Hsettled i Hi) as [Hnone Hr]. split; [|exact Hr].
          destruct (decide (resp_id a = i)) as [Heq|Hne].
          + rewrite Heq. apply lookup_delete_eq.
          + now rewrite lookup_delete_ne.
        - apply list_elem_of_singleton in Hi as ->. split; [apply lookup_delete_eq | exact Hrange]. }
      assert (NoDup (settled_ids (trace st) ++ [resp_id a])) as Hnd'.
      { apply NoDup_app. split; [exact Hnd|]. split.
        - intros x Hx Hx'. apply list_elem_of_singleton in Hx' as ->. contradiction.
        - apply NoDup_singleton. }
      assert (forall i, i ∈ settled_ids (trace st) ->
                delete (resp_id a) (pendingTextures st) !! i = None /\
                1 <= i < nextPendingTextureId st) as Hsettled''.
      { intros i Hi. apply Hsettled'. apply elem_of_app. now left. }
      destruct Hout as [(err & _ & _ & Htr)|[(_ & _ & _ & Htr)|(_ & _ & _ & Htr)]];
        rewrite Htr, !posted_ids_app, !settled_ids_app; cbn; rewrite ?app_nil_r.
      * exact (conj Hone (conj Hposted (conj Hnd' (conj Hsettled' Hkeys')))).
      * exact (conj Hone (conj Hposted (conj Hnd' (conj Hsettled' Hkeys')))).
      * exact (conj Hone (conj Hposted (conj Hnd (conj Hsettled'' Hkeys')))).
  - rewrite destroy_without_worker by apply Hinv.
    exact (conj Hinv (conj Hone (conj Hposted (conj Hnd (conj Hsettled Hkeys))))).
Qed.

Lemma run_invariant_run (evs : list Event) (st : State) :
  run_invariant st -> run_invariant (run evs st).
Proof.
  revert st. induction evs as [|ev evs IH]; intros st Hst; cbn.
  - exact Hst.
  - apply IH, run_invariant_step, Hst.
Qed.

Lemma pending_was_posted (st : State) (i : Z) :
  run_invariant st -> is_Some (pendingTextures st !! i) -> i ∈ posted_ids (trace st).
Proof.
  intros (Hinv & _ & Hposted & _ & _ & Hkeys) Hi.
  rewrite Hposted. apply elem_of_seqZ.
  assert (i < nextPendingTextureId st) by now apply Hinv.
  specialize (Hkeys i Hi). lia.
Qed.

(** X1: in every run the messages posted carry the ids 1, 2, 3, ...
    in the order of the dispatches, up to the counter; no id is posted
    twice. *)
Theorem posted_ids_count_up (evs : list Event) :
  posted_ids (trace (run evs constructor))
  = seqZ 1 (nextPendingTextureId (run evs constructor) - 1) /\
  NoDup (posted_ids (trace (run evs constructor))).
Proof.
  destruct (run_invariant_run evs constructor run_invariant_constructor)
    as (_ & _ & Hposted & _).
  split; [exact Hposted|]. rewrite Hposted. apply NoDup_seqZ.
Qed.

(** X2: in every run no promise is resolved or rejected twice, a
    promise is settled only for an id that was posted, and a settled
    request is no longer in the table. *)
Theorem promises_settled_once (evs : list Event) :
  NoDup (settled_ids (trace (run evs constructor))) /\
  (forall i : Z,
     i ∈ settled_ids (trace (run evs constructor)) ->
     i ∈ posted_ids (trace (run evs constructor)) /\
     pendingTextures (run evs constructor) !! i = None).
Proof.
  destruct (run_invariant_run evs constructor run_invariant_constructor)
    as (_ & _ & Hposted & Hnd & Hsettled & _).
  split; [exact Hnd|]. intros i Hi. destruct (Hsettled i Hi) as [Hnone Hrange].
  split; [|exact Hnone]. rewrite Hposted. apply elem_of_seqZ. lia.
Qed.

Lemma promises_settled_once_witness :
  1 ∈ posted_ids
        (trace (run [CallFromUrl 0 [] "a.basis" sample_options;
                     WorkerMessage {| resp_id := 1; error := Some "bad";
                                      materialized := true |}]
                  constructor)) /\
  pendingTextures
    (run [CallFromUrl 0 [] "a.basis" sample_options;
          WorkerMessage {| resp_id := 1; error := Some "bad"; materialized := true |}]
       constructor) !! 1 = None.
Proof.
  apply (promises_settled_once
           [CallFromUrl 0 [] "a.basis" sample_options;
            WorkerMessage {| resp_id := 1; error := Some "bad"; materialized := true |}]).
  apply (bool_decide_unpack _). vm_compute. reflexivity.
Defined.

(** A request that is neither pending nor settled stays unsettled,
    whatever happens to the loader. *)
Lemma never_settled_later (i : Z) (evs : list Event) (st : State) :
  run_invariant st ->
  pendingTextures st !! i = None ->
  i < nextPendingTextureId st ->
  i ∉ settled_ids (trace st) ->
  i ∉ settled_ids (trace (run evs st)).
Proof.
  revert st. induction evs as [|ev evs IH]; intros st Hst Hnone Hlt Hout; cbn.
  - exact Hout.
  - pose proof Hst as (Hinv & _).
    assert (forall cl formats src r,
              pendingTextures (dispatch cl formats src r st) !! i = None /\
              i < nextPendingTextureId (dispatch cl formats src r st) /\
              i ∉ settled_ids (trace (dispatch cl formats src r st))) as Hdispatch.
    { intros cl formats src r.
      destruct (dispatch_facts cl formats src r st Hinv)
        as (_ & Htab & Hid & _ & w & pre & Hpre & Htr).
      rewrite Htab, Hid, Htr, !settled_ids_app.
      assert (settled_ids pre = []) as -> by (destruct Hpre as [-> | ->]; auto).
      cbn. rewrite app_nil_r. rewrite lookup_insert_ne by lia.
      repeat split; [exact Hnone | lia | exact Hout]. }
    apply IH; [apply run_invariant_step, Hst | | |];
      destruct ev as [cl formats url r|cl formats buffer r| |a|]; cbn [step];
      try apply Hdispatch.
    + destruct (selectWorker_keeps_table st) as [-> _]. exact Hnone.
    + destruct (onmessage_facts a st) as (_ & _ & _ & _ & [-> | ->]); [exact Hnone|].
      destruct (decide (resp_id a = i)) as [Heq|Hne].
      * rewrite Heq. apply lookup_delete_eq.
      * now rewrite lookup_delete_ne.
    + now rewrite destroy_without_worker by apply Hinv.
    + destruct (selectWorker_keeps_table st) as [_ ->]. exact Hlt.
    + destruct (onmessage_facts a st) as (_ & _ & _ & -> & _). exact Hlt.
    + now rewrite destroy_without_worker by apply Hinv.
    + destruct (selectWorker_trace st) as [_ ->]. exact Hout.
    + destruct (load_failed_quiet (error a)) as [_ Ls].
      destruct (onmessage_cases a st) as [(_ & _ & _ & Htr)|(Hsome & _ & Hcases)].
      * rewrite Htr, !settled_ids_app, Ls. cbn. now rewrite app_nil_r.
      * assert (resp_id a <> i) as Hne
          by (intros Heq; rewrite Heq in Hsome; destruct Hsome as [x Hx]; congruence).
        destruct Hcases as [(err & _ & _ & Htr)|[(_ & _ & _ & Htr)|(_ & _ & _ & Htr)]];
          rewrite Htr, settled_ids_app; cbn; rewrite ?app_nil_r;
          try exact Hout;
          (intros Hin; apply elem_of_app in Hin as [Hin|Hin]; [contradiction|];
           apply list_elem_of_singleton in Hin; congruence).
    + now rewrite destroy_without_worker by apply Hinv.
Qed.

(** X3: a response whose id was never posted, or whose promise is
    already settled, is dropped: it is logged, the counter goes down by
    one, and the table, the pool and the promises are left alone. *)
Theorem stray_response_dropped (evs : list Event) (a : Response) :
  resp_id a ∉ posted_ids (trace (run evs constructor)) \/
  resp_id a ∈ settled_ids (trace (run evs constructor)) ->
  pendingTextures (onmessage a (run evs constructor))
  = pendingTextures (run evs constructor) /\
  workerPool (onmessage a (run evs constructor)) = workerPool (run evs constructor) /\
  outstandingRequests (onmessage a (run evs constructor))
  = outstandingRequests (run evs constructor) - 1 /\
  trace (onmessage a (run evs constructor))
  = trace (run evs constructor) ++ load_failed (error a) ++ [InvalidPendingId (resp_id a)] /\
  settled_ids (trace (onmessage a (run evs constructor)))
  = settled_ids (trace (run evs constructor)).
Proof.
  intros Hstray.
  pose proof (run_invariant_run evs constructor run_invariant_constructor) as Hst.
  set (st := run evs constructor) in *.
  assert (pendingTextures st !! resp_id a = None) as Hnone.
  { destruct Hstray as [Hout|Hin].
    - destruct (pendingTextures st !! resp_id a) eqn:Hp; [|reflexivity].
      exfalso. apply Hout. apply pending_was_posted; [exact Hst | eauto].
    - destruct Hst as (_ & _ & _ & _ & Hsettled & _). now apply Hsettled. }
  destruct (onmessage_facts a st) as (Hpool & _).
  destruct (load_failed_quiet (error a)) as [_ Ls].
  destruct (onmessage_cases a st) as [(_ & Htab & Hcount & Htr)|([x Hx] & _)];
    [|congruence].
  repeat split; try assumption.
  rewrite Htr, !settled_ids_app, Ls. cbn. now rewrite app_nil_r.
Qed.

Lemma stray_response_dropped_witness :
  pendingTextures
    (onmessage {| resp_id := 9; error := None; materialized := true |}
       (run [CallFromUrl 0 [] "a.basis" sample_options] constructor))
  = pendingTextures (run [CallFromUrl 0 [] "a.basis" sample_options] constructor).
Proof.
  apply (stray_response_dropped [CallFromUrl 0 [] "a.basis" sample_options]
           {| resp_id := 9; error := None; materialized := true |}).
  left. apply (bool_decide_unpack _). vm_compute. reflexivity.
Defined.

(** X4: when [fromTextureData] throws in the handler of a response,
    the request has left the table, the counter is not decremented, and
    the promise is neither settled then nor at any later time. *)
Theorem failed_materialization_hangs (evs evs' : list Event) (a : Response) :
  is_Some (pendingTextures (run evs constructor) !! resp_id a) ->
  truthy (error a) = None ->
  materialized a = false ->
  pendingTextures (onmessage a (run evs constructor)) !! resp_id a = None /\
  outstandingRequests (onmessage a (run evs constructor))
  = outstandingRequests (run evs constructor) /\
  resp_id a ∉ settled_ids (trace (run evs' (onmessage a (run evs constructor)))).
Proof.
  intros Hsome Herr Hmat.
  pose proof (run_invariant_run evs constructor run_invariant_constructor) as Hst.
  set (st := run evs constructor) in *.
  assert (run_invariant (onmessage a st)) as Hst'
    by apply (run_invariant_step st (WorkerMessage a) Hst).
  assert (resp_id a ∉ settled_ids (trace st)) as Hout.
  { intros Hin. destruct Hst as (_ & _ & _ & _ & Hsettled & _).
    destruct (Hsettled _ Hin) as [Hnone _]. destruct Hsome as [x Hx]. congruence. }
  assert (resp_id a < nextPendingTextureId st) as Hlt.
  { destruct Hst as (Hinv & _). now apply Hinv. }
  destruct (onmessage_facts a st) as (_ & _ & _ & Hid & _).
  destruct (onmessage_cases a st) as [(Hnone & _)|(_ & Htab & Hcases)].
  { destruct Hsome as [x Hx]. congruence. }
  destruct Hcases as [(err & He & _)|[(_ & Hm & _)|(_ & _ & Hcount & Htr)]];
    [congruence | congruence |].
  assert (pendingTextures (onmessage a st) !! resp_id a = None) as Hgone
    by (rewrite Htab; apply lookup_delete_eq).
  split; [exact Hgone|]. split; [exact Hcount|].
  apply never_settled_later; [exact Hst' | exact Hgone | now rewrite Hid |].
  rewrite Htr, settled_ids_app. cbn. now rewrite app_nil_r.
Qed.

Lemma failed_materialization_hangs_witness :
  resp_id {| resp_id := 1; error := None; materialized := false |}
  ∉ settled_ids
      (trace (run [WorkerMessage {| resp_id := 1; error := None; materialized := true |}]
                (onmessage {| resp_id := 1; error := None; materialized := false |}
                   (run [CallFromUrl 0 [] "a.basis" sample_options] constructor)))).
Proof.
  apply (failed_materialization_hangs [CallFromUrl 0 [] "a.basis" sample_options]
           [WorkerMessage {| resp_id := 1; error := None; materialized := true |}]
           {| resp_id := 1; error := None; materialized := false |}).
  - vm_compute. eauto.
  - reflexivity.
  - reflexivity.
Defined.

(** A dispatch moves the pool, the cursor and the counter as
    [selectWorker] does. *)
Lemma dispatch_selects (cl : nat) (formats : list string) (src : Source) (r : Options)
    (st : State) :
  workerPool (dispatch cl formats src r st) = workerPool (snd (selectWorker st)) /\
  nextWorker (dispatch cl formats src r st) = nextWorker (snd (selectWorker st)) /\
  outstandingRequests (dispatch cl formats src r st)
  = outstandingRequests (snd (selectWorker st)).
Proof.
  unfold dispatch, selectWorker.
  cbn [workerPool outstandingRequests nextWorker pendingTextures nextPendingTextureId
       worker trace].
  destruct (bool_decide (Z.of_nat (length (workerPool st)) <= outstandingRequests st + 1)
            && bool_decide (Z.of_nat (length (workerPool st)) < MAX_WORKER_POOL_SIZE)).
  - cbn. auto.
  - destruct (array_get (workerPool st)
                (Z.rem (nextWorker st) (Z.of_nat (length (workerPool st))))); cbn; auto.
Qed.

Lemma request_selects (st : State) (ev : Event) :
  is_request ev ->
  workerPool (step st ev) = workerPool (snd (selectWorker st)) /\
  nextWorker (step st ev) = nextWorker (snd (selectWorker st)) /\
  outstandingRequests (step st ev) = outstandingRequests (snd (selectWorker st)).
Proof.
  destruct ev; cbn [is_request step]; intros Hreq; try contradiction.
  - apply dispatch_selects.
  - apply dispatch_selects.
  - auto.
Qed.

Lemma seq_lookup_Z (len : nat) (k : Z) :
  0 <= k < Z.of_nat len -> array_get (seq 0 len) k = Some (Z.to_nat k).
Proof.
  intros Hk. unfold array_get. destruct (decide (0 <= k)) as [_|Hneg]; [|lia].
  rewrite lookup_seq_lt by lia. reflexivity.
Qed.

(** X5: on a new pool, as long as no response comes in, every request
    up to the third creates a worker, so the pool has
    [min (n + 1) 4] workers after [n] requests and the worker of the
    constructor gets none of the first three; from the fourth request
    on the workers are taken in turn, starting with that first
    worker. *)
Theorem pool_fills_then_rotates (evs : list Event) :
  Forall is_request evs ->
  let n := Z.of_nat (length evs) in
  let st := run evs constructor in
  workerPool st = seq 0 (Z.to_nat (Z.min (n + 1) 4)) /\
  outstandingRequests st = n /\
  nextWorker st = Z.max 0 (n - 3) /\
  fst (selectWorker st)
  = Some (Z.to_nat (if decide (n < 3) then n + 1 else (n - 3) mod 4)).
Proof.
  intros Hreq n st.
  assert (workerPool st = seq 0 (Z.to_nat (Z.min (n + 1) 4)) /\
          outstandingRequests st = n /\ nextWorker st = Z.max 0 (n - 3)) as Hstate.
  { subst n st. induction evs as [|ev evs IH] using rev_ind.
    - cbn. auto.
    - apply Forall_app in Hreq as [Hreq Hev]. apply Forall_cons in Hev as [Hev _].
      destruct (IH Hreq) as (Hpool & Hout & Hnext). clear IH.
      rewrite run_snoc, length_app. cbn [length].
      destruct (request_selects (run evs constructor) ev Hev) as (-> & -> & ->).
      replace (Z.of_nat (length evs + 1)) with (Z.of_nat (length evs) + 1) by lia.
      assert (0 <= Z.of_nat (length evs)) as Hm by lia.
      revert Hpool Hout Hnext Hm. generalize (Z.of_nat (length evs)). intros m Hpool Hout Hnext Hm.
      destruct (selectWorker_cases (run evs constructor))
        as [(H1 & H2 & ->)|(Hn & ->)]; cbn [snd workerPool outstandingRequests nextWorker];
        rewrite Hpool in *; rewrite length_seq in *; unfold MAX_WORKER_POOL_SIZE in *.
      + assert (m < 3) by lia.
        replace (Z.to_nat (Z.min (m + 1 + 1) 4)) with (S (Z.to_nat (Z.min (m + 1) 4))) by lia.
        rewrite seq_S. split; [reflexivity|]. split; lia.
      + assert (3 <= m) by lia.
        replace (Z.to_nat (Z.min (m + 1 + 1) 4)) with (Z.to_nat (Z.min (m + 1) 4)) by lia.
        split; [reflexivity|]. split; lia. }
  destruct Hstate as (Hpool & Hout & Hnext).
  assert (0 <= n) as Hn0 by (subst n; lia).
  clearbody st n. clear Hreq.
  repeat split; try assumption.
  destruct (selectWorker_cases st) as [(H1 & H2 & ->)|(Hn & ->)]; cbn [fst];
    rewrite Hpool in *; rewrite length_seq in *; unfold MAX_WORKER_POOL_SIZE in *.
  - destruct (decide (n < 3)) as [_|Hge]; [|lia]. f_equal. lia.
  - destruct (decide (n < 3)) as [Hlt|_]; [lia|].
    rewrite Hnext. replace (Z.min (n + 1) 4) with 4 by lia.
    rewrite Z.rem_mod_nonneg by lia.
    replace (Z.max 0 (n - 3)) with (n - 3) by lia.
    apply (seq_lookup_Z 4). apply Z.mod_pos_bound. lia.
Qed.

Lemma pool_fills_then_rotates_witness :
  fst (selectWorker
         (run [CallFromUrl 0 [] "a.basis" sample_options; CallSelectWorker;
               CallFromBuffer 0 [] [1; 2] sample_options; CallSelectWorker;
               CallSelectWorker] constructor))
  = Some 2%nat.
Proof.
  apply (pool_fills_then_rotates
           [CallFromUrl 0 [] "a.basis" sample_options; CallSelectWorker;
            CallFromBuffer 0 [] [1; 2] sample_options; CallSelectWorker;
            CallSelectWorker]).
  repeat constructor.
Defined.

End PoolRuns.

(** ** Levels and slices of texture data *)

Section TextureLevels.

Import Gpu TextureData SliceView.

Lemma sar_small (a : Z) (t : nat) :
  0 <= a < 2 ^ 31 -> (t < 32)%nat -> sar a (Z.of_nat t) = a / 2 ^ Z.of_nat t.
Proof.
  intros Ha Ht. unfold sar.
  change (2 ^ 31) with 2147483648 in *. change (2 ^ 32) with 4294967296.
  rewrite (Z.mod_small (a + 2147483648)) by lia.
  rewrite (Z.mod_small (Z.of_nat t)) by lia.
  replace (a + 2147483648 - 2147483648) with a by lia.
  apply Z.shiftr_div_pow2. lia.
Qed.

(** X6: [getLevel] creates a level on first access and returns the
    stored level ever after, whatever options a later call passes; no
    other level is touched. *)
Theorem getLevel_cached (e : nat) (t t' : LevelOptions) (this : WebTextureData) :
  getLevel e t' (snd (getLevel e t this)) = getLevel e t this /\
  element (levels (snd (getLevel e t this))) e = Some (fst (getLevel e t this)) /\
  forall j : nat,
    j <> e ->
    element (levels (snd (getLevel e t this))) j = element (levels this) j.
Proof.
  destruct (element (levels this) e) as [r|] eqn:He.
  - assert (getLevel e t this = (r, this)) as ->
      by (unfold getLevel; now rewrite He).
    cbn [fst snd]. split; [|split; [exact He | reflexivity]].
    unfold getLevel. now rewrite He.
  - assert (getLevel e t this
            = (newLevel this e t,
               {| data_format := data_format this; data_width := data_width this;
                  data_height := data_height this;
                  levels := assign (levels this) e (newLevel this e t) |})) as ->
      by (unfold getLevel; now rewrite He).
    cbn [fst snd levels]. split; [|split].
    + unfold getLevel. cbn [levels]. now rewrite element_assign_eq.
    + apply element_assign_eq.
    + intros j Hj. now apply element_assign_ne.
Qed.

Lemma getLevel_cached_witness :
  element
    (levels (snd (getLevel 2 no_level_options
                    {| data_format := "rgba8unorm"; data_width := 8; data_height := 8;
                       levels := [] |}))) 0
  = None.
Proof.
  destruct (getLevel_cached 2 no_level_options no_level_options
              {| data_format := "rgba8unorm"; data_width := 8; data_height := 8;
                 levels := [] |}) as (_ & _ & Hother).
  rewrite Hother; [reflexivity | lia].
Defined.

Lemma newLevel_sides (td : WebTextureData) (t : nat) :
  0 <= data_width td < 2 ^ 31 -> 0 <= data_height td < 2 ^ 31 -> (t < 32)%nat ->
  level_width (newLevel td t no_level_options) = Z.max 1 (data_width td / 2 ^ Z.of_nat t) /\
  level_height (newLevel td t no_level_options)
  = Z.max 1 (data_height td / 2 ^ Z.of_nat t).
Proof.
  intros Hw Hh Ht.
  unfold newLevel; cbn [level_width level_height opt_width opt_height Js.or_num].
  now rewrite !sar_small.
Qed.

(** X7: without options, level [t] of a texture whose sides are below
    [2^31] is the base size divided by [2^t], rounded down and at least
    1; the shift count is taken modulo 32, so level [t + 32] has the
    size of level [t]; a width option other than 0 replaces the
    default and a width option 0 does not. *)
Theorem newLevel_dimensions (td : WebTextureData) (t : nat) :
  (0 <= data_width td < 2 ^ 31 -> 0 <= data_height td < 2 ^ 31 -> (t < 32)%nat ->
   level_width (newLevel td t no_level_options) = Z.max 1 (data_width td / 2 ^ Z.of_nat t) /\
   level_height (newLevel td t no_level_options)
   = Z.max 1 (data_height td / 2 ^ Z.of_nat t)) /\
  (level_width (newLevel td (t + 32) no_level_options)
   = level_width (newLevel td t no_level_options) /\
   level_height (newLevel td (t + 32) no_level_options)
   = level_height (newLevel td t no_level_options)) /\
  (forall v h : Z,
     v <> 0 ->
     level_width (newLevel td t {| opt_width := Some v; opt_height := Some h |})
     = Z.max 1 v) /\
  (forall h : Z,
     level_width (newLevel td t {| opt_width := Some 0; opt_height := Some h |})
     = level_width (newLevel td t no_level_options)).
Proof.
  split; [|split; [|split]].
  - apply newLevel_sides.
  - unfold newLevel, sar;
      cbn [level_width level_height opt_width opt_height Js.or_num].
    replace (Z.of_nat (t + 32) mod 32) with (Z.of_nat t mod 32); [split; reflexivity|].
    rewrite Nat2Z.inj_add. change (Z.of_nat 32) with (1 * 32).
    now rewrite Z.mod_add.
  - intros v h Hv. unfold newLevel; cbn [level_width opt_width Js.or_num].
    destruct (decide (v = 0)) as [Hz|_]; [contradiction | reflexivity].
  - intros h. reflexivity.
Qed.

Lemma newLevel_dimensions_witness :
  level_width
    (newLevel {| data_format := "rgba8unorm"; data_width := 257; data_height := 100;
                 levels := [] |} 3 no_level_options) = Z.max 1 (257 / 2 ^ 3) /\
  level_height
    (newLevel {| data_format := "rgba8unorm"; data_width := 257; data_height := 100;
                 levels := [] |} 3 no_level_options) = Z.max 1 (100 / 2 ^ 3).
Proof.
  apply (newLevel_dimensions
           {| data_format := "rgba8unorm"; data_width := 257; data_height := 100;
              levels := [] |} 3); cbn; lia.
Defined.

Lemma div_pow2_top (m : Z) :
  0 < m -> m / 2 ^ Z.log2 m = 1.
Proof.
  intros Hm. destruct (Z.log2_spec m Hm) as [Hlo Hhi].
  rewrite Z.pow_succ_r in Hhi by apply Z.log2_nonneg.
  symmetry. apply (Z.div_unique m (2 ^ Z.log2 m) 1 (m - 2 ^ Z.log2 m)); lia.
Qed.

Lemma div_pow2_below (m t : Z) :
  0 < m -> 0 <= t < Z.log2 m -> 2 <= m / 2 ^ t.
Proof.
  intros Hm Ht. destruct (Z.log2_spec m Hm) as [Hlo _].
  assert (0 < 2 ^ t) by (apply Z.pow_pos_nonneg; lia).
  apply Z.div_le_lower_bound; [lia|].
  replace (Z.log2 m) with (t + 1 + (Z.log2 m - t - 1)) in Hlo by lia.
  rewrite Z.pow_add_r, Z.pow_add_r in Hlo by lia.
  assert (0 < 2 ^ (Z.log2 m - t - 1)) by (apply Z.pow_pos_nonneg; lia).
  change (2 ^ 1) with 2 in Hlo. nia.
Qed.

(** X8: for a texture of positive sides below [2^31], the chain that
    [calculateMipLevels] counts ends exactly at the 1 by 1 level: the
    last level of the chain is 1 by 1 and every level before it has a
    side of at least 2. *)
Theorem mip_chain_ends_at_one (td : WebTextureData) (t : nat) :
  0 < data_width td < 2 ^ 31 ->
  0 < data_height td < 2 ^ 31 ->
  exists n : Z,
    calculateMipLevels (data_width td) (data_height td) = Js.Int n /\
    level_width (newLevel td (Z.to_nat (n - 1)) no_level_options) = 1 /\
    level_height (newLevel td (Z.to_nat (n - 1)) no_level_options) = 1 /\
    (Z.of_nat t < n - 1 ->
     2 <= Z.max (level_width (newLevel td t no_level_options))
            (level_height (newLevel td t no_level_options))).
Proof.
  intros Hw Hh.
  set (m := Z.max (data_width td) (data_height td)).
  assert (0 < m < 2 ^ 31) as Hm by (subst m; lia).
  exists (Z.log2 m + 1). split.
  { unfold calculateMipLevels. cbv zeta. fold m.
    destruct (Z.ltb_spec 0 m) as [_|Hle]; [|lia].
    rewrite floor_log2_exact; [reflexivity | lia]. }
  assert (0 <= Z.log2 m < 31) as Hk.
  { split; [apply Z.log2_nonneg|]. apply Z.log2_lt_pow2; lia. }
  replace (Z.log2 m + 1 - 1) with (Z.log2 m) by lia.
  assert (0 < 2 ^ Z.log2 m) as Hpos by (apply Z.pow_pos_nonneg; lia).
  pose proof (div_pow2_top m (proj1 Hm)) as Htop.
  pose proof (newLevel_sides td (Z.to_nat (Z.log2 m))) as Hdim.
  destruct Hdim as [Hlw Hlh]; [lia | lia | lia |].
  rewrite Z2Nat.id in Hlw, Hlh by lia.
  split; [|split].
  - rewrite Hlw.
    assert (data_width td / 2 ^ Z.log2 m <= m / 2 ^ Z.log2 m)
      by (apply Z.div_le_mono; subst m; lia).
    assert (0 <= data_width td / 2 ^ Z.log2 m) by (apply Z.div_pos; lia).
    lia.
  - rewrite Hlh.
    assert (data_height td / 2 ^ Z.log2 m <= m / 2 ^ Z.log2 m)
      by (apply Z.div_le_mono; subst m; lia).
    assert (0 <= data_height td / 2 ^ Z.log2 m) by (apply Z.div_pos; lia).
    lia.
  - intros Ht.
    pose proof (newLevel_sides td t) as Hdim.
    destruct Hdim as [Htw Hth]; [lia | lia | lia |].
    rewrite Htw, Hth.
    pose proof (div_pow2_below m (Z.of_nat t) (proj1 Hm)) as Hbelow.
    destruct (Z.max_spec (data_width td) (data_height td)) as [[_ Hmax]|[_ Hmax]];
      fold m in Hmax; rewrite <- Hmax; specialize (Hbelow ltac:(lia)); lia.
Qed.

Lemma mip_chain_ends_at_one_witness :
  exists n : Z,
    calculateMipLevels 64 64 = Js.Int n /\
    level_width
      (newLevel {| data_format := "rgba8unorm"; data_width := 64; data_height := 64;
                   levels := [] |} (Z.to_nat (n - 1)) no_level_options) = 1 /\
    level_height
      (newLevel {| data_format := "rgba8unorm"; data_width := 64; data_height := 64;
                   levels := [] |} (Z.to_nat (n - 1)) no_level_options) = 1 /\
    (5 < n - 1 ->
     2 <= Z.max
            (level_width
               (newLevel {| data_format := "rgba8unorm"; data_width := 64;
                            data_height := 64; levels := [] |} 5 no_level_options))
            (level_height
               (newLevel {| data_format := "rgba8unorm"; data_width := 64;
                            data_height := 64; levels := [] |} 5 no_level_options))).
Proof.
  apply (mip_chain_ends_at_one
           {| data_format := "rgba8unorm"; data_width := 64; data_height := 64;
              levels := [] |} 5); cbn; lia.
Defined.

Lemma setSlice_stores (e : nat) (t : BufferSource) (r : SliceOptions)
    (this : WebTextureLevelData) :
  element (slices this) e = None ->
  let o := Js.or_num (opt_byteOffset r) 0 in
  let s := Js.or_num (opt_byteLength r) 0 in
  element (slices (snd (setSlice e t r this))) e
  = Some match t with
         | ArrayBuffer bytes =>
             {| buffer := bytes; byteOffset := o;
                byteLength := if decide (s = 0) then Z.of_nat (length bytes) - o else s |}
         | ArrayBufferView bytes viewOffset viewLength =>
             {| buffer := bytes; byteOffset := o + viewOffset;
                byteLength := if decide (s = 0) then viewLength - o else s |}
         end.
Proof.
  intros Hfree o s. unfold setSlice. rewrite Hfree. cbn [snd slices].
  now rewrite element_assign_eq.
Qed.

Lemma source_bytes_length (t : BufferSource) :
  well_formed t ->
  length (source_bytes t)
  = match t with
    | ArrayBuffer bytes => length bytes
    | ArrayBufferView _ _ viewLength => Z.to_nat viewLength
    end.
Proof.
  destruct t as [bytes|bytes vo vl]; cbn [source_bytes well_formed]; [reflexivity|].
  intros (Hvo & Hvl & Hin). rewrite length_take, length_drop. lia.
Qed.

(** X9: a slice set on a free index reads back the data it was given:
    with an offset [o] and no length (or length 0) it stands for the
    source from byte [o] on, with a length [s] for [s] bytes from [o]
    on; without options it stands for exactly the bytes of the source,
    also when the source is a typed array in the middle of a buffer. *)
Theorem setSlice_round_trip (e : nat) (t : BufferSource) (r : SliceOptions)
    (this : WebTextureLevelData) :
  element (slices this) e = None ->
  well_formed t ->
  let o := Js.or_num (opt_byteOffset r) 0 in
  let s := Js.or_num (opt_byteLength r) 0 in
  0 <= o -> 0 <= s -> o + s <= Z.of_nat (length (source_bytes t)) ->
  exists sl : Slice,
    element (slices (snd (setSlice e t r this))) e = Some sl /\
    slice_bytes sl
    = (if decide (s = 0) then drop (Z.to_nat o) (source_bytes t)
       else take (Z.to_nat s) (drop (Z.to_nat o) (source_bytes t))) /\
    (r = no_slice_options ->
     slice_bytes sl = source_bytes t /\
     byteLength sl = Z.of_nat (length (source_bytes t))).
Proof.
  intros Hfree Hwf o s Ho Hs Hfit.
  pose proof (source_bytes_length t Hwf) as Hlen.
  eexists. split; [apply setSlice_stores, Hfree|]. fold o s.
  assert (r = no_slice_options -> o = 0 /\ s = 0) as Hplain
    by (intros ->; split; reflexivity).
  clearbody o s.
  assert (forall sl : Slice,
            (slice_bytes sl
             = (if decide (s = 0) then drop (Z.to_nat o) (source_bytes t)
                else take (Z.to_nat s) (drop (Z.to_nat o) (source_bytes t)))) ->
            (o = 0 -> s = 0 -> byteLength sl = Z.of_nat (length (source_bytes t))) ->
            slice_bytes sl
            = (if decide (s = 0) then drop (Z.to_nat o) (source_bytes t)
               else take (Z.to_nat s) (drop (Z.to_nat o) (source_bytes t))) /\
            (r = no_slice_options ->
             slice_bytes sl = source_bytes t /\
             byteLength sl = Z.of_nat (length (source_bytes t)))) as Hwrap.
  { intros sl Hbytes Hbl. split; [exact Hbytes|]. intros Hr.
    destruct (Hplain Hr) as [-> ->].
    split; [|now apply Hbl]. rewrite Hbytes.
    destruct (decide (0 = 0)) as [_|Hne]; [apply drop_0 | contradiction]. }
  destruct t as [bytes|bytes vo vl]; cbn [source_bytes well_formed] in *;
    apply Hwrap; unfold slice_bytes; cbn [buffer byteOffset byteLength].
  - destruct (decide (s = 0)) as [Hz|Hnz]; [|reflexivity].
    apply take_ge. rewrite length_drop. lia.
  - intros -> ->. destruct (decide (0 = 0)) as [_|Hne]; [lia | contradiction].
  - destruct Hwf as (Hvo & Hvl & Hin).
    replace (Z.to_nat (o + vo)) with (Z.to_nat vo + Z.to_nat o)%nat by lia.
    rewrite <- drop_drop, skipn_firstn_comm.
    destruct (decide (s = 0)) as [Hz|Hnz].
    + f_equal. lia.
    + rewrite take_take. f_equal. lia.
  - intros -> ->. destruct (decide (0 = 0)) as [_|Hne]; [lia | contradiction].
Qed.

Lemma setSlice_round_trip_witness :
  exists sl : Slice,
    element
      (slices
         (snd (setSlice 0 (ArrayBufferView [10; 11; 12; 13; 14; 15] 2 3)
                 {| opt_byteOffset := Some 1; opt_byteLength := None |}
                 {| levelIndex := 0; level_width := 1; level_height := 1; slices := [] |})))
      0 = Some sl /\
    slice_bytes sl = [13; 14].
Proof.
  destruct (setSlice_round_trip 0 (ArrayBufferView [10; 11; 12; 13; 14; 15] 2 3)
              {| opt_byteOffset := Some 1; opt_byteLength := None |}
              {| levelIndex := 0; level_width := 1; level_height := 1; slices := [] |})
    as (sl & Hsl & Hbytes & _);
    [reflexivity | vm_compute; repeat split; easy | vm_compute; easy | vm_compute; easy
    | vm_compute; easy |].
  exists sl. split; [exact Hsl | exact Hbytes].
Defined.

(** X10: the constructor of the texture data never throws: the data it
    is given becomes slice 0 of level 0, the only level; the sides are
    raised to at least 1, and for sides below [2^31] level 0 has the
    sides of the texture. *)
Theorem newTextureData_one_level (e : string) (t r : Z) (data : BufferSource)
    (s : SliceOptions) :
  exists (td : WebTextureData) (lvl : WebTextureLevelData) (sl : Slice),
    newTextureData e t r (Some data) s = Ok td /\
    data_format td = e /\
    data_width td = Z.max 1 t /\
    data_height td = Z.max 1 r /\
    levels td = [Some lvl] /\
    levelIndex lvl = 0 /\
    slices lvl = [Some sl] /\
    buffer sl = match data with
                | ArrayBuffer bytes => bytes
                | ArrayBufferView bytes _ _ => bytes
                end /\
    (t < 2 ^ 31 -> r < 2 ^ 31 ->
     level_width lvl = data_width td /\ level_height lvl = data_height td).
Proof.
  unfold newTextureData, getLevel; cbn [levels element lookup].
  unfold setSlice; cbn [newLevel slices element].
  eexists _, _, _. split; [reflexivity|]. cbn.
  repeat (split; [reflexivity|]). split; [destruct data; reflexivity|].
  intros Ht Hr.
  pose proof (newLevel_sides
                {| data_format := e; data_width := Z.max 1 t; data_height := Z.max 1 r;
                   levels := [] |} 0) as Hdim.
  destruct Hdim as [Hw Hh]; cbn [data_width data_height]; [lia | lia | lia |].
  unfold newLevel in Hw, Hh. cbn in Hw, Hh. cbn.
  rewrite Hw, Hh. rewrite !Z.div_1_r. lia.
Qed.

Lemma newTextureData_one_level_witness :
  exists (td : WebTextureData) (lvl : WebTextureLevelData),
    newTextureData "rgba8unorm" 0 3 (Some (ArrayBuffer [1; 2; 3; 4])) no_slice_options
    = Ok td /\
    levels td = [Some lvl] /\
    level_width lvl = 1 /\ level_height lvl = 3.
Proof.
  destruct (newTextureData_one_level "rgba8unorm" 0 3 (ArrayBuffer [1; 2; 3; 4])
              no_slice_options)
    as (td & lvl & sl & Hok & _ & Hw & Hh & Hl & _ & _ & _ & Hdim).
  destruct Hdim as [Hlw Hlh]; [cbn; lia | cbn; lia |].
  exists td, lvl. rewrite Hlw, Hlh, Hw, Hh. repeat split; assumption.
Defined.

End TextureLevels.

(** ** Formats: what a client supports and what is chosen for it *)

Section Formats.

Import ClientFormats.

Lemma indexOf_present (l : list string) (x : string) :
  bool_decide (-1 < Js.indexOf l x) = true <-> x ∈ l.
Proof.
  rewrite bool_decide_eq_true. split.
  - intros Hlt. destruct (decide (x ∈ l)) as [Hin|Hout]; [exact Hin|].
    apply indexOf_absent in Hout. lia.
  - intros Hin. destruct (indexOf_from_lower l x 0) as [Habs|Hge]; [|unfold Js.indexOf; lia].
    apply indexOf_absent in Habs. contradiction.
Qed.

Lemma baseline_supported (allow : bool) (features : option (gset string)) :
  "rgba8unorm" ∈ supportedFormats allow features.
Proof.
  unfold supportedFormats, supportedFormatList, uncompressedFormatList.
  destruct allow; [apply elem_of_app; left|]; constructor.
Qed.

(** X11: whatever the features of the device and whatever format the
    MIME type asks for (or none, for an unknown MIME type), the format
    the image loader hands to the client is in the client's
    [supportedFormatList]. *)
Theorem negotiated_format_supported (features : option (gset string)) (o : option string) :
  exists f : string,
    ImageLoader.negotiate (supportedFormatList features) o = Some f /\
    f ∈ supportedFormatList features.
Proof.
  unfold ImageLoader.negotiate.
  destruct (decide (Js.indexOf_opt (supportedFormatList features) o = -1)) as [Habs|Hpres].
  - exists "rgba8unorm". split; [reflexivity|]. apply (baseline_supported true).
  - destruct o as [f|]; [|contradiction]. exists f. split; [reflexivity|].
    destruct (decide (f ∈ supportedFormatList features)) as [Hin|Hout]; [exact Hin|].
    apply indexOf_absent in Hout. contradiction.
Qed.

Lemma basis_supported_in (S : list string) (f : BasisWorker.BasisFormat) :
  BasisWorker.supportedFormats S f = true ->
  exists wtt : BasisWorker.WttFormat,
    BasisWorker.WTT_FORMAT_MAP f = Some wtt /\ BasisWorker.format wtt ∈ S.
Proof.
  unfold BasisWorker.supportedFormats.
  destruct (BasisWorker.WTT_FORMAT_MAP f) as [wtt|]; [|discriminate].
  intros H. exists wtt. split; [reflexivity|]. now apply indexOf_present.
Qed.

(** X12: the Basis worker always selects a format its table maps, so
    the check for an undefined format that follows the selection never
    fires; the format is one the device supports or else raw
    [cTFRGBA32], which is taken without looking at the list; when the
    list holds ["rgba8unorm"] the selected format is always in the
    list. *)
Theorem basis_output_supported (S : list string) (hasAlpha : bool) :
  exists wtt : BasisWorker.WttFormat,
    BasisWorker.WTT_FORMAT_MAP
      (BasisWorker.select hasAlpha (BasisWorker.supportedFormats S)) = Some wtt /\
    (BasisWorker.format wtt ∈ S \/
     BasisWorker.select hasAlpha (BasisWorker.supportedFormats S) = BasisWorker.cTFRGBA32) /\
    ("rgba8unorm" ∈ S -> BasisWorker.format wtt ∈ S).
Proof.
  assert (forall f : BasisWorker.BasisFormat,
            BasisWorker.supportedFormats S f = true ->
            exists wtt : BasisWorker.WttFormat,
              BasisWorker.WTT_FORMAT_MAP f = Some wtt /\
              (BasisWorker.format wtt ∈ S \/ f = BasisWorker.cTFRGBA32) /\
              ("rgba8unorm" ∈ S -> BasisWorker.format wtt ∈ S)) as Hpick.
  { intros f Hf. destruct (basis_supported_in S f Hf) as (wtt & Hmap & Hin).
    exists wtt. auto. }
  assert (exists wtt : BasisWorker.WttFormat,
            BasisWorker.WTT_FORMAT_MAP BasisWorker.cTFRGBA32 = Some wtt /\
            (BasisWorker.format wtt ∈ S \/ BasisWorker.cTFRGBA32 = BasisWorker.cTFRGBA32) /\
            ("rgba8unorm" ∈ S -> BasisWorker.format wtt ∈ S)) as Hraw.
  { eexists. split; [reflexivity|]. cbn. auto. }
  unfold BasisWorker.select. destruct hasAlpha;
    repeat match goal with
    | |- context [if BasisWorker.supportedFormats S ?f then _ else _] =>
        destruct (BasisWorker.supportedFormats S f) eqn:?; [now apply Hpick|]
    end; exact Hraw.
Qed.

Lemma basis_output_supported_witness :
  exists wtt : BasisWorker.WttFormat,
    BasisWorker.WTT_FORMAT_MAP
      (BasisWorker.select true
         (BasisWorker.supportedFormats ["rgba8unorm"; "bc3-rgba-unorm"])) = Some wtt /\
    BasisWorker.format wtt ∈ ["rgba8unorm"; "bc3-rgba-unorm"].
Proof.
  destruct (basis_output_supported ["rgba8unorm"; "bc3-rgba-unorm"] true)
    as (wtt & Hmap & _ & Hin).
  exists wtt. split; [exact Hmap|]. apply Hin. constructor.
Defined.

Lemma first_supported_spec (preference : list KtxWorker.Target) (S : list string) :
  match KtxWorker.first_supported preference S with
  | Some t =>
      KtxWorker.format (KtxWorker.WTT_FORMAT_MAP t) ∈ S /\
      exists pre post : list KtxWorker.Target,
        preference = pre ++ t :: post /\
        Forall (fun u => KtxWorker.format (KtxWorker.WTT_FORMAT_MAP u) ∉ S) pre
  | None => Forall (fun u => KtxWorker.format (KtxWorker.WTT_FORMAT_MAP u) ∉ S) preference
  end.
Proof.
  induction preference as [|u rest IH]; cbn [KtxWorker.first_supported].
  - constructor.
  - destruct (bool_decide (-1 < Js.indexOf S (KtxWorker.format (KtxWorker.WTT_FORMAT_MAP u))))
      eqn:Hu.
    + apply indexOf_present in Hu. split; [exact Hu|].
      exists [], rest. split; [reflexivity | constructor].
    + assert (KtxWorker.format (KtxWorker.WTT_FORMAT_MAP u) ∉ S) as Hout.
      { intros Hin. apply indexOf_present in Hin. congruence. }
      destruct (KtxWorker.first_supported rest S) as [t|].
      * destruct IH as (Hin & pre & post & -> & Hpre). split; [exact Hin|].
        exists (u :: pre), post. split; [reflexivity | now constructor].
      * now constructor.
Qed.

(** X13: the KTX worker transcodes to the first target of
    [alphaFormatPreference] whose format the device supports: the
    format it reports is in the list and no earlier target is
    supported; it fails with "No appropriate transcode format found."
    exactly when none of the six targets is supported, so never when
    the list holds ["rgba8unorm"]. *)
Theorem ktx_choice_first_supported (S : list string) :
  (forall (t : KtxWorker.Target) (fmt : string),
     KtxWorker.parseFile_choice {| KtxWorker.needsTranscoding := true |} S
     = KtxWorker.Transcode t fmt ->
     fmt = KtxWorker.format (KtxWorker.WTT_FORMAT_MAP t) /\
     fmt ∈ S /\
     exists pre post : list KtxWorker.Target,
       KtxWorker.alphaFormatPreference = pre ++ t :: post /\
       Forall (fun u => KtxWorker.format (KtxWorker.WTT_FORMAT_MAP u) ∉ S) pre) /\
  (KtxWorker.parseFile_choice {| KtxWorker.needsTranscoding := true |} S
   = KtxWorker.Fail "No appropriate transcode format found." <->
   Forall (fun u => KtxWorker.format (KtxWorker.WTT_FORMAT_MAP u) ∉ S)
     KtxWorker.alphaFormatPreference) /\
  ("rgba8unorm" ∈ S ->
   exists (t : KtxWorker.Target) (fmt : string),
     KtxWorker.parseFile_choice {| KtxWorker.needsTranscoding := true |} S
     = KtxWorker.Transcode t fmt).
Proof.
  pose proof (first_supported_spec KtxWorker.alphaFormatPreference S) as Hspec.
  unfold KtxWorker.parseFile_choice; cbn [KtxWorker.needsTranscoding].
  destruct (KtxWorker.first_supported KtxWorker.alphaFormatPreference S) as [t0|].
  - destruct Hspec as (Hin & pre & post & Hsplit & Hpre).
    split; [|split].
    + intros t fmt Heq. injection Heq as <- <-. split; [reflexivity|].
      split; [exact Hin|]. eauto.
    + split; [discriminate|]. intros Hall. exfalso.
      rewrite Hsplit in Hall. apply Forall_app in Hall as [_ Hall].
      apply Forall_cons in Hall as [Hout _]. contradiction.
    + eauto.
  - split; [|split].
    + discriminate.
    + split; [intros _; exact Hspec | reflexivity].
    + intros Hbase. exfalso.
      assert (KtxWorker.RGBA32 ∈ KtxWorker.alphaFormatPreference) as Hmem
        by (unfold KtxWorker.alphaFormatPreference; repeat constructor).
      rewrite Forall_forall in Hspec. exact (Hspec _ Hmem Hbase).
Qed.

Lemma ktx_choice_first_supported_witness :
  exists (t : KtxWorker.Target) (fmt : string),
    KtxWorker.parseFile_choice {| KtxWorker.needsTranscoding := true |}
      ["bc3-rgba-unorm"; "rgba8unorm"]
    = KtxWorker.Transcode t fmt.
Proof.
  apply (ktx_choice_first_supported ["bc3-rgba-unorm"; "rgba8unorm"]).
  apply (bool_decide_unpack _). reflexivity.
Defined.

(** X14: with the lists of the WebGPU client, both workers choose the
    same way for files with and without alpha: BC7 when the device has
    the feature "texture-compression-bc" and compressed formats are
    allowed, raw RGBA pixels otherwise. *)
Theorem webgpu_transcode_target (allow : bool) (features : option (gset string))
    (hasAlpha : bool) :
  BasisWorker.select hasAlpha
    (BasisWorker.supportedFormats (supportedFormats allow features))
  = (if uses_bc allow features then BasisWorker.cTFBC7_RGBA else BasisWorker.cTFRGBA32) /\
  KtxWorker.parseFile_choice {| KtxWorker.needsTranscoding := true |}
    (supportedFormats allow features)
  = (if uses_bc allow features
     then KtxWorker.Transcode KtxWorker.BC7_M5_RGBA "bc7-rgba-unorm"
     else KtxWorker.Transcode KtxWorker.RGBA32 "rgba8unorm").
Proof.
  unfold supportedFormats, supportedFormatList, uses_bc.
  destruct allow; [|destruct hasAlpha; split; reflexivity].
  destruct features as [t|]; [|destruct hasAlpha; split; reflexivity].
  destruct (decide ("texture-compression-bc" ∈ t)) as [Hin|Hout].
  - rewrite (bool_decide_eq_true_2 _ Hin). destruct hasAlpha; split; reflexivity.
  - rewrite (bool_decide_eq_false_2 _ Hout). destruct hasAlpha; split; reflexivity.
Qed.

Lemma srgb_to_linear (a b : string) :
  Client.SRGB_FORMAT a = Some b -> Client.LINEAR_FORMAT b = Some a.
Proof.
  unfold Client.SRGB_FORMAT. intros H.
  repeat case_decide; try discriminate; injection H as <-; subst; reflexivity.
Qed.

Lemma linear_to_srgb (a b : string) :
  Client.LINEAR_FORMAT b = Some a -> Client.SRGB_FORMAT a = Some b.
Proof.
  unfold Client.LINEAR_FORMAT. intros H.
  repeat case_decide; try discriminate; injection H as <-; subst; reflexivity.
Qed.

(** X15: the two tables between a format and its sRGB variant are
    inverse to each other, so for a format [a] with the sRGB variant
    [b], asking for sRGB gives [b] from either of them and asking for
    linear gives [a] from either of them. *)
Theorem resolveFormat_pairs (a b : string) :
  (Client.SRGB_FORMAT a = Some b <-> Client.LINEAR_FORMAT b = Some a) /\
  (Client.SRGB_FORMAT a = Some b ->
   Client.resolveFormat a (Some "sRGB") = b /\
   Client.resolveFormat b (Some "sRGB") = b /\
   Client.resolveFormat b (Some "linear") = a /\
   Client.resolveFormat a (Some "linear") = a).
Proof.
  split; [split; [apply srgb_to_linear | apply linear_to_srgb]|].
  intros H. pose proof (srgb_to_linear a b H) as H'.
  unfold Client.SRGB_FORMAT in H.
  repeat case_decide; try discriminate; injection H as <-; subst; repeat split; reflexivity.
Qed.

Lemma resolveFormat_pairs_witness :
  Client.resolveFormat "bc7-rgba-unorm" (Some "sRGB") = "bc7-rgba-unorm-srgb" /\
  Client.resolveFormat "bc7-rgba-unorm-srgb" (Some "sRGB") = "bc7-rgba-unorm-srgb" /\
  Client.resolveFormat "bc7-rgba-unorm-srgb" (Some "linear") = "bc7-rgba-unorm" /\
  Client.resolveFormat "bc7-rgba-unorm" (Some "linear") = "bc7-rgba-unorm".
Proof.
  apply (resolveFormat_pairs "bc7-rgba-unorm" "bc7-rgba-unorm-srgb"). reflexivity.
Defined.

End Formats.

(** ** The Basis worker: the layout of the transcoded levels *)

Section BasisLevels.

Import BasisWorker BasisTranscode.

Lemma total_size_app (l1 l2 : list MipLevel) :
  total_size (l1 ++ l2) = total_size l1 + total_size l2.
Proof.
  unfold total_size. induction l1 as [|x l1 IH]; cbn; [reflexivity | rewrite IH; lia].
Qed.

Lemma total_size_nonneg (l : list MipLevel) :
  Forall (fun lv => 0 <= size lv) l -> 0 <= total_size l.
Proof.
  intros Hall. unfold total_size. induction Hall as [|lv rest Hlv _ IH]; cbn; lia.
Qed.

Lemma packed_sizes (l : list MipLevel) :
  packed l -> Forall (fun lv => 0 <= size lv) l.
Proof.
  intros Hp. apply Forall_forall. intros lv Hin.
  apply list_elem_of_lookup in Hin as [j Hj]. now apply (Hp _ _ Hj).
Qed.

Lemma packed_snoc (l : list MipLevel) (lv : MipLevel) :
  packed l ->
  level lv = Z.of_nat (length l) -> offset lv = total_size l -> 0 <= size lv ->
  packed (l ++ [lv]).
Proof.
  intros Hp Hlevel Hoffset Hsize k x Hk.
  destruct (decide (k < length l)%nat) as [Hlt|Hge].
  - rewrite lookup_app_l in Hk by exact Hlt.
    rewrite take_app_le by lia. now apply Hp.
  - rewrite lookup_app_r in Hk by lia.
    destruct (k - length l)%nat as [|j] eqn:Hj; [|destruct j; discriminate].
    injection Hk as <-. assert (k = length l) as -> by lia.
    rewrite take_app_length. auto.
Qed.

Lemma gather_packed (file : BasisFile) (fmt : BasisFormat) (n : nat) :
  forall (mipLevel : Z) (acc : list MipLevel) (total : Z),
  packed acc -> mipLevel = Z.of_nat (length acc) -> total = total_size acc ->
  packed (fst (gather file fmt n mipLevel acc total)) /\
  snd (gather file fmt n mipLevel acc total)
  = total_size (fst (gather file fmt n mipLevel acc total)) /\
  length (fst (gather file fmt n mipLevel acc total)) = (length acc + n)%nat.
Proof.
  induction n as [|n IH]; intros mipLevel acc total Hp Hlevel Htotal; cbn [gather].
  - cbn. split; [exact Hp|]. split; [exact Htotal | lia].
  - destruct (IH (mipLevel + 1)
                (acc ++ [{| level := mipLevel; offset := total;
                            size := Z.of_N (getImageTranscodedSizeInBytes file mipLevel fmt);
                            width := Z.of_N (getImageWidth file mipLevel);
                            height := Z.of_N (getImageHeight file mipLevel) |}])
                (total + Z.of_N (getImageTranscodedSizeInBytes file mipLevel fmt)))
      as (H1 & H2 & H3).
    + apply packed_snoc; cbn; [exact Hp | exact Hlevel | exact Htotal | lia].
    + rewrite length_app. cbn. lia.
    + rewrite total_size_app. cbn. lia.
    + rewrite length_app in H3. cbn in H3. split; [exact H1|]. split; [exact H2 | lia].
Qed.

Lemma select_mapped (hasAlpha : bool) (supported : BasisFormat -> bool) :
  WTT_FORMAT_MAP (select hasAlpha supported) <> None.
Proof.
  unfold select. destruct hasAlpha;
    repeat match goal with
    | |- context [if supported ?f then _ else _] => destruct (supported f)
    end; discriminate.
Qed.

Lemma packed_in_bounds (l : list MipLevel) (k : nat) (lv : MipLevel) :
  packed l -> l !! k = Some lv ->
  0 <= offset lv /\ offset lv + size lv <= total_size l.
Proof.
  intros Hp Hk. destruct (Hp k lv Hk) as (_ & Hoff & Hsize).
  pose proof (packed_sizes l Hp) as Hall.
  assert (0 <= total_size (take k l))
    by (apply total_size_nonneg, Forall_take, Hall).
  assert (0 <= total_size (drop (S k) l))
    by (apply total_size_nonneg, Forall_drop, Hall).
  assert (total_size l = total_size (take k l) + (size lv + total_size (drop (S k) l)))
    as Hsplit.
  { rewrite <- (take_drop k l) at 1. rewrite total_size_app.
    rewrite (drop_S l lv k Hk). reflexivity. }
  lia.
Qed.

Lemma gather_total (file : BasisFile) (fmt : BasisFormat) (n : nat) :
  forall (mipLevel : Z) (acc : list MipLevel) (total : Z),
  snd (gather file fmt n mipLevel acc total) = total + needed file fmt n mipLevel.
Proof.
  induction n as [|n IH]; intros mipLevel acc total; cbn [gather needed snd].
  - lia.
  - rewrite IH. lia.
Qed.

Lemma needed_nonneg (file : BasisFile) (fmt : BasisFormat) (n : nat) :
  forall mipLevel : Z, 0 <= needed file fmt n mipLevel.
Proof.
  induction n as [|n IH]; intros mipLevel; cbn [needed]; [lia|].
  specialize (IH (mipLevel + 1)). lia.
Qed.

(** X16: the Basis worker throws before it answers in one case only:
    the file is valid, transcoding has started, and the levels it is to
    transcode need more bytes together than the engine allocates for
    one array. An answer with data carries the id of the request, the
    format of the selected target and one level (when the target is
    raw pixels or mipmaps are not wanted) or all levels of the file;
    the levels are numbered from 0 and packed without gaps from offset
    0, each lies inside the buffer, and the buffer is as long as the
    levels together, which the engine can allocate. *)
Theorem basis_levels_packed (maxByteLength id : Z) (file : BasisFile)
    (supported : BasisFormat -> bool) (mipmaps : bool) :
  (transcode maxByteLength id file supported mipmaps = Uncaught
   <-> getNumImages file <> 0%N /\ getNumLevels file <> 0%N /\
       startTranscoding file = true /\
       exists wtt : WttFormat,
         WTT_FORMAT_MAP (select (getHasAlpha file) supported) = Some wtt /\
         maxByteLength
         < needed file (select (getHasAlpha file) supported)
             (levelCount file wtt mipmaps) 0) /\
  forall (id' len : Z) (fmt : string) (lvls : list MipLevel),
    transcode maxByteLength id file supported mipmaps = Transcoded id' len fmt lvls ->
    id' = id /\
    (exists wtt : WttFormat,
        WTT_FORMAT_MAP (select (getHasAlpha file) supported) = Some wtt /\
        fmt = format wtt /\
        length lvls
        = if uncompressed wtt || negb mipmaps then 1%nat
          else N.to_nat (getNumLevels file)) /\
    len = total_size lvls /\
    len <= maxByteLength /\
    packed lvls /\
    forall (k : nat) (lv : MipLevel),
      lvls !! k = Some lv -> 0 <= offset lv /\ offset lv + size lv <= len.
Proof.
  unfold transcode.
  destruct (N.eqb_spec (getNumImages file) 0) as [Himg|Himg]; cbn [orb].
  { split; [split; [discriminate | intros (H & _); contradiction] | intros; discriminate]. }
  destruct (N.eqb_spec (getNumLevels file) 0) as [Hlev|Hlev].
  { split; [split; [discriminate | intros (_ & H & _); contradiction]
           | intros; discriminate]. }
  destruct (startTranscoding file) eqn:Hstart; cbn [negb];
    [|split; [split; [discriminate | intros (_ & _ & H & _); discriminate]
             | intros; discriminate]].
  pose proof (select_mapped (getHasAlpha file) supported) as Hmapped.
  destruct (WTT_FORMAT_MAP (select (getHasAlpha file) supported)) as [wtt|];
    [|contradiction].
  set (fmt0 := select (getHasAlpha file) supported).
  set (levels := levelCount file wtt mipmaps).
  destruct (gather_packed file fmt0 levels 0 [] 0) as (Hp & Htot & Hlen).
  { intros k lv Hk. rewrite lookup_nil in Hk. discriminate. }
  { reflexivity. }
  { reflexivity. }
  pose proof (gather_total file fmt0 levels 0 [] 0) as Hneeded.
  pose proof (needed_nonneg file fmt0 levels 0) as Hnonneg.
  destruct (gather file fmt0 levels 0 [] 0) as [mipLevels total] eqn:Hg.
  cbn [fst snd] in Hp, Htot, Hlen, Hneeded.
  unfold Js.allocates.
  destruct (Z.leb_spec 0 total) as [_|Hneg]; [|lia]. cbn [andb].
  destruct (Z.leb_spec total maxByteLength) as [Hfits|Hlong].
  - split.
    + split.
      * destruct (forallb _ mipLevels); discriminate.
      * intros (_ & _ & _ & wtt' & Hwtt & Hover). injection Hwtt as <-.
        fold levels in Hover. lia.
    + destruct (forallb _ mipLevels); [|intros; discriminate].
      intros id' len fmt lvls Heq. injection Heq as <- <- <- <-.
      split; [reflexivity|]. split; [exists wtt; auto|].
      split; [exact Htot|]. split; [exact Hfits|]. split; [exact Hp|].
      intros k lv Hk. rewrite Htot. now apply (packed_in_bounds mipLevels k).
  - split; [|intros; discriminate].
    split; [intros _|reflexivity].
    repeat split; try assumption. exists wtt. split; [reflexivity|].
    fold levels. lia.
Qed.

Lemma basis_levels_packed_witness :
  exists lvls : list MipLevel,
    transcode 4294967295 5
      {| getNumImages := 1; getHasAlpha := false; getNumLevels := 3;
         startTranscoding := true;
         getImageTranscodedSizeInBytes := fun l _ => Z.to_N (32 / 2 ^ l);
         getImageWidth := fun l => Z.to_N (8 / 2 ^ l);
         getImageHeight := fun l => Z.to_N (8 / 2 ^ l);
         transcodeImage := fun _ _ => true |}
      (supportedFormats ["rgba8unorm"; "bc7-rgba-unorm"]) true
    = Transcoded 5 56 "bc7-rgba-unorm" lvls /\
    packed lvls.
Proof.
  eexists. split; [vm_compute; reflexivity|].
  eapply (basis_levels_packed 4294967295 5
            {| getNumImages := 1; getHasAlpha := false; getNumLevels := 3;
               startTranscoding := true;
               getImageTranscodedSizeInBytes := fun l _ => Z.to_N (32 / 2 ^ l);
               getImageWidth := fun l => Z.to_N (8 / 2 ^ l);
               getImageHeight := fun l => Z.to_N (8 / 2 ^ l);
               transcodeImage := fun _ _ => true |}
            (supportedFormats ["rgba8unorm"; "bc7-rgba-unorm"]) true).
  vm_compute. reflexivity.
Defined.

End BasisLevels.

(** ** Uploading texture data *)

Section Uploads.

Import Gpu MipmapGenerator TextureData Client Upload.

Lemma throw_run {A B : Type} (msg : string) (k : A -> M B) (w : World) :
  bind (throw msg) k w = (Throw msg, w).
Proof. reflexivity. Qed.

Lemma bind_throw {A B : Type} (c : M A) (k : A -> M B) (w w' : World) (msg : string) :
  c w = (Throw msg, w') -> bind c k w = (Throw msg, w').
Proof. intros H. unfold bind. now rewrite H. Qed.

Lemma present_all {A : Type} (a : list (option A)) :
  Forall is_Some a -> a = map Some (present a).
Proof.
  induction 1 as [|x a [y ->] _ IH]; cbn; [reflexivity|].
  unfold present in *. cbn. now rewrite <- IH.
Qed.

Lemma slices_run (c : nat) (o : BlockInfo) (g : WebTextureLevelData)
    (hs : list (option Slice)) (w : World) :
  Forall is_Some hs ->
  Loop.for_of hs
    (fun h => match h with
              | None => throw undefined_read
              | Some h => call (sliceWrite c o g h)
              end) w
  = (Ok tt, add (map (sliceWrite c o g) (present hs)) w).
Proof.
  intros Hall. revert w. induction Hall as [|x hs [h ->] _ IH]; intros w.
  - cbn. unfold ret. now rewrite add_nil.
  - cbn [Loop.for_of]. rewrite (bind_run _ _ _ _ _ (call_run _ _)).
    rewrite IH, add_add. reflexivity.
Qed.

Lemma writeLevel_run (c : nat) (o : BlockInfo) (g : WebTextureLevelData) (w : World) :
  full g -> writeLevel c o (Some g) w = (Ok tt, add (levelWrites c o g) w).
Proof. intros Hfull. unfold writeLevel. now apply slices_run. Qed.

Lemma levels_run (c : nat) (o : BlockInfo) (gs : list WebTextureLevelData) (w : World) :
  Forall full gs ->
  Loop.for_of (map Some gs) (writeLevel c o) w = (Ok tt, add (levelsWrites c o gs) w).
Proof.
  intros Hall. revert w. induction Hall as [|g gs Hg _ IH]; intros w.
  - cbn. unfold ret. now rewrite add_nil.
  - cbn [map Loop.for_of]. rewrite (bind_run _ _ _ _ _ (writeLevel_run c o g w Hg)).
    rewrite IH, add_add. reflexivity.
Qed.

Lemma levels_hole_run (c : nat) (o : BlockInfo) (pre : list WebTextureLevelData)
    (post : list (option WebTextureLevelData)) (w : World) :
  Forall full pre ->
  Loop.for_of (map Some pre ++ None :: post) (writeLevel c o) w
  = (Throw undefined_read, add (levelsWrites c o pre) w).
Proof.
  intros Hall. revert w. induction Hall as [|g gs Hg _ IH]; intros w.
  - cbn. now rewrite add_nil.
  - cbn [map app Loop.for_of]. rewrite (bind_run _ _ _ _ _ (writeLevel_run c o g w Hg)).
    rewrite IH, add_add. reflexivity.
Qed.

(** The first steps of [fromTextureData] when the number of levels is
    an integer: the texture is created with the descriptor above and
    the levels are written to it. *)
Lemma fromTextureData_start (this : WebGPUTextureClient) (e : WebTextureData)
    (t : OptionsArg) (r : FormatInfo) (w : World) :
  device this <> None ->
  WebTextureFormat (data_format e) = Some r ->
  levelNumber e t r = Js.Int (levelCount e t r) ->
  fromTextureData this e t w
  = (let* _ := Loop.for_of (levels e) (writeLevel (nextHandle w) (blockInfo r)) in
     let* _ := (if generates t r
                then (generateMipmap (nextHandle w) (descriptor e t r) ;; ret tt)
                else ret tt) in
     ret (result (nextHandle w) e t r))
      (add [CreateTexture (nextHandle w) (descriptor e t r)] (bump w)).
Proof.
  intros Hdev Hfmt Hint. unfold fromTextureData.
  destruct (device this) as [d|]; [|contradiction]. rewrite Hfmt. cbv zeta.
  change (if decide (1 < Z.of_nat (length (levels e)))
          then Js.Int (Z.of_nat (length (levels e)))
          else if arg_mipmaps t && canGenerateMipmaps r
               then calculateMipLevels (data_width e) (data_height e)
               else Js.Int 1)
    with (levelNumber e t r).
  rewrite Hint. reflexivity.
Qed.

(** The number of levels is an integer when no mipmaps are generated
    and when the data has more than one level. *)
Lemma levelNumber_plain (e : WebTextureData) (t : OptionsArg) (r : FormatInfo) :
  generates t r = false ->
  levelNumber e t r = Js.Int (Z.max 1 (Z.of_nat (length (levels e)))).
Proof.
  intros Hs. unfold levelNumber. rewrite Hs.
  destruct (decide (1 < Z.of_nat (length (levels e)))); f_equal; lia.
Qed.

Lemma levelNumber_several (e : WebTextureData) (t : OptionsArg) (r : FormatInfo) :
  1 < Z.of_nat (length (levels e)) ->
  levelNumber e t r = Js.Int (Z.of_nat (length (levels e))).
Proof.
  intros Hn. unfold levelNumber.
  destruct (decide (1 < Z.of_nat (length (levels e)))); [reflexivity | contradiction].
Qed.

Lemma levelNumber_count (e : WebTextureData) (t : OptionsArg) (r : FormatInfo) (i : Z) :
  levelNumber e t r = Js.Int i ->
  levelNumber e t r = Js.Int (levelCount e t r) /\ levelCount e t r = i.
Proof. intros H. unfold levelCount. rewrite H. auto. Qed.

Lemma count_map_write (c : nat) (o : BlockInfo) (g : WebTextureLevelData) (hs : list Slice) :
  count is_write (map (sliceWrite c o g) hs) = length hs.
Proof. induction hs as [|h hs IH]; cbn; [reflexivity | now rewrite IH]. Qed.

Lemma count_levelsWrites (c : nat) (o : BlockInfo) (gs : list WebTextureLevelData) :
  count is_write (levelsWrites c o gs)
  = length (flat_map (fun g => present (slices g)) gs).
Proof.
  induction gs as [|g gs IH]; cbn; [reflexivity|].
  unfold levelsWrites in IH. rewrite count_app, length_app, IH.
  unfold levelWrites. now rewrite count_map_write.
Qed.

Lemma levelCount_positive (e : WebTextureData) (t : OptionsArg) (r : FormatInfo) :
  generates t r = false ->
  levelCount e t r = Z.max 1 (Z.of_nat (length (levels e))).
Proof.
  intros Hs. now apply (levelNumber_count e t r), levelNumber_plain.
Qed.

(** X17: on a live client, for data of a known format without holes
    and when no mipmaps are generated (not asked for, or a format that
    cannot generate them), [fromTextureData] creates one texture, then
    writes every slice of every level once, level by level, each to the
    mip level of its level, and returns; the texture and the result
    have as many mip levels as the data has levels, and at least
    one. *)
Theorem fromTextureData_uploads (this : WebGPUTextureClient) (e : WebTextureData)
    (t : OptionsArg) (r : FormatInfo) (w : World) :
  device this <> None ->
  WebTextureFormat (data_format e) = Some r ->
  complete e ->
  generates t r = false ->
  fst (fromTextureData this e t w) = Ok (result (nextHandle w) e t r) /\
  added (fromTextureData this e t) w
  = CreateTexture (nextHandle w) (descriptor e t r)
      :: levelsWrites (nextHandle w) (blockInfo r) (present (levels e)) /\
  mipLevels (result (nextHandle w) e t r) = mipLevelCount (descriptor e t r) /\
  mipLevelCount (descriptor e t r) = Z.max 1 (Z.of_nat (length (levels e))) /\
  count is_write (added (fromTextureData this e t) w)
  = length (flat_map (fun g => present (slices g)) (present (levels e))).
Proof.
  intros Hdev Hfmt [Hlevels Hfull] Hs.
  assert (fromTextureData this e t w
          = (Ok (result (nextHandle w) e t r),
             add (CreateTexture (nextHandle w) (descriptor e t r)
                    :: levelsWrites (nextHandle w) (blockInfo r) (present (levels e)))
               (bump w))) as Heq.
  { rewrite (fromTextureData_start this e t r w Hdev Hfmt), Hs
      by now apply (levelNumber_count e t r _ (levelNumber_plain e t r Hs)).
    rewrite (present_all (levels e) Hlevels) at 1.
    rewrite (bind_run _ _ _ _ _ (levels_run _ _ _ _ Hfull)).
    unfold ret at 1. rewrite (bind_run (fun w0 => (Ok tt, w0)) _ _ _ tt eq_refl).
    unfold ret. now rewrite add_add. }
  pose proof (levelCount_positive e t r Hs) as Hcount.
  assert (added (fromTextureData this e t) w
          = CreateTexture (nextHandle w) (descriptor e t r)
              :: levelsWrites (nextHandle w) (blockInfo r) (present (levels e))) as Hadded.
  { unfold added. rewrite Heq. cbn [snd add bump calls]. apply drop_app_length. }
  rewrite Heq, Hadded. cbn [fst].
  split; [reflexivity|]. split; [reflexivity|]. split.
  - cbn [mipLevels result mipLevelCount descriptor Js.or_num]. rewrite Hcount.
    destruct (decide (Z.max 1 (Z.of_nat (length (levels e))) = 0)); lia.
  - split; [exact Hcount|]. cbn [count is_write]. apply count_levelsWrites.
Qed.

Lemma fromTextureData_uploads_witness :
  added
    (fromTextureData {| device := Some 0%nat |}
       {| data_format := "bc1-rgb-unorm"; data_width := 6; data_height := 5;
          levels :=
            [Some {| levelIndex := 0; level_width := 6; level_height := 5;
                     slices := [Some {| buffer := [1; 2; 3; 4; 5; 6; 7; 8]; byteOffset := 0;
                                        byteLength := 8 |}] |}] |}
       (WithOptions {| mipmaps := true; colorSpace := None |})) new_world
  = CreateTexture 1
      (descriptor
         {| data_format := "bc1-rgb-unorm"; data_width := 6; data_height := 5;
            levels :=
              [Some {| levelIndex := 0; level_width := 6; level_height := 5;
                       slices := [Some {| buffer := [1; 2; 3; 4; 5; 6; 7; 8];
                                          byteOffset := 0; byteLength := 8 |}] |}] |}
         (WithOptions {| mipmaps := true; colorSpace := None |}) (block 8))
      :: levelsWrites 1 (blockInfo (block 8))
           [{| levelIndex := 0; level_width := 6; level_height := 5;
               slices := [Some {| buffer := [1; 2; 3; 4; 5; 6; 7; 8]; byteOffset := 0;
                                  byteLength := 8 |}] |}].
Proof.
  apply (fromTextureData_uploads {| device := Some 0%nat |}
           {| data_format := "bc1-rgb-unorm"; data_width := 6; data_height := 5;
              levels :=
                [Some {| levelIndex := 0; level_width := 6; level_height := 5;
                         slices := [Some {| buffer := [1; 2; 3; 4; 5; 6; 7; 8];
                                            byteOffset := 0; byteLength := 8 |}] |}] |}
           (WithOptions {| mipmaps := true; colorSpace := None |}) (block 8) new_world).
  - discriminate.
  - reflexivity.
  - split; repeat constructor; eauto.
  - reflexivity.
Defined.

Lemma format_blocks (name : string) (r : FormatInfo) :
  WebTextureFormat name = Some r ->
  0 < blockWidth (blockInfo r) /\ 0 < blockHeight (blockInfo r) /\
  0 < blockBytes (blockInfo r) /\
  (compressed r <> None -> canGenerateMipmaps r = false) /\
  (canGenerateMipmaps r = true -> blockInfo r
                                  = {| blockBytes := 4; blockWidth := 1; blockHeight := 1 |}).
Proof.
  unfold WebTextureFormat. intros H.
  repeat case_decide; try discriminate; injection H as <-; cbn;
    repeat split; try lia; try reflexivity; try discriminate; intros; contradiction.
Qed.

(** X18: for every format of the table, the texture that
    [fromTextureData] creates has the sides of the data rounded up to
    whole blocks of the format, the least such sides, and every write
    covers the sides of its level rounded up the same way, a row taking
    one block's bytes for each block across; for a format without
    blocks the sides are those of the data and a row takes 4 bytes a
    texel. A format with blocks never generates mipmaps. *)
Theorem upload_sizes_whole_blocks (e : WebTextureData) (t : OptionsArg) (r : FormatInfo)
    (c : nat) (g : WebTextureLevelData) (h : Slice) :
  WebTextureFormat (data_format e) = Some r ->
  let bw := blockWidth (blockInfo r) in
  let bh := blockHeight (blockInfo r) in
  (data_width e <= Gpu.width (size (descriptor e t r)) < data_width e + bw /\
   Gpu.width (size (descriptor e t r)) mod bw = 0) /\
  (data_height e <= Gpu.height (size (descriptor e t r)) < data_height e + bh /\
   Gpu.height (size (descriptor e t r)) mod bh = 0) /\
  (exists (rowBlocks : Z) (extent : Extent),
      sliceWrite c (blockInfo r) g h
      = WriteTexture c (levelIndex g) None (buffer h) (byteOffset h)
          (rowBlocks * blockBytes (blockInfo r)) extent /\
      level_width g <= rowBlocks * bw < level_width g + bw /\
      Gpu.width extent = rowBlocks * bw /\
      level_height g <= Gpu.height extent < level_height g + bh /\
      Gpu.height extent mod bh = 0) /\
  (compressed r = None ->
   Gpu.width (size (descriptor e t r)) = data_width e /\
   Gpu.height (size (descriptor e t r)) = data_height e /\
   exists extent : Extent,
     sliceWrite c (blockInfo r) g h
     = WriteTexture c (levelIndex g) None (buffer h) (byteOffset h)
         (level_width g * 4) extent) /\
  (compressed r <> None -> generates t r = false).
Proof.
  intros Hfmt bw bh.
  destruct (format_blocks _ r Hfmt) as (Hbw & Hbh & Hbb & Hnomip & _).
  fold bw in Hbw. fold bh in Hbh.
  split; [apply ceil_div_multiple, Hbw|].
  split; [apply ceil_div_multiple, Hbh|].
  split; [|split].
  - exists (Js.ceil_div (level_width g) bw). eexists. split; [reflexivity|].
    cbn [Gpu.width Gpu.height].
    split; [apply ceil_div_multiple, Hbw|]. split; [reflexivity|].
    apply ceil_div_multiple, Hbh.
  - intros Hplain. unfold descriptor, sliceWrite, blockInfo in *.
    subst bw bh. rewrite Hplain in *. cbn in *.
    unfold Js.ceil_div. rewrite !Z.div_1_r.
    split; [lia|]. split; [lia|]. eexists. f_equal. lia.
  - intros Hblock. unfold generates. rewrite (Hnomip Hblock). apply andb_false_r.
Qed.

Lemma upload_sizes_whole_blocks_witness :
  (6 <= Gpu.width
          (size (descriptor
                   {| data_format := "bc1-rgb-unorm"; data_width := 6; data_height := 5;
                      levels := [] |} NoOptions (block 8))) < 6 + 4 /\
   Gpu.width
     (size (descriptor
              {| data_format := "bc1-rgb-unorm"; data_width := 6; data_height := 5;
                 levels := [] |} NoOptions (block 8))) mod 4 = 0).
Proof.
  apply (upload_sizes_whole_blocks
           {| data_format := "bc1-rgb-unorm"; data_width := 6; data_height := 5;
              levels := [] |} NoOptions (block 8) 0
           {| levelIndex := 0; level_width := 6; level_height := 5; slices := [] |}
           {| buffer := []; byteOffset := 0; byteLength := 0 |}).
  reflexivity.
Defined.

Lemma count_none (p : Call -> bool) (l : list Call) :
  Forall (fun x => p x = false) l -> count p l = 0%nat.
Proof. induction 1 as [|x l Hx _ IH]; cbn; [reflexivity | now rewrite Hx, IH]. Qed.

Lemma copyCalls_count (e o : nat) (n : nat) :
  forall (g : Z) (c : Extent),
  count is_copy (copyCalls e o n g c) = n /\
  count is_render_pass (copyCalls e o n g c) = 0%nat /\
  forall k : Z, g <= k < g + Z.of_nat n ->
    exists c' : Extent, CopyTextureToTexture o (k - 1) e k c' ∈ copyCalls e o n g c.
Proof.
  induction n as [|n IH]; intros g c; cbn [copyCalls count is_copy is_render_pass].
  - split; [reflexivity|]. split; [reflexivity|]. intros k Hk. lia.
  - destruct (IH (g + 1) (halve c)) as (H1 & H2 & H3).
    split; [now rewrite H1|]. split; [exact H2|].
    intros k Hk. destruct (decide (k = g)) as [->|Hne].
    + exists c. apply elem_of_cons. now left.
    + destruct (H3 k ltac:(lia)) as [c' Hc']. exists c'. apply elem_of_cons. now right.
Qed.

Lemma writes_shape (c : nat) (o : BlockInfo) (gs : list WebTextureLevelData) :
  Forall (fun x => is_render_pass x = false) (levelsWrites c o gs) /\
  Forall (fun x => is_copy x = false) (levelsWrites c o gs).
Proof.
  unfold levelsWrites, levelWrites.
  split; apply Forall_flat_map, Forall_forall; intros g _;
    apply Forall_map, Forall_forall; intros h _; reflexivity.
Qed.

(** X19: on a live client, for data of a known format without holes,
    when mipmaps are asked for and the format can generate them, and
    the number [n] of levels the code computes is an integer (the
    number of levels of the data when it has several, else what
    [calculateMipLevels] gives for its sides, an integer when one side
    is positive), [fromTextureData] creates the texture with [n]
    levels, writes every slice, and then generates the mipmaps through
    a temporary texture, never in place, as the texture is created
    without [RENDER_ATTACHMENT]: one pass and one copy for every level
    after the first, level 0 of the temporary texture rendered from
    level 0 of the texture and each further level from the one before
    it. Every level after the first of the texture receives a copy,
    also the levels the data had supplied and the writes had filled. *)
Theorem fromTextureData_generates_mipmaps (this : WebGPUTextureClient) (e : WebTextureData)
    (t : OptionsArg) (r : FormatInfo) (n : Z) (w : World) :
  device this <> None ->
  WebTextureFormat (data_format e) = Some r ->
  complete e ->
  generates t r = true ->
  levelNumber e t r = Js.Int n ->
  let c := nextHandle w in
  let d := descriptor e t r in
  mipLevelCount d = n /\
  exists (p o : nat) (P : list Call),
    (P = [] \/ P = [CreateShaderModule; CreateRenderPipeline p (Gpu.format d)]) /\
    (c < o)%nat /\
    fst (fromTextureData this e t w) = Ok (result c e t r) /\
    added (fromTextureData this e t) w
    = CreateTexture c d :: levelsWrites c (blockInfo r) (present (levels e)) ++ P ++
        [CreateTexture o (MipmapChain.temporaryDescriptor d 1); CreateCommandEncoder] ++
        MipmapChain.downsample p c o n 0 ++
        MipmapChain.copiesBack c o d 1 ++
        [Submit; DestroyTexture o] /\
    count is_render_pass (added (fromTextureData this e t) w) = Z.to_nat (n - 1) /\
    count is_copy (added (fromTextureData this e t) w) = Z.to_nat (n - 1) /\
    forall k : Z, 1 <= k < n ->
      exists c' : Extent,
        CopyTextureToTexture o (k - 1) c k c' ∈ added (fromTextureData this e t) w.
Proof.
  intros Hdev Hfmt [Hlevels Hfull] Hs Hn c d.
  destruct (levelNumber_count e t r n Hn) as [Hint <-].
  set (n := levelCount e t r).
  set (W := levelsWrites c (blockInfo r) (present (levels e))).
  set (w1 := add ([CreateTexture c d] ++ W) (bump w)).
  destruct (generateMipmap_through_temporary c d w1 eq_refl eq_refl)
    as (p & P & Hgen).
  cbv zeta in Hgen. destruct Hgen as (HP & Hle & Hfst & Hcalls).
  change (Js.or_num (depthOrArrayLayers (size d)) 1) with 1 in Hcalls.
  change (seqZ 0 1) with [0] in Hcalls. cbn [flat_map] in Hcalls.
  rewrite app_nil_r in Hcalls.
  change (mipLevelCount d) with n in Hcalls.
  set (o := nextHandle (snd (getMipmapPipeline (Gpu.format d) w1))) in *.
  split; [reflexivity|].
  exists p, o, P.
  assert (fromTextureData this e t w
          = (Ok (result c e t r), snd (generateMipmap c d w1))) as Heq.
  { rewrite (fromTextureData_start this e t r w Hdev Hfmt Hint), Hs.
    rewrite (present_all (levels e) Hlevels) at 1.
    rewrite (bind_run _ _ _ _ _ (levels_run _ _ _ _ Hfull)).
    rewrite add_add. fold c d W w1.
    assert (generateMipmap c d w1 = (Ok c, snd (generateMipmap c d w1))) as Hrun.
    { rewrite <- Hfst. apply surjective_pairing. }
    rewrite (bind_run _ _ _ _ tt (bind_run _ _ _ _ _ Hrun)).
    reflexivity. }
  set (rest := P ++ [CreateTexture o (temporary d 1); CreateCommandEncoder] ++
               layerCalls p c o 0 n 0 ++
               copyCalls c o (Z.to_nat (n - 1)) 1
                 {| Gpu.width := Js.ceil_div (Gpu.width (size d)) 2;
                    Gpu.height := Js.ceil_div (Gpu.height (size d)) 2;
                    depthOrArrayLayers := Some 1 |} ++
               [Submit; DestroyTexture o]) in *.
  assert (added (fromTextureData this e t) w = CreateTexture c d :: W ++ rest) as Hadded.
  { unfold added. rewrite Heq. cbn [snd]. rewrite Hcalls.
    unfold w1. cbn [add bump calls]. rewrite <- !app_assoc. apply drop_app_length. }
  rewrite Heq, Hadded. cbn [fst].
  destruct (pipeline_calls_shape p (Gpu.format d) P HP) as (HPshape & _ & _).
  destruct (layerCalls_shape p c o 0 n 0) as (HLshape & _ & HLcount & _).
  destruct (copyCalls_count c o (Z.to_nat (n - 1)) 1
              {| Gpu.width := Js.ceil_div (Gpu.width (size d)) 2;
                 Gpu.height := Js.ceil_div (Gpu.height (size d)) 2;
                 depthOrArrayLayers := Some 1 |}) as (HCcopy & HCpass & HCall).
  destruct (writes_shape c (blockInfo r) (present (levels e))) as (HWpass & HWcopy).
  fold W in HWpass, HWcopy.
  assert (count is_render_pass P = 0%nat /\ count is_copy P = 0%nat) as [HPpass HPcopy].
  { destruct HP as [-> | ->]; split; reflexivity. }
  split; [exact HP|]. split; [exact Hle|].
  split; [reflexivity|]. split.
  { unfold rest. rewrite layerCalls_downsample.
    change (Js.ceil_div (Gpu.width (size d)) 2)
      with (Js.ceil_div (Gpu.width (size d)) (2 ^ 1)).
    change (Js.ceil_div (Gpu.height (size d)) 2)
      with (Js.ceil_div (Gpu.height (size d)) (2 ^ 1)).
    rewrite copyCalls_closed by lia.
    unfold MipmapChain.copiesBack, seqZ. rewrite Nat2Z.id. reflexivity. }
  split; [|split].
  - cbn [count is_render_pass]. unfold rest. rewrite !count_app.
    rewrite (count_none _ _ HWpass), HPpass, HLcount, HCpass. cbn. lia.
  - cbn [count is_copy]. unfold rest. rewrite !count_app.
    rewrite (count_none _ _ HWcopy), HPcopy, HCcopy.
    rewrite (count_none is_copy (layerCalls p c o 0 n 0)).
    + cbn. lia.
    + eapply Forall_impl; [exact HLshape|]. now intros x (Hx & _).
  - intros k Hk. destruct (HCall k ltac:(lia)) as [c' Hc']. exists c'.
    apply elem_of_cons. right. apply elem_of_app. right. unfold rest.
    apply elem_of_app. right. apply elem_of_app. right.
    apply elem_of_app. right. apply elem_of_app. now left.
Qed.

Lemma fromTextureData_generates_mipmaps_witness :
  count is_copy
    (added
       (fromTextureData {| device := Some 0%nat |}
          {| data_format := "rgba8unorm"; data_width := 4; data_height := 4;
             levels :=
               [Some {| levelIndex := 0; level_width := 4; level_height := 4;
                        slices := [Some {| buffer := []; byteOffset := 0;
                                           byteLength := 64 |}] |}] |}
          (WithOptions {| mipmaps := true; colorSpace := None |})) new_world)
  = 2%nat.
Proof.
  destruct (fromTextureData_generates_mipmaps {| device := Some 0%nat |}
              {| data_format := "rgba8unorm"; data_width := 4; data_height := 4;
                 levels :=
                   [Some {| levelIndex := 0; level_width := 4; level_height := 4;
                            slices := [Some {| buffer := []; byteOffset := 0;
                                               byteLength := 64 |}] |}] |}
              (WithOptions {| mipmaps := true; colorSpace := None |}) plain 3 new_world)
    as (_ & p & o & P & _ & _ & _ & _ & _ & Hcopies & _).
  - discriminate.
  - reflexivity.
  - split; repeat constructor; eauto.
  - reflexivity.
  - vm_compute. reflexivity.
  - exact Hcopies.
Defined.

Lemma writes_never_destroy (c : nat) (o : BlockInfo) (gs : list WebTextureLevelData) :
  Forall (fun x => is_destroy x = false) (levelsWrites c o gs).
Proof.
  unfold levelsWrites, levelWrites.
  apply Forall_flat_map, Forall_forall; intros g _.
  apply Forall_map, Forall_forall; intros h _; reflexivity.
Qed.

Lemma getLevel_past_end (k : nat) (opts : LevelOptions) (e : WebTextureData) :
  Forall is_Some (levels e) ->
  (length (levels e) < k)%nat ->
  data_format (snd (getLevel k opts e)) = data_format e /\
  exists post : list (option WebTextureLevelData),
    levels (snd (getLevel k opts e)) = map Some (present (levels e)) ++ None :: post /\
    post <> [].
Proof.
  intros Hall Hk. unfold getLevel, element.
  rewrite (lookup_ge_None_2 (levels e) k) by lia. cbn [snd data_format levels].
  split; [reflexivity|]. unfold assign.
  destruct (k <? length (levels e))%nat eqn:Hlt; [apply Nat.ltb_lt in Hlt; lia|].
  destruct (k - length (levels e))%nat as [|m] eqn:Hm; [lia|].
  cbn [replicate app]. rewrite <- (present_all (levels e) Hall).
  eexists. split; [reflexivity|]. now destruct m.
Qed.

(** X20: a level asked for past the end of the levels, leaving a gap,
    makes the data unusable: [getLevel] stores the new level after a
    hole, and [fromTextureData] on the data then creates the texture,
    writes the levels before the hole, and fails there on reading a
    property of [undefined]; the texture it created is neither returned
    nor destroyed. *)
Theorem skipped_level_fails_upload (this : WebGPUTextureClient) (e : WebTextureData)
    (t : OptionsArg) (r : FormatInfo) (k : nat) (opts : LevelOptions) (w : World) :
  device this <> None ->
  WebTextureFormat (data_format e) = Some r ->
  complete e ->
  (length (levels e) < k)%nat ->
  let e' := snd (getLevel k opts e) in
  fst (fromTextureData this e' t w) = Throw undefined_read /\
  added (fromTextureData this e' t) w
  = CreateTexture (nextHandle w) (descriptor e' t r)
      :: levelsWrites (nextHandle w) (blockInfo r) (present (levels e)) /\
  count is_destroy (added (fromTextureData this e' t) w) = 0%nat.
Proof.
  intros Hdev Hfmt [Hlevels Hfull] Hk e'.
  destruct (getLevel_past_end k opts e Hlevels Hk) as (Hformat & post & Hpost & Hne).
  fold e' in Hformat, Hpost.
  assert (levelNumber e' t r = Js.Int (levelCount e' t r)) as Hint.
  { eapply levelNumber_count, levelNumber_several.
    rewrite Hpost, length_app. destruct post; [contradiction|]. cbn. lia. }
  assert (fromTextureData this e' t w
          = (Throw undefined_read,
             add (CreateTexture (nextHandle w) (descriptor e' t r)
                    :: levelsWrites (nextHandle w) (blockInfo r) (present (levels e)))
               (bump w))) as Heq.
  { rewrite (fromTextureData_start this e' t r w Hdev)
      by (try exact Hint; now rewrite Hformat).
    rewrite Hpost at 1.
    rewrite (bind_throw _ _ _ _ _ (levels_hole_run _ _ _ post _ Hfull)).
    now rewrite add_add. }
  assert (added (fromTextureData this e' t) w
          = CreateTexture (nextHandle w) (descriptor e' t r)
              :: levelsWrites (nextHandle w) (blockInfo r) (present (levels e))) as Hadded.
  { unfold added. rewrite Heq. cbn [snd add bump calls]. apply drop_app_length. }
  rewrite Heq, Hadded. cbn [fst].
  split; [reflexivity|]. split; [reflexivity|].
  cbn [count is_destroy]. now rewrite (count_none _ _ (writes_never_destroy _ _ _)).
Qed.

Lemma skipped_level_fails_upload_witness :
  fst (fromTextureData {| device := Some 0%nat |}
         (snd (getLevel 2 no_level_options
                 {| data_format := "rgba8unorm"; data_width := 4; data_height := 4;
                    levels :=
                      [Some {| levelIndex := 0; level_width := 4; level_height := 4;
                               slices := [Some {| buffer := []; byteOffset := 0;
                                                  byteLength := 64 |}] |}] |}))
         NoOptions new_world)
  = Throw undefined_read.
Proof.
  apply (skipped_level_fails_upload {| device := Some 0%nat |}
           {| data_format := "rgba8unorm"; data_width := 4; data_height := 4;
              levels :=
                [Some {| levelIndex := 0; level_width := 4; level_height := 4;
                         slices := [Some {| buffer := []; byteOffset := 0;
                                            byteLength := 64 |}] |}] |}
           NoOptions plain 2%nat no_level_options new_world).
  - discriminate.
  - reflexivity.
  - split; repeat constructor; eauto.
  - cbn. lia.
Defined.

End Uploads.

(** ** The pipeline cache of the mipmap generator *)

Section Pipelines.

Import Gpu MipmapGenerator PipelineCache.

Lemma getMipmapPipeline_caches (fmt : string) (w : World) :
  exists r : nat,
    getMipmapPipeline fmt w = (Ok r, snd (getMipmapPipeline fmt w)) /\
    pipelines (snd (getMipmapPipeline fmt w)) !! fmt = Some r /\
    Forall (uses r) (added (getMipmapPipeline fmt) w).
Proof.
  unfold added, getMipmapPipeline. destruct (pipelines w !! fmt) as [p|] eqn:Hp; cbn.
  - exists p. rewrite drop_all. auto.
  - exists (nextHandle w). rewrite lookup_insert_eq, drop_app_length.
    repeat split; repeat constructor.
Qed.

Lemma getMipmapPipeline_hit (fmt : string) (r : nat) (w : World) :
  pipelines w !! fmt = Some r -> getMipmapPipeline fmt w = (Ok r, w).
Proof. intros H. unfold getMipmapPipeline. now rewrite H. Qed.

Lemma chain_uses (r o : nat) (c : Z) (n : nat) :
  forall (M : Z) (g : TextureView),
  Forall (fun x => is_setup x = false /\ uses r x) (chain r o c n M g).
Proof.
  induction n as [|n IH]; intros M g; cbn [chain]; [constructor|].
  repeat constructor. apply IH.
Qed.

Lemma copyCalls_uses (r e o : nat) (n : nat) :
  forall (g : Z) (c : Extent),
  Forall (fun x => is_setup x = false /\ uses r x) (copyCalls e o n g c).
Proof.
  induction n as [|n IH]; intros g c; cbn [copyCalls]; [constructor|].
  repeat constructor. apply IH.
Qed.

Lemma layers_uses (r e o : nat) (i count_ : Z) (L : list Z) :
  Forall (fun x => is_setup x = false /\ uses r x) (flat_map (layerCalls r e o i count_) L).
Proof.
  apply Forall_flat_map, Forall_forall. intros c _. unfold layerCalls.
  constructor; [now split | apply chain_uses].
Qed.

(** What [generateMipmap] does once it has the pipeline [r]: further
    calls that build nothing and use [r]; the cache stays as it is. *)
Lemma generateMipmap_after_pipeline (e : nat) (t : TextureDescriptor) (w w1 : World)
    (r : nat) :
  getMipmapPipeline (format t) w = (Ok r, w1) ->
  exists l : list Call,
    calls (snd (generateMipmap e t w)) = calls w1 ++ l /\
    pipelines (snd (generateMipmap e t w)) = pipelines w1 /\
    Forall (fun x => is_setup x = false /\ uses r x) l.
Proof.
  intros Hrun. unfold generateMipmap. rewrite (bind_run _ _ _ _ _ Hrun).
  destruct (non2d (dimension t)).
  { exists []. cbn. rewrite app_nil_r. auto. }
  cbv zeta. set (s := Js.or_num (depthOrArrayLayers (size t)) 1).
  destruct (decide (Z.land (usage t) RENDER_ATTACHMENT = 0)) as [Hi|Hi].
  - rewrite (bind_run _ _ _ _ _ (allocate_run _ _)).
    rewrite (bind_run _ _ _ _ _ (call_run _ _)).
    rewrite (bind_run _ _ _ _ _ (layerChain_run _ _ _ _ _ _ _)).
    rewrite (bind_run _ _ _ _ _ (copyChain_run _ _ _ _ _)).
    rewrite (bind_run _ _ _ _ _ (call_run _ _)).
    rewrite (bind_run _ _ _ _ _ (call_run _ _)).
    unfold ret. rewrite !add_add. cbn [snd add bump calls pipelines].
    eexists. split; [reflexivity|]. split; [reflexivity|].
    repeat first [apply Forall_app; split | apply Forall_cons; split | apply Forall_nil
                 | apply layers_uses | apply copyCalls_uses | now split].
  - match goal with
    | |- exists l, calls (snd (?c w1)) = _ /\ _ =>
        assert (c w1
                = (Ok e,
                   add ([CreateCommandEncoder] ++
                        flat_map (layerCalls r e e (Z.land (usage t) RENDER_ATTACHMENT)
                                    (mipLevelCount t)) (seqZ 0 s) ++
                        [Submit]) w1)) as Heq
    end.
    { unfold ret at 1. rewrite (bind_run _ (fun o => _) w1 w1 e eq_refl).
      rewrite (bind_run _ _ _ _ _ (call_run _ _)).
      rewrite (bind_run _ _ _ _ _ (layerChain_run _ _ _ _ _ _ _)).
      unfold ret at 1. rewrite (bind_run (fun w0 => (Ok tt, w0)) _ _ _ tt eq_refl).
      rewrite (bind_run _ _ _ _ _ (call_run _ _)).
      unfold ret at 1. rewrite (bind_run (fun w0 => (Ok tt, w0)) _ _ _ tt eq_refl).
      unfold ret. rewrite !add_add. reflexivity. }
    rewrite Heq. cbn [snd add calls pipelines].
    eexists. split; [reflexivity|]. split; [reflexivity|].
    repeat first [apply Forall_app; split | apply Forall_cons; split | apply Forall_nil
                 | apply layers_uses | now split].
Qed.

(** X21: the pipeline of a format is built once. After a call of
    [generateMipmap], whatever its outcome, a further call for a
    texture of the same format creates no shader module and no
    pipeline, and all the passes of both calls use the one pipeline,
    which is the one the first call created if it created one. *)
Theorem mipmap_pipeline_built_once (e e' : nat) (t t' : TextureDescriptor) (w : World) :
  format t' = format t ->
  exists r : nat,
    Forall (uses r) (added (generateMipmap e t) w) /\
    Forall (fun x => is_setup x = false /\ uses r x)
      (added (generateMipmap e' t') (snd (generateMipmap e t w))).
Proof.
  intros Hformat.
  destruct (getMipmapPipeline_caches (format t) w) as (r & Hrun & Hcached & Hfirst).
  destruct (generateMipmap_after_pipeline e t w _ r Hrun) as (l & Hcalls & Hpipes & Hl).
  set (w2 := snd (generateMipmap e t w)) in *.
  assert (getMipmapPipeline (format t') w2 = (Ok r, w2)) as Hhit.
  { apply getMipmapPipeline_hit. now rewrite Hformat, Hpipes. }
  destruct (generateMipmap_after_pipeline e' t' w2 _ r Hhit) as (l' & Hcalls' & _ & Hl').
  exists r. split.
  - unfold added in *. fold w2. rewrite Hcalls.
    destruct (getMipmapPipeline_run (format t) w) as (r0 & P & _ & HP & _ & _).
    rewrite HP in Hfirst |- *. rewrite drop_app_length in Hfirst.
    rewrite <- app_assoc, drop_app_length. apply Forall_app. split; [exact Hfirst|].
    eapply Forall_impl; [exact Hl|]. now intros x [_ Hx].
  - unfold added. rewrite Hcalls', drop_app_length. exact Hl'.
Qed.

Lemma mipmap_pipeline_built_once_witness :
  exists r : nat,
    Forall (uses r) (added (generateMipmap 1 volume_descriptor) new_world) /\
    Forall (fun x => is_setup x = false /\ uses r x)
      (added
         (generateMipmap 2
            {| size := {| width := 5; height := 3; depthOrArrayLayers := Some 2 |};
               format := "rgba8unorm";
               usage := Z.lor TEXTURE_BINDING RENDER_ATTACHMENT;
               mipLevelCount := 3;
               dimension := None |})
         (snd (generateMipmap 1 volume_descriptor new_world))).
Proof.
  apply (mipmap_pipeline_built_once 1 2 volume_descriptor
           {| size := {| width := 5; height := 3; depthOrArrayLayers := Some 2 |};
              format := "rgba8unorm";
              usage := Z.lor TEXTURE_BINDING RENDER_ATTACHMENT;
              mipLevelCount := 3;
              dimension := None |} new_world).
  reflexivity.
Defined.

Lemma passes_app (l1 l2 : list Call) : passes (l1 ++ l2) = passes l1 ++ passes l2.
Proof. apply List.filter_app. Qed.

Lemma chain_passes (r o : nat) (c : Z) (n : nat) :
  forall M : Z,
  passes (chain r o c n M (view o (M - 1) c))
  = map (fun k => RenderPass r (view o k c) (view o (k - 1) c)) (seqZ M (Z.of_nat n)).
Proof.
  induction n as [|n IH]; intros M; [reflexivity|].
  rewrite (seqZ_cons M (Z.of_nat (S n))) by lia.
  replace (Z.pred (Z.of_nat (S n))) with (Z.of_nat n) by lia.
  replace (Z.succ M) with (M + 1) by lia.
  cbn [chain passes List.filter is_render_pass map]. fold (passes).
  f_equal. rewrite <- IH. do 3 f_equal. lia.
Qed.

Lemma layer_passes (r e : nat) (i n c : Z) :
  i <> 0 -> passes (layerCalls r e e i n c) = levelPasses r e n c.
Proof.
  intros Hi. unfold layerCalls, levelPasses.
  destruct (decide (i = 0)) as [Hz|_]; [contradiction|].
  cbn [passes List.filter is_render_pass]. fold passes.
  change (view e 0 c) with (view e (1 - 1) c). rewrite chain_passes.
  unfold seqZ. now rewrite Nat2Z.id.
Qed.

Lemma layers_passes (r e : nat) (i n : Z) (L : list Z) :
  i <> 0 ->
  passes (flat_map (layerCalls r e e i n) L) = flat_map (levelPasses r e n) L.
Proof.
  intros Hi. induction L as [|c L IH]; [reflexivity|].
  cbn [flat_map]. now rewrite passes_app, IH, layer_passes.
Qed.

(** X22: for a texture whose dimension is neither ["1d"] nor ["3d"] and
    whose usage has [RENDER_ATTACHMENT], [generateMipmap] works in
    place: it creates no texture and copies nothing, and its passes
    are, layer after layer, one for each level after the first, into
    that level of the texture itself and from the level before it in
    the same layer. *)
Theorem generateMipmap_in_place_passes (e : nat) (t : TextureDescriptor) (w : World) :
  non2d (dimension t) = false ->
  Z.land (usage t) RENDER_ATTACHMENT <> 0 ->
  exists r : nat,
    fst (generateMipmap e t w) = Ok e /\
    passes (added (generateMipmap e t) w)
    = flat_map (levelPasses r e (mipLevelCount t))
        (seqZ 0 (Js.or_num (depthOrArrayLayers (size t)) 1)) /\
    count is_create_texture (added (generateMipmap e t) w) = 0%nat /\
    count is_copy (added (generateMipmap e t) w) = 0%nat.
Proof.
  intros H2d Hi.
  destruct (generateMipmap_in_place e t w H2d Hi) as (r & P & HP & Hok & Hcalls).
  cbv zeta in HP, Hok, Hcalls.
  set (s := Js.or_num (depthOrArrayLayers (size t)) 1) in *.
  set (L := flat_map (layerCalls r e e (Z.land (usage t) RENDER_ATTACHMENT)
                        (mipLevelCount t)) (seqZ 0 s)) in *.
  exists r. split; [exact Hok|].
  unfold added. rewrite Hcalls, drop_app_length.
  destruct (layers_shape r e e (Z.land (usage t) RENDER_ATTACHMENT) (mipLevelCount t)
              (seqZ 0 s)) as (HL & _ & _ & _).
  fold L in HL.
  assert (passes P = [] /\ count is_create_texture P = 0%nat /\ count is_copy P = 0%nat)
    as (HPp & HPt & HPc).
  { destruct HP as [-> | ->]; repeat split; reflexivity. }
  split; [|split].
  - rewrite !passes_app, HPp. unfold L. rewrite (layers_passes _ _ _ _ _ Hi).
    cbn. now rewrite app_nil_r.
  - rewrite !count_app, HPt.
    rewrite (count_none is_create_texture L);
      [reflexivity | eapply Forall_impl; [exact HL|]; now intros x (_ & Hx & _)].
  - rewrite !count_app, HPc.
    rewrite (count_none is_copy L);
      [reflexivity | eapply Forall_impl; [exact HL|]; now intros x (Hx & _)].
Qed.

Lemma generateMipmap_in_place_passes_witness :
  exists r : nat,
    fst (generateMipmap 7
           {| size := {| width := 5; height := 3; depthOrArrayLayers := Some 2 |};
              format := "rgba8unorm";
              usage := Z.lor TEXTURE_BINDING RENDER_ATTACHMENT;
              mipLevelCount := 3;
              dimension := None |} new_world) = Ok 7%nat /\
    passes
      (added
         (generateMipmap 7
            {| size := {| width := 5; height := 3; depthOrArrayLayers := Some 2 |};
               format := "rgba8unorm";
               usage := Z.lor TEXTURE_BINDING RENDER_ATTACHMENT;
               mipLevelCount := 3;
               dimension := None |}) new_world)
    = [RenderPass r (view 7 1 0) (view 7 0 0); RenderPass r (view 7 2 0) (view 7 1 0);
       RenderPass r (view 7 1 1) (view 7 0 1); RenderPass r (view 7 2 1) (view 7 1 1)].
Proof.
  destruct (generateMipmap_in_place_passes 7
              {| size := {| width := 5; height := 3; depthOrArrayLayers := Some 2 |};
                 format := "rgba8unorm";
                 usage := Z.lor TEXTURE_BINDING RENDER_ATTACHMENT;
                 mipLevelCount := 3;
                 dimension := None |} new_world) as (r & Hok & Hpasses & _).
  - reflexivity.
  - vm_compute. discriminate.
  - exists r. split; [exact Hok | exact Hpasses].
Defined.

(** X23: the earlier client of [src/webgpu-texture-tool.js] generates
    mipmaps in place whatever the usage and the dimension of the
    texture: on a live client [generateMipmap] returns the texture,
    creates no texture and copies nothing, and renders each level after
    the first from the level before it; once destroyed it fails without
    a call. *)
Theorem earlier_generateMipmap_passes (d r e : nat) (t : TextureDescriptor) (w : World) :
  fst (EarlierClient.generateMipmap (Some d) r e t w) = Ok e /\
  passes (added (EarlierClient.generateMipmap (Some d) r e t) w)
  = levelPasses r e (mipLevelCount t) 0 /\
  count is_create_texture (added (EarlierClient.generateMipmap (Some d) r e t) w) = 0%nat /\
  count is_copy (added (EarlierClient.generateMipmap (Some d) r e t) w) = 0%nat /\
  EarlierClient.generateMipmap None r e t w
  = (Throw "Cannot generate mipmaps after object has been destroyed.", w).
Proof.
  unfold added. rewrite earlier_generateMipmap_run. cbn [fst snd add calls].
  rewrite drop_app_length.
  destruct (chain_shape r e 0 (Z.to_nat (mipLevelCount t - 1)) 1 (view e 0 0))
    as (Hshape & _ & _ & _).
  split; [reflexivity|]. split; [|split; [|split]].
  - rewrite !passes_app. cbn [passes List.filter is_render_pass app]. fold passes.
    change (view e 0 0) with (view e (1 - 1) 0). rewrite chain_passes.
    rewrite app_nil_r. unfold levelPasses, seqZ. now rewrite Nat2Z.id.
  - rewrite !count_app. rewrite (count_none is_create_texture (chain _ _ _ _ _ _));
      [reflexivity | eapply Forall_impl; [exact Hshape|]; now intros x (_ & Hx & _)].
  - rewrite !count_app. rewrite (count_none is_copy (chain _ _ _ _ _ _));
      [reflexivity | eapply Forall_impl; [exact Hshape|]; now intros x (Hx & _)].
  - reflexivity.
Qed.

End Pipelines.

(** ** Noise textures *)

Section NoiseTextures.

Import Gpu MipmapGenerator TextureData Client WebTextureTool Upload Noise.

Lemma newTextureData_view (fmt : string) (e t n : Z) (bytes : list Z) :
  0 <= e < 2 ^ 31 -> 0 <= t < 2 ^ 31 ->
  newTextureData fmt e t (Some (ArrayBufferView bytes 0 n)) no_slice_options
  = Ok {| data_format := fmt; data_width := Z.max 1 e; data_height := Z.max 1 t;
          levels :=
            [Some {| levelIndex := 0; level_width := Z.max 1 e; level_height := Z.max 1 t;
                     slices := [Some {| buffer := bytes; byteOffset := 0;
                                        byteLength := n |}] |}] |}.
Proof.
  intros He Ht.
  assert (sar (Z.max 1 e) 0 = Z.max 1 e /\ sar (Z.max 1 t) 0 = Z.max 1 t) as [HsW HsH].
  { pose proof (sar_small (Z.max 1 e) 0 ltac:(lia) ltac:(lia)) as HW.
    pose proof (sar_small (Z.max 1 t) 0 ltac:(lia) ltac:(lia)) as HH.
    cbn [Z.of_nat] in HW, HH. rewrite Z.pow_0_r, Z.div_1_r in HW, HH. now split. }
  lazy -[Z.max sar Z.sub]. rewrite HsW, HsH, Z.sub_0_r.
  rewrite (Z.max_r 1 (Z.max 1 e)), (Z.max_r 1 (Z.max 1 t)) by lia.
  reflexivity.
Qed.

Lemma fromTextureData_plain_run (this : WebGPUTextureClient) (e : WebTextureData)
    (t : OptionsArg) (r : FormatInfo) (w : World) :
  device this <> None ->
  WebTextureFormat (data_format e) = Some r ->
  complete e ->
  generates t r = false ->
  fromTextureData this e t w
  = (Ok (result (nextHandle w) e t r),
     add (CreateTexture (nextHandle w) (descriptor e t r)
            :: levelsWrites (nextHandle w) (blockInfo r) (present (levels e)))
       (bump w)).
Proof.
  intros Hdev Hfmt [Hlevels Hfull] Hs.
  rewrite (fromTextureData_start this e t r w Hdev Hfmt), Hs
    by now apply (levelNumber_count e t r _ (levelNumber_plain e t r Hs)).
  rewrite (present_all (levels e) Hlevels) at 1.
  rewrite (bind_run _ _ _ _ _ (levels_run _ _ _ _ Hfull)).
  unfold ret at 1. rewrite (bind_run (fun w0 => (Ok tt, w0)) _ _ _ tt eq_refl).
  unfold ret. now rewrite add_add.
Qed.

Lemma noiseBytes_length (random : nat -> float) (e t : Z) :
  length (noiseBytes random e t) = Z.to_nat (e * t * 4).
Proof. unfold noiseBytes. now rewrite length_map, length_seq. Qed.

(** X24: on a live tool, [fromNoise] for sides that are natural numbers
    below [2^31], in an engine whose longest array has [maxByteLength]
    bytes (less than [2^53]): when the noise, [e * t * 4] bytes, is
    longer than that, the call throws the RangeError of the allocation
    and calls nothing on the device. Otherwise it creates one
    [rgba8unorm] texture of one level whose sides are the sides asked
    for, raised to at least 1, and writes the noise to it once, four
    bytes a texel; no mipmaps are generated. The noise consists of byte
    values and is what the write covers exactly when neither side is 0.
    On a destroyed tool the call fails without a call on the device. *)
Theorem fromNoise_texture (maxByteLength : Z) (cl : WebGPUTextureClient) (e t : Z)
    (random : nat -> float) (w : World) :
  maxByteLength < 2 ^ 53 ->
  device cl <> None ->
  0 <= e < 2 ^ 31 ->
  0 <= t < 2 ^ 31 ->
  (e * t * 4 <= maxByteLength ->
   fromNoise maxByteLength {| client := Some cl |} e t random w
   = (Ok {| texture := nextHandle w; Client.width := Z.max 1 e;
            Client.height := Z.max 1 t; depth := 1; mipLevels := 1;
            Client.format := "rgba8unorm"; type := "2d" |},
      add [CreateTexture (nextHandle w) (noiseDescriptor e t);
           WriteTexture (nextHandle w) 0 None (noiseBytes random e t) 0 (Z.max 1 e * 4)
             (size (noiseDescriptor e t))]
        (bump w))) /\
  (maxByteLength < e * t * 4 ->
   fromNoise maxByteLength {| client := Some cl |} e t random w
   = (Throw noise_RangeError, w)) /\
  Z.of_nat (length (noiseBytes random e t)) = e * t * 4 /\
  (Z.of_nat (length (noiseBytes random e t)) = Z.max 1 e * 4 * Z.max 1 t
   <-> 1 <= e /\ 1 <= t) /\
  Forall (fun b => 0 <= b < 256) (noiseBytes random e t) /\
  fromNoise maxByteLength (WebTextureTool.destroy {| client := Some cl |}) e t random w
  = (Throw "Cannot create new textures after object has been destroyed.", w).
Proof.
  intros Hmax Hdev He Ht.
  assert (Z.of_nat (length (noiseBytes random e t)) = e * t * 4) as Hlen.
  { rewrite noiseBytes_length. nia. }
  split; [|split; [|split; [exact Hlen|split; [|split]]]].
  - intros Hfits. unfold fromNoise; cbn [client]. unfold Js.allocates.
    destruct (Z.leb_spec 0 (e * t * 4)) as [_|Hneg]; [|nia].
    destruct (Z.leb_spec (e * t * 4) maxByteLength) as [_|Hlong]; [|lia].
    cbn [andb]. cbv zeta.
    generalize (noiseBytes random e t); intros bytes.
    unfold lift. rewrite (newTextureData_view _ e t _ bytes He Ht).
    match goal with
    | |- bind _ _ w = _ => unfold bind at 1
    end.
    match goal with
    | |- fromTextureData cl ?d NoOptions w = _ =>
        rewrite (fromTextureData_plain_run cl d NoOptions plain w Hdev eq_refl)
    end.
    + unfold result, descriptor, noiseDescriptor, levelCount, levelNumber, levelsWrites,
        levelWrites, sliceWrite, blockInfo, present, generates, Js.ceil_div.
      cbn -[Z.max Z.mul Z.div Z.opp add bump].
      rewrite !Z.div_1_r, !Z.opp_involutive, !Z.mul_1_r.
      destruct (decide (Z.max 1 e = 0)) as [Hz|_]; [lia|].
      destruct (decide (Z.max 1 t = 0)) as [Hz|_]; [lia|].
      reflexivity.
    + split; repeat constructor; eauto.
    + reflexivity.
  - intros Hlong. unfold fromNoise; cbn [client]. unfold Js.allocates.
    destruct (Z.leb_spec (e * t * 4) maxByteLength) as [Hfits|_]; [lia|].
    now rewrite andb_false_r.
  - rewrite Hlen.
    destruct (Z.max_spec 1 e) as [[? ->] | [? ->]], (Z.max_spec 1 t) as [[? ->] | [? ->]];
      split; try (intros [? ?]); try intros ?; try split; nia.
  - unfold noiseBytes. apply Forall_map, Forall_forall. intros o _.
    unfold Js.ToUint8. apply Z.mod_pos_bound. lia.
  - reflexivity.
Qed.

Lemma fromNoise_texture_witness :
  fromNoise 4294967295 {| client := Some {| device := Some 0%nat |} |} 3 2
    (fun _ => 0.5%float) new_world
  = (Ok {| texture := 1; Client.width := 3; Client.height := 2; depth := 1;
           mipLevels := 1; Client.format := "rgba8unorm"; type := "2d" |},
     add [CreateTexture 1 (noiseDescriptor 3 2);
          WriteTexture 1 0 None (noiseBytes (fun _ => 0.5%float) 3 2) 0 12
            (size (noiseDescriptor 3 2))]
       (bump new_world)).
Proof.
  destruct (fromNoise_texture 4294967295 {| device := Some 0%nat |} 3 2
              (fun _ => 0.5%float) new_world) as (Hrun & _).
  - reflexivity.
  - discriminate.
  - vm_compute; split; [discriminate | reflexivity].
  - vm_compute; split; [discriminate | reflexivity].
  - apply Hrun. vm_compute. discriminate.
Defined.

End NoiseTextures.
